(** * gpio.c: the set-uid command-line interface to the Raspberry Pi's GPIO

    A shallow embedding of [gpio/gpio.c].  The program is a sequence of
    calls into the C library, the wiringPi library and the kernel's sysfs
    files; every handler either returns or leaves through [exit].  The
    embedding threads an explicit [World] (what the operating system and
    the wiringPi library answer, the files written, the trace of effects)
    through a small state-and-exit monad. *)

From Stdlib Require Import ZArith Lia Ascii String.
From stdpp Require Import base strings list gmap pretty.

Local Open Scope string_scope.
Local Open Scope Z_scope.

(** ** The C library, as far as gpio.c uses it *)

Module Libc.

Definition code (c : ascii) : Z := Z.of_N (N_of_ascii c).

Definition chr (z : Z) : ascii := ascii_of_N (Z.to_N z).

Definition NUL : ascii := chr 0.

Definition is_nul (c : ascii) : bool := code c =? 0.

(** A [char *] argument is read up to its terminating NUL. *)
Fixpoint c_str (s : string) : string :=
  match s with
  | EmptyString => EmptyString
  | String c r => if is_nul c then EmptyString else String c (c_str r)
  end.

(** [tolower] in the C locale. *)
Definition tolower (c : ascii) : ascii :=
  if (65 <=? code c) && (code c <=? 90) then chr (code c + 32) else c.

Definition toupper (c : ascii) : ascii :=
  if (97 <=? code c) && (code c <=? 122) then chr (code c - 32) else c.

Fixpoint smap (f : ascii -> ascii) (s : string) : string :=
  match s with
  | EmptyString => EmptyString
  | String c r => String (f c) (smap f r)
  end.

(** The text a case-insensitive comparison sees. *)
Definition casefold (s : string) : string := smap tolower (c_str s).

Fixpoint cmp_with (f : ascii -> ascii) (s1 s2 : string) : Z :=
  match s1, s2 with
  | EmptyString, EmptyString => 0
  | EmptyString, String c2 _ => 0 - code (f c2)
  | String c1 _, EmptyString => code (f c1)
  | String c1 r1, String c2 r2 =>
      let d := code (f c1) - code (f c2) in
      if d =? 0 then cmp_with f r1 r2 else d
  end.

Definition strcmp (s1 s2 : string) : Z :=
  cmp_with (fun c => c) (c_str s1) (c_str s2).

Definition strcasecmp (s1 s2 : string) : Z :=
  cmp_with tolower (c_str s1) (c_str s2).

(** [strncmp (s1, s2, n)]: at most [n] characters are compared. *)
Fixpoint strncmp_go (n : nat) (s1 s2 : string) : Z :=
  match n with
  | O => 0
  | S n' =>
      match s1, s2 with
      | EmptyString, EmptyString => 0
      | EmptyString, String c2 _ => 0 - code c2
      | String c1 _, EmptyString => code c1
      | String c1 r1, String c2 r2 =>
          let d := code c1 - code c2 in
          if d =? 0 then strncmp_go n' r1 r2 else d
      end
  end.

Definition strncmp (s1 s2 : string) (n : Z) : Z :=
  strncmp_go (Z.to_nat n) (c_str s1) (c_str s2).

Definition strlen (s : string) : Z := Z.of_nat (String.length (c_str s)).

Definition isspace (c : ascii) : bool :=
  (code c =? 32) || ((9 <=? code c) && (code c <=? 13)).

Fixpoint skip_space (s : string) : string :=
  match s with
  | String c r => if isspace c then skip_space r else s
  | EmptyString => s
  end.

(** The value of a digit in the given base, if it is one. *)
Definition digit_val (base : Z) (c : ascii) : option Z :=
  let k := code c in
  let v := if (48 <=? k) && (k <=? 57) then k - 48
           else if (97 <=? k) && (k <=? 122) then k - 97 + 10
           else if (65 <=? k) && (k <=? 90) then k - 65 + 10
           else 36 in
  if v <? base then Some v else None.

(** The longest run of digits, accumulated; [None] when there is no digit. *)
Fixpoint digits (base : Z) (s : string) (acc : option Z) : option Z :=
  match s with
  | EmptyString => acc
  | String c r =>
      match digit_val base c with
      | Some v => digits base r (Some (default 0 acc * base + v))
      | None => acc
      end
  end.

(** Sign and the rest of the subject sequence. *)
Definition sign_of (s : string) : bool * string :=
  match s with
  | String "-" r => (true, r)
  | String "+" r => (false, r)
  | _ => (false, s)
  end.

(** For base 0 and 16 the prefix [0x] is skipped when a hex digit follows;
    base 0 then picks 16, 8 or 10. *)
Definition pick_base (base : Z) (s : string) : Z * string :=
  match s with
  | String "0" (String x (String d r)) =>
      if ((base =? 0) || (base =? 16)) && ((code x =? 120) || (code x =? 88))
         && bool_decide (is_Some (digit_val 16 d))
      then (16, String d r)
      else if base =? 0 then (8, s) else (base, s)
  | String "0" _ => if base =? 0 then (8, s) else (base, s)
  | _ => if base =? 0 then (10, s) else (base, s)
  end.

Definition LONG_MAX : Z := 2 ^ 63 - 1.
Definition LONG_MIN : Z := - 2 ^ 63.
Definition ULONG_MAX : Z := 2 ^ 64 - 1.

(** [strtol (s, NULL, base)] on an LP64 or ILP32-with-64-bit-long target:
    out-of-range values are clamped. *)
Definition strtol (s : string) (base : Z) : Z :=
  let '(neg, r) := sign_of (skip_space (c_str s)) in
  let '(b, r') := pick_base base r in
  match digits b r' None with
  | None => 0
  | Some m => let v := if neg then - m else m in
              Z.max LONG_MIN (Z.min LONG_MAX v)
  end.

(** [strtoul (s, NULL, base)]: a value that does not fit gives
    [ULONG_MAX]; a minus sign negates in the unsigned type. *)
Definition strtoul (s : string) (base : Z) : Z :=
  let '(neg, r) := sign_of (skip_space (c_str s)) in
  let '(b, r') := pick_base base r in
  match digits b r' None with
  | None => 0
  | Some m => if ULONG_MAX <? m then ULONG_MAX
              else if neg then (- m) mod 2 ^ 64 else m
  end.

(** Conversion to [int] and to [unsigned int] (32 bits). *)
Definition to_int (z : Z) : Z := (z + 2 ^ 31) mod 2 ^ 32 - 2 ^ 31.
Definition to_uint (z : Z) : Z := z mod 2 ^ 32.

(** [atoi (s)] is [(int) strtol (s, NULL, 10)]. *)
Definition atoi (s : string) : Z := to_int (strtol s 10).

(** [strtok] applied until it returns NULL: the non-empty pieces between
    delimiters. *)
Fixpoint tokens_go (delim : ascii) (s : string) (cur : string) : list string :=
  match s with
  | EmptyString => if String.eqb cur "" then [] else [String.rev cur]
  | String c r =>
      if Ascii.eqb c delim
      then (if String.eqb cur "" then [] else [String.rev cur])
             ++ tokens_go delim r ""
      else tokens_go delim r (String c cur)
  end.

Definition strtok_all (s : string) (delim : ascii) : list string :=
  tokens_go delim (c_str s) "".

(** *** printf conversions *)

Fixpoint replicate_char (n : nat) (c : ascii) : string :=
  match n with
  | O => EmptyString
  | S n' => String c (replicate_char n' c)
  end.

Definition pad_left (w : nat) (c : ascii) (s : string) : string :=
  replicate_char (w - String.length s) c +:+ s.

Definition pad_right (w : nat) (s : string) : string :=
  s +:+ replicate_char (w - String.length s) " ".

(** [%d] *)
Definition fmt_d (z : Z) : string := pretty z.

(** [%4d] *)
Definition fmt_wd (w : nat) (z : Z) : string := pad_left w " " (fmt_d z).

Definition hex_digit (v : Z) : ascii :=
  if v <? 10 then chr (48 + v) else chr (65 + v - 10).

Fixpoint hex_go (n : nat) (v : Z) (acc : string) : string :=
  match n with
  | O => acc
  | S n' => if v =? 0 then acc
            else hex_go n' (v / 16) (String (hex_digit (v mod 16)) acc)
  end.

(** [%X] of a 32-bit unsigned value *)
Definition fmt_X (z : Z) : string :=
  let v := to_uint z in
  if v =? 0 then "0" else hex_go 8 v "".

(** [%08X], [%02X] *)
Definition fmt_0wX (w : nat) (z : Z) : string := pad_left w "0" (fmt_X z).

(** [basename] of <libgen.h>: trailing slashes are dropped, then the part
    after the last slash is taken. *)
Fixpoint drop_trailing_slashes (rev_s : string) : string :=
  match rev_s with
  | String "/" r => drop_trailing_slashes r
  | _ => rev_s
  end.

Fixpoint upto_slash (rev_s : string) : string :=
  match rev_s with
  | EmptyString => EmptyString
  | String c r => if Ascii.eqb c "/" then EmptyString else String c (upto_slash r)
  end.

Definition basename (s : string) : string :=
  let s := c_str s in
  if String.eqb s "" then "."
  else
    let r := drop_trailing_slashes (String.rev s) in
    if String.eqb r "" then "/" else String.rev (upto_slash r).

End Libc.

Import Libc.

(** ** wiringPi.h and version.h *)

(** Modelled from the spec: [wiringPi.h], [wpiExtensions.h] and
    [../version.h] are not part of the sources at hand; gpio.c uses their
    constants by name only, so they are parameters of the development. *)
Class wiringPi_h := {
  LOW : Z; HIGH : Z;
  INPUT : Z; OUTPUT : Z; PWM_OUTPUT : Z; PWM_TONE_OUTPUT : Z; GPIO_CLOCK : Z;
  PUD_OFF : Z; PUD_DOWN : Z; PUD_UP : Z;
  PWM_MODE_MS : Z; PWM_MODE_BAL : Z;
  INT_EDGE_FALLING : Z; INT_EDGE_RISING : Z; INT_EDGE_BOTH : Z;
  WPI_MODE_PINS : Z; WPI_MODE_GPIO : Z; WPI_MODE_PHYS : Z;
  WPI_MODE_UNINITIALISED : Z;
  PI_MODEL_BP : Z; PI_MODEL_2B : Z;
  MAX_ONBOARD_PINS : Z;
  VERSION : string;
}.

Definition PI_USB_POWER_CONTROL : Z := 38.
Definition I2CDETECT : string := "i2cdetect".
Definition MODPROBE : string := "modprobe".
Definition RMMOD : string := "rmmod".

Definition EXIT_SUCCESS : Z := 0.
Definition EXIT_FAILURE : Z := 1.

(** ** The world gpio runs in *)

(** Everything the program does that can be seen from outside, in program
    order.  A write to a [FILE *] is recorded where [fprintf] is called;
    stdio buffering is not modelled. *)
Inductive Event :=
| Stdout (text : string)
| Stderr (text : string)
| FileOpen (path : string)
| FileWrite (path data : string)
| FileClose (path : string)
| Chown (path : string) (uid gid : Z)
| System (cmd : string)
| Sleep (seconds : Z)
| DelayMs (ms : Z)
| Call (fn : string) (args : list Z)
| CallExt (fn : string) (args : list string)
| Assign_wpMode (v : Z).

Inductive ChownResult := ChownOk | ChownENOENT | ChownFails (strerror : string).

(** What [piBoardId] stores through its pointers and returns. *)
Record BoardId := {
  b_fullRev : Z; b_model : Z; b_proc : Z; b_rev : Z; b_mem : Z;
  b_maker : Z; b_warranty : Z
}.

(** What the operating system and the wiringPi library answer.  None of it
    is under the program's control. *)
Record Env := {
  getenv_WIRINGPI_DEBUG : bool;
  geteuid : Z;
  getuid : Z;
  getgid : Z;
  stat_ok : string -> bool;
  fopen_w_ok : string -> bool;
  strerror_errno : string -> string;
  chown_result : string -> ChownResult;
  system_status : string -> Z;
  system_modules : string -> option (list string) -> option (list string);
  stack_garbage : Z -> ascii;
  digitalRead_ret : list Event -> Z -> Z;
  analogRead_ret : Z -> Z;
  digitalReadBank_ret : Z -> Z;
  digitalReadByte_ret : Z;
  wiringPiISR_ret : Z;
  wiringPiISRmulti_ret : Z;
  loadWPiExtension_ret : string -> bool;
  piGpioLayout_ret : Z;
  piBoardId_ret : BoardId;
  wiringPiVersion_ret : Z * Z;
  piModelNames : Z -> string;
  piProcessorNames : Z -> string;
  piRevisionNames : Z -> string;
  piMemorySize : Z -> string;
  piMakerNames : Z -> string;
  irq : nat -> list Z
}.

(** What changes while the program runs: the files (path to content), the
    lines of [/proc/modules] ([None]: it cannot be opened), the globals
    [wpMode], [nInts] and [wiringPiDebug], the number of interrupt slots
    that have passed, and the trace. *)
Record State := {
  files : gmap string string;
  modules : option (list string);
  wpMode : Z;
  nInts : Z;
  wiringPiDebug : bool;
  irq_slot : nat;
  trace : list Event
}.

Definition set_files (f : gmap string string) (s : State) : State :=
  {| files := f; modules := modules s; wpMode := wpMode s; nInts := nInts s;
     wiringPiDebug := wiringPiDebug s; irq_slot := irq_slot s; trace := trace s |}.

Definition set_modules (m : option (list string)) (s : State) : State :=
  {| files := files s; modules := m; wpMode := wpMode s; nInts := nInts s;
     wiringPiDebug := wiringPiDebug s; irq_slot := irq_slot s; trace := trace s |}.

Definition set_wpMode (v : Z) (s : State) : State :=
  {| files := files s; modules := modules s; wpMode := v; nInts := nInts s;
     wiringPiDebug := wiringPiDebug s; irq_slot := irq_slot s; trace := trace s |}.

Definition set_nInts (v : Z) (s : State) : State :=
  {| files := files s; modules := modules s; wpMode := wpMode s; nInts := v;
     wiringPiDebug := wiringPiDebug s; irq_slot := irq_slot s; trace := trace s |}.

Definition set_wiringPiDebug (b : bool) (s : State) : State :=
  {| files := files s; modules := modules s; wpMode := wpMode s; nInts := nInts s;
     wiringPiDebug := b; irq_slot := irq_slot s; trace := trace s |}.

Definition set_irq_slot (k : nat) (s : State) : State :=
  {| files := files s; modules := modules s; wpMode := wpMode s; nInts := nInts s;
     wiringPiDebug := wiringPiDebug s; irq_slot := k; trace := trace s |}.

Definition set_trace (t : list Event) (s : State) : State :=
  {| files := files s; modules := modules s; wpMode := wpMode s; nInts := nInts s;
     wiringPiDebug := wiringPiDebug s; irq_slot := irq_slot s; trace := t |}.

(** ** The monad: state, and the ways a C function can end *)

(** A call returns a value, leaves the process through [exit], is still
    running when the fuel given to its loops is used up, or runs into
    undefined behaviour that has no sensible reading ([Fault]). *)
Inductive Result (A : Type) :=
| Ret (a : A)
| Exit (code : Z)
| Running
| Fault.
Arguments Ret {A} a.
Arguments Exit {A} code.
Arguments Running {A}.
Arguments Fault {A}.

Definition M (A : Type) : Type := Env -> State -> Result A * State.

Definition run {A} (m : M A) (e : Env) (s : State) : Result A * State := m e s.

#[global] Instance M_ret : MRet M := fun A a _ s => (Ret a, s).

#[global] Instance M_bind : MBind M := fun A B k m e s =>
  match m e s with
  | (Ret a, s') => k a e s'
  | (Exit c, s') => (Exit c, s')
  | (Running, s') => (Running, s')
  | (Fault, s') => (Fault, s')
  end.

Definition skip : M unit := mret tt.

Definition exit {A} (c : Z) : M A := fun _ s => (Exit c, s).
Definition out_of_fuel {A} : M A := fun _ s => (Running, s).
Definition undefined {A} : M A := fun _ s => (Fault, s).

Definition ask {A} (f : Env -> A) : M A := fun e s => (Ret (f e), s).
Definition get {A} (f : State -> A) : M A := fun _ s => (Ret (f s), s).
Definition modify (f : State -> State) : M unit := fun _ s => (Ret tt, f s).

Definition emit (ev : Event) : M unit :=
  modify (fun s => set_trace (trace s ++ [ev]) s).

Definition printf (text : string) : M unit := emit (Stdout text).
Definition eprintf (text : string) : M unit := emit (Stderr text).

(** [fopen (path, "w")]: the answer is the environment's; an opened file is
    truncated. *)
Definition fopen_w (path : string) : M bool :=
  ok ← ask (fun e => fopen_w_ok e path);
  if ok : bool
  then emit (FileOpen path);;
       modify (fun s => set_files (<[path := ""]> (files s)) s);;
       mret true
  else mret false.

(** [fprintf (fd, ...)] on a file opened for writing. *)
Definition fwrite (path data : string) : M unit :=
  emit (FileWrite path data);;
  modify (fun s => set_files (<[path := default "" (files s !! path) +:+ data]> (files s)) s).

Definition fclose (path : string) : M unit := emit (FileClose path).

(** [open (path, O_RDONLY)] followed by [read (fd, buf, n)]: the first [n]
    bytes of the file, [None] when it cannot be opened. *)
Definition string_take (n : nat) (s : string) : string := String.substring 0 n s.

Definition open_read (path : string) (n : nat) : M (option string) :=
  get (fun s => string_take n <$> files s !! path).

(** A call into the wiringPi library. *)
Definition call (fn : string) (args : list Z) : M unit := emit (Call fn args).

(** ** gpio.c *)

Definition nl : string := String "010" "".
Definition dquote : string := String "034" "".

(** [%s] given a pointer that may be NULL, as glibc prints it. *)
Definition fmt_s (p : option string) : string := default "(null)" p.

(** [argv [k]] *)
Definition arg (argv : list string) (k : nat) : string := argv !!! k.

Definition streq (a b : string) : bool := strcmp a b =? 0.
Definition strcaseeq (a b : string) : bool := strcasecmp a b =? 0.

Definition fail_with {A} (msg : string) (c : Z) : M A := eprintf msg;; exit c.

Definition when (b : bool) (m : M unit) : M unit := if b then m else skip.

Definition usage : string :=
  "Usage: gpio -v             Show version info" +:+ nl +:+
  "       gpio -h|-help|--help|help|h  Show Help" +:+ nl +:+
  "       gpio [-b|-p|-w] ... Use bcm-gpio/physical/WiringPi pin numbering scheme." +:+ nl +:+
  "                           If none specified, BCM GPIO numbering is used by default." +:+ nl +:+
  "       [-x extension:params][[ -x ...]] ..." +:+ nl +:+
  "       gpio <mode/read/write/aread/awritewb/pwm/pwmTone/clock> ..." +:+ nl +:+
  "       gpio qmode <pin>" +:+ nl +:+
  "       gpio bank <bank>" +:+ nl +:+
  "       gpio <toggle/blink> <pin>" +:+ nl +:+
  "       gpio readall/allreadall" +:+ nl +:+
  "       gpio unexportall/exports" +:+ nl +:+
  "       gpio export/edge/unexport ..." +:+ nl +:+
  "       gpio wfi <pin> <mode>" +:+ nl +:+
  "       gpio mwfi <pin>[,<pin>...] <mode>" +:+ nl +:+
  "       gpio drive <group> <value>" +:+ nl +:+
  "       gpio pwm-bal/pwm-ms " +:+ nl +:+
  "       gpio pwmr <range> " +:+ nl +:+
  "       gpio pwmc <divider> " +:+ nl +:+
  "       gpio load spi/i2c" +:+ nl +:+
  "       gpio unload spi/i2c" +:+ nl +:+
  "       gpio i2cd/i2cdetect" +:+ nl +:+
  "       gpio rbx/rbd" +:+ nl +:+
  "       gpio wb <value>" +:+ nl +:+
  "       gpio usbp high/low".

(** *** findExecutable *)

Definition searchPath : list string :=
  ["/sbin"; "/usr/sbin"; "/bin"; "/usr/bin"; "/usr/local/bin"; "/usr/local/sbin"].

Fixpoint findExecutable_in (dirs : list string) (progName : string) : M (option string) :=
  match dirs with
  | [] => mret None
  | dir :: rest =>
      let path := dir +:+ "/" +:+ progName in
      found ← ask (fun e => stat_ok e path);
      if found : bool then mret (Some path) else findExecutable_in rest progName
  end.

Definition findExecutable (progName : string) : M (option string) :=
  findExecutable_in searchPath progName.

(** *** changeOwner *)

Definition changeOwner (cmd file : string) : M unit :=
  uid ← ask getuid;
  gid ← ask getgid;
  emit (Chown file uid gid);;
  r ← ask (fun e => chown_result e file);
  match r with
  | ChownOk => skip
  | ChownENOENT => skip
  | ChownFails why =>
      eprintf (cmd +:+ ": Unable to change ownership of " +:+ file +:+ ": " +:+ why +:+ nl)
  end.

(** *** moduleLoaded *)

(** [fgets (line, 80, fd)]: up to 79 characters, stopping after a newline. *)
Fixpoint fgets (n : nat) (content : string) : string :=
  match n, content with
  | S n', String c r =>
      if code c =? 10 then String c EmptyString else String c (fgets n' r)
  | _, _ => EmptyString
  end.

(** What is left of the file after [n] characters. *)
Fixpoint string_drop (n : nat) (content : string) : string :=
  match n, content with
  | S n', String _ r => string_drop n' r
  | _, _ => content
  end.

(** [while (fgets (line, 80, fd) != NULL)]: what [line] holds round by
    round.  A line of the file of up to 79 bytes, newline included, comes
    in one piece; a longer one comes in pieces of 79 bytes.  At the end of
    the file [fgets] answers NULL.  Every round takes at least one
    character, so as many rounds as the file has characters are enough. *)
Fixpoint fgets_all (fuel : nat) (content : string) : list string :=
  match fuel with
  | O => []
  | S fuel' =>
      if String.eqb content "" then []
      else let line := fgets 79 content in
           line :: fgets_all fuel' (string_drop (String.length line) content)
  end.

Definition fgets_lines (content : string) : list string :=
  fgets_all (String.length content) content.

(** The file whose lines are [lines], each with its newline. *)
Definition file_of_lines (lines : list string) : string :=
  foldr String.append "" lines.

(** The loop over [/proc/modules]: a piece that starts with the name ends
    it. *)
Definition module_listed (modName : string) (lines : list string) : bool :=
  let len := strlen modName in
  existsb (fun line => strncmp line modName len =? 0)
          (fgets_lines (file_of_lines lines)).

Definition moduleLoaded (modName : string) : M bool :=
  fd ← get modules;
  match fd with
  | None =>
      why ← ask (fun e => strerror_errno e "/proc/modules");
      fail_with ("gpio: Unable to check /proc/modules: " +:+ why +:+ nl) 1
  | Some lines => mret (module_listed modName lines)
  end.

(** [system (cmd)]: the command runs and may change the loaded modules. *)
Definition system (cmd : string) : M Z :=
  emit (System cmd);;
  f ← ask (fun e => system_modules e cmd);
  modify (fun s => set_modules (f (modules s)) s);;
  ask (fun e => system_status e cmd).

(** *** doLoad *)

Definition checkDevTree (argv : list string) : M unit :=
  dt ← ask (fun e => stat_ok e "/proc/device-tree");
  if dt : bool
  then fail_with
         (arg argv 0 +:+ ": Unable to load/unload modules as this Pi has the device tree enabled." +:+ nl +:+
          "  You need to run the raspi-config program (as root) and select the" +:+ nl +:+
          "  modules (SPI or I2C) that you wish to load/unload there and reboot." +:+ nl)
         EXIT_FAILURE
  else skip.

Definition _doLoadUsage {A} (argv : list string) : M A :=
  fail_with ("Usage: " +:+ arg argv 0 +:+ " load <spi/i2c>[I2C baudrate in Kb/sec]" +:+ nl)
            EXIT_FAILURE.

Record LoadPlan := {
  module1 : string; module2 : string; file1 : string; file2 : string;
  args1 : string; args2 : string
}.

Definition doLoad (argc : Z) (argv : list string) : M unit :=
  checkDevTree argv;;
  (if argc <? 3 then _doLoadUsage argv else skip);;
  plan ←
    (if strcaseeq (arg argv 2) "spi" then
       (if argc =? 4
        then fail_with (arg argv 0 +:+
               ": Unable to set the buffer size now. Load aborted. Please see the man page." +:+ nl) 1
        else if 4 <? argc then _doLoadUsage argv else skip);;
       mret {| module1 := "spidev"; module2 := "spi_bcm2708";
               file1 := "/dev/spidev0.0"; file2 := "/dev/spidev0.1";
               args1 := ""; args2 := "" |}
     else if strcaseeq (arg argv 2) "i2c" then
       a2 ← (if argc =? 4
             then mret (" baudrate=" +:+ fmt_d (to_int (atoi (arg argv 3) * 1000)))
             else if 4 <? argc then _doLoadUsage argv else mret "");
       mret {| module1 := "i2c_dev"; module2 := "i2c_bcm2708";
               file1 := "/dev/i2c-0"; file2 := "/dev/i2c-1";
               args1 := ""; args2 := a2 |}
     else _doLoadUsage argv);
  probe ← findExecutable "modprobe";
  (if probe is None then printf ("No found" +:+ nl) else skip);;
  loaded1 ← moduleLoaded (module1 plan);
  (if negb loaded1
   then exe ← findExecutable MODPROBE;
        system (fmt_s exe +:+ " " +:+ module1 plan +:+ args1 plan);; skip
   else skip);;
  loaded2 ← moduleLoaded (module2 plan);
  (if negb loaded2
   then exe ← findExecutable MODPROBE;
        system (fmt_s exe +:+ " " +:+ module2 plan +:+ args2 plan);; skip
   else skip);;
  loaded2' ← moduleLoaded (module2 plan);
  (if negb loaded2'
   then fail_with (arg argv 0 +:+ ": Unable to load " +:+ module2 plan +:+ nl) 1
   else skip);;
  emit (Sleep 1);;
  changeOwner (arg argv 0) (file1 plan);;
  changeOwner (arg argv 0) (file2 plan).

(** *** doUnLoad *)

Definition _doUnLoadUsage {A} (argv : list string) : M A :=
  fail_with ("Usage: " +:+ arg argv 0 +:+ " unload <spi/i2c>" +:+ nl) 1.

Definition doUnLoad (argc : Z) (argv : list string) : M unit :=
  checkDevTree argv;;
  (if negb (argc =? 3) then _doUnLoadUsage argv else skip);;
  '(m1, m2) ←
    (if strcaseeq (arg argv 2) "spi" then mret ("spidev", "spi_bcm2708")
     else if strcaseeq (arg argv 2) "i2c" then mret ("i2c_dev", "i2c_bcm2708")
     else _doUnLoadUsage argv);
  loaded1 ← moduleLoaded m1;
  (if loaded1 : bool
   then exe ← findExecutable RMMOD; system (fmt_s exe +:+ " " +:+ m1);; skip
   else skip);;
  loaded2 ← moduleLoaded m2;
  (if loaded2 : bool
   then exe ← findExecutable RMMOD; system (fmt_s exe +:+ " " +:+ m2);; skip
   else skip).

(** *** doI2Cdetect *)

Definition doI2Cdetect (argc : Z) (argv : list string) : M unit :=
  call "piGpioLayout" [];;
  layout ← ask piGpioLayout_ret;
  let port := if layout =? 1 then 0 else 1 in
  c ← findExecutable I2CDETECT;
  match c with
  | None =>
      why ← ask (fun e => strerror_errno e I2CDETECT);
      eprintf (arg argv 0 +:+ ": Unable to find i2cdetect command: " +:+ why +:+ nl)
  | Some c =>
      loaded ← moduleLoaded "i2c_dev";
      if negb loaded
      then eprintf (arg argv 0 +:+ ": The I2C kernel module(s) are not loaded." +:+ nl)
      else
        status ← system (c +:+ " -y " +:+ fmt_d port);
        if status <? 0
        then why ← ask (fun e => strerror_errno e "system");
             eprintf (arg argv 0 +:+ ": Unable to run i2cdetect: " +:+ why +:+ nl)
        else skip
  end.

(** *** doExports *)

(** [char buf [16]] lies on the stack.  There is a cell for every offset
    from its start, so that the accesses gpio.c makes one cell outside the
    array ([buf [16]] after a full read, [buf [-1]] when the string is
    empty) have a reading. *)
Definition Mem : Type := Z -> ascii.

Definition poke (m : Mem) (i : Z) (c : ascii) : Mem :=
  fun j => if j =? i then c else m j.

Fixpoint poke_string (m : Mem) (i : Z) (s : string) : Mem :=
  match s with
  | EmptyString => m
  | String c r => poke_string (poke m i c) (i + 1) r
  end.

(** [strlen] from cell [i] on; a NUL is met within [fuel] cells. *)
Fixpoint mem_strlen (fuel : nat) (m : Mem) (i : Z) : Z :=
  match fuel with
  | O => 0
  | S f => if is_nul (m i) then 0 else 1 + mem_strlen f m (i + 1)
  end.

(** The C string that starts at cell [i]. *)
Fixpoint peek_string (fuel : nat) (m : Mem) (i : Z) : string :=
  match fuel with
  | O => EmptyString
  | S f => if is_nul (m i) then EmptyString else String (m i) (peek_string f m (i + 1))
  end.

(** The lines from [read] to the stripping of the newline.  [data] is what
    [read (fd, buf, 16)] delivered, so [l] is between 0 and 16 and
    [buf [l] = 0] ends the string within 17 cells. *)
Definition read_attribute (buf : Mem) (data : string) : Mem :=
  let l := Z.of_nat (String.length data) in
  let buf := poke_string buf 0 data in
  let buf := if l =? 0 then poke_string buf 0 (String "?" (String NUL "")) else buf in
  let buf := poke buf l NUL in
  let n := mem_strlen 17 buf 0 in
  if code (buf (n - 1)) =? 10 then poke buf (n - 1) NUL else buf.

(** What [printf ("%s", buf)] shows. *)
Definition shown (buf : Mem) : string := peek_string 17 buf 0.

Definition gpio_attr (pin : Z) (attr : string) : string :=
  "/sys/class/gpio/gpio" +:+ fmt_d pin +:+ "/" +:+ attr.

Fixpoint for_each {S : Type} (l : list Z) (body : Z -> S -> M S) (s : S) : M S :=
  match l with
  | [] => mret s
  | i :: rest => s' ← body i s; for_each rest body s'
  end.

Definition doExports_pin (i : Z) (locals : Z * Mem) : M (Z * Mem) :=
  let '(first, buf) := locals in
  direction ← open_read (gpio_attr i "direction") 16;
  match direction with
  | None => mret (first, buf)
  | Some data =>
      first ← (if first =? 0
               then printf ("GPIO Pins exported:" +:+ nl);; mret (first + 1)
               else mret first);
      printf (fmt_wd 4 i +:+ ": ");;
      let buf := read_attribute buf data in
      printf (pad_right 3 (shown buf));;
      value ← open_read (gpio_attr i "value") 16;
      match value with
      | None => printf ("No Value file (huh?)" +:+ nl);; mret (first, buf)
      | Some data =>
          let buf := read_attribute buf data in
          printf ("  " +:+ shown buf);;
          edge ← open_read (gpio_attr i "edge") 16;
          match edge with
          | None => printf nl;; mret (first, buf)
          | Some data =>
              let buf := read_attribute buf data in
              printf ("  " +:+ pad_right 8 (shown buf) +:+ nl);;
              mret (first, buf)
          end
      end
  end.

Definition doExports (argc : Z) (argv : list string) : M unit :=
  buf ← ask stack_garbage;
  for_each (seqZ 0 64) doExports_pin (0, buf);; skip.

(** *** doExport *)

Definition doExport (argc : Z) (argv : list string) : M unit :=
  (if negb (argc =? 4)
   then fail_with ("Usage: " +:+ arg argv 0 +:+ " export pin mode" +:+ nl) 1
   else skip);;
  let pin := atoi (arg argv 2) in
  let mode := arg argv 3 in
  opened ← fopen_w "/sys/class/gpio/export";
  (if negb opened
   then why ← ask (fun e => strerror_errno e "/sys/class/gpio/export");
        fail_with (arg argv 0 +:+ ": Unable to open GPIO export interface: " +:+ why +:+ nl) 1
   else skip);;
  fwrite "/sys/class/gpio/export" (fmt_d pin +:+ nl);;
  fclose "/sys/class/gpio/export";;
  let fName := gpio_attr pin "direction" in
  opened ← fopen_w fName;
  (if negb opened
   then why ← ask (fun e => strerror_errno e fName);
        fail_with (arg argv 0 +:+ ": Unable to open GPIO direction interface for pin "
                   +:+ fmt_d pin +:+ ": " +:+ why +:+ nl) 1
   else skip);;
  (if strcaseeq mode "in" || strcaseeq mode "input" then fwrite fName ("in" +:+ nl)
   else if strcaseeq mode "out" || strcaseeq mode "output" then fwrite fName ("out" +:+ nl)
   else if strcaseeq mode "high" || strcaseeq mode "up" then fwrite fName ("high" +:+ nl)
   else if strcaseeq mode "low" || strcaseeq mode "down" then fwrite fName ("low" +:+ nl)
   else fail_with (arg argv 1 +:+ ": Invalid mode: " +:+ mode
                   +:+ ". Should be in, out, high or low" +:+ nl) 1);;
  fclose fName;;
  changeOwner (arg argv 0) (gpio_attr pin "value");;
  changeOwner (arg argv 0) (gpio_attr pin "edge").

(** *** doEdge *)

Definition doEdge (argc : Z) (argv : list string) : M unit :=
  (if negb (argc =? 4)
   then fail_with ("Usage: " +:+ arg argv 0 +:+ " edge pin mode" +:+ nl) 1
   else skip);;
  let pin := atoi (arg argv 2) in
  let mode := arg argv 3 in
  opened ← fopen_w "/sys/class/gpio/export";
  (if negb opened
   then why ← ask (fun e => strerror_errno e "/sys/class/gpio/export");
        fail_with (arg argv 0 +:+ ": Unable to open GPIO export interface: " +:+ why +:+ nl) 1
   else skip);;
  fwrite "/sys/class/gpio/export" (fmt_d pin +:+ nl);;
  fclose "/sys/class/gpio/export";;
  let fName := gpio_attr pin "direction" in
  opened ← fopen_w fName;
  (if negb opened
   then why ← ask (fun e => strerror_errno e fName);
        fail_with (arg argv 0 +:+ ": Unable to open GPIO direction interface for pin "
                   +:+ fmt_d pin +:+ ": " +:+ why +:+ nl) 1
   else skip);;
  fwrite fName ("in" +:+ nl);;
  fclose fName;;
  let fName := gpio_attr pin "edge" in
  opened ← fopen_w fName;
  (if negb opened
   then why ← ask (fun e => strerror_errno e fName);
        fail_with (arg argv 0 +:+ ": Unable to open GPIO edge interface for pin "
                   +:+ fmt_d pin +:+ ": " +:+ why +:+ nl) 1
   else skip);;
  (if strcaseeq mode "none" then fwrite fName ("none" +:+ nl)
   else if strcaseeq mode "rising" then fwrite fName ("rising" +:+ nl)
   else if strcaseeq mode "falling" then fwrite fName ("falling" +:+ nl)
   else if strcaseeq mode "both" then fwrite fName ("both" +:+ nl)
   else fail_with (arg argv 1 +:+ ": Invalid mode: " +:+ mode
                   +:+ ". Should be none, rising, falling or both" +:+ nl) 1);;
  changeOwner (arg argv 0) (gpio_attr pin "value");;
  changeOwner (arg argv 0) (gpio_attr pin "edge");;
  fclose fName.

(** *** doUnexport, doUnexportall *)

Definition doUnexport (argc : Z) (argv : list string) : M unit :=
  (if negb (argc =? 3)
   then fail_with ("Usage: " +:+ arg argv 0 +:+ " unexport pin" +:+ nl) 1
   else skip);;
  let pin := atoi (arg argv 2) in
  opened ← fopen_w "/sys/class/gpio/unexport";
  (if negb opened
   then fail_with (arg argv 0 +:+ ": Unable to open GPIO export interface" +:+ nl) 1
   else skip);;
  fwrite "/sys/class/gpio/unexport" (fmt_d pin +:+ nl);;
  fclose "/sys/class/gpio/unexport".

Definition doUnexportall (progName : string) : M unit :=
  for_each (seqZ 0 63)
    (fun pin (_ : unit) =>
       opened ← fopen_w "/sys/class/gpio/unexport";
       (if negb opened
        then fail_with (progName +:+ ": Unable to open GPIO export interface" +:+ nl) 1
        else skip);;
       fwrite "/sys/class/gpio/unexport" (fmt_d pin +:+ nl);;
       fclose "/sys/class/gpio/unexport")
    tt.

(** *** doReset *)

Definition doReset (progName : string) : M unit :=
  printf ("GPIO Reset is dangerous and has been removed from the gpio command." +:+ nl);;
  printf (" - Please write a shell-script to reset the GPIO pins into the state" +:+ nl);;
  printf ("   that you need them in for your applications." +:+ nl).

Section Handlers.

Context {hdr : wiringPi_h}.

(** *** doWfi, doMWfi *)

(** [nInts] is a plain [int]; it is kept as an integer here, since the
    waiting loops stop long before it could overflow. *)
Definition wfi (pin : Z) : M unit :=
  modify (fun s => set_nInts (nInts s + 1) s);;
  n ← get nInts;
  printf ("wfi: Interrupt on pin " +:+ fmt_d pin +:+ "; nInts=" +:+ fmt_d n +:+ nl).

(** The interrupt thread of the library.  Once a callback is registered,
    the edges that the environment delivers in the next slot each run it;
    a slot passes wherever the main thread can be overtaken. *)
Definition interrupts (isr : Z -> M unit) : M unit :=
  k ← get irq_slot;
  pins ← ask (fun e => irq e k);
  modify (set_irq_slot (S k));;
  for_each pins (fun pin _ => isr pin) tt.

Definition delayMs (ms : Z) : M unit := emit (DelayMs ms).

Definition edge_mode (argv : list string) : M Z :=
  if strcaseeq (arg argv 3) "rising" then mret INT_EDGE_RISING
  else if strcaseeq (arg argv 3) "falling" then mret INT_EDGE_FALLING
  else if strcaseeq (arg argv 3) "both" then mret INT_EDGE_BOTH
  else fail_with (arg argv 1 +:+ ": wfi: Invalid mode: " +:+ arg argv 3
                  +:+ ". Should be rising, falling or both" +:+ nl) 1.

(** [while (nInts < n) delayMs (100);] *)
Fixpoint wait_interrupts (fuel : nat) (n : Z) : M unit :=
  seen ← get nInts;
  if seen <? n
  then match fuel with
       | O => out_of_fuel
       | S fuel' => delayMs 100;; interrupts wfi;; wait_interrupts fuel' n
       end
  else skip.

Definition doWfi (fuel : nat) (argc : Z) (argv : list string) : M unit :=
  (if negb (argc =? 4)
   then fail_with ("Usage: " +:+ arg argv 0 +:+ " wfi pin mode" +:+ nl) 1
   else skip);;
  let pin := atoi (arg argv 2) in
  mode ← edge_mode argv;
  call "wiringPiISR" [pin; mode];;
  r ← ask wiringPiISR_ret;
  (if r <? 0
   then why ← ask (fun e => strerror_errno e "wiringPiISR");
        fail_with (arg argv 1 +:+ ": wfi: Unable to setup ISR: " +:+ why +:+ nl) 1
   else skip);;
  interrupts wfi;;
  modify (set_nInts 0);;
  printf ("doWfi: Wait for one interrupt..." +:+ nl);;
  interrupts wfi;;
  wait_interrupts fuel 1.

Definition doMWfi (fuel : nat) (argc : Z) (argv : list string) : M unit :=
  (if negb (argc =? 4)
   then fail_with ("Usage: " +:+ arg argv 0 +:+ " mwfi pin[,pin...] mode" +:+ nl) 1
   else skip);;
  let pinList := map atoi (strtok_all (arg argv 2) ",") in
  let n_pins := Z.of_nat (length pinList) in
  (if MAX_ONBOARD_PINS <? n_pins then undefined else skip);;
  mode ← edge_mode argv;
  call "wiringPiISRmulti" (n_pins :: mode :: pinList);;
  r ← ask wiringPiISRmulti_ret;
  (if r <? 0
   then why ← ask (fun e => strerror_errno e "wiringPiISRmulti");
        fail_with (arg argv 1 +:+ ": wfi: Unable to setup ISR: " +:+ why +:+ nl) 1
   else skip);;
  interrupts wfi;;
  modify (set_nInts 0);;
  printf ("doMWfi: Wait for " +:+ fmt_d n_pins +:+ " interrupts..." +:+ nl);;
  interrupts wfi;;
  wait_interrupts fuel n_pins.

(** *** doMode *)

Definition doMode (argc : Z) (argv : list string) : M unit :=
  (if negb (argc =? 4)
   then fail_with ("Usage: " +:+ arg argv 0 +:+ " mode pin mode" +:+ nl) 1
   else skip);;
  let pin := atoi (arg argv 2) in
  let mode := arg argv 3 in
  if strcaseeq mode "in" then call "pinMode" [pin; INPUT]
  else if strcaseeq mode "input" then call "pinMode" [pin; INPUT]
  else if strcaseeq mode "out" then call "pinMode" [pin; OUTPUT]
  else if strcaseeq mode "output" then call "pinMode" [pin; OUTPUT]
  else if strcaseeq mode "pwm" then call "pinMode" [pin; PWM_OUTPUT]
  else if strcaseeq mode "pwmTone" then call "pinMode" [pin; PWM_TONE_OUTPUT]
  else if strcaseeq mode "clock" then call "pinMode" [pin; GPIO_CLOCK]
  else if strcaseeq mode "up" then call "pullUpDnControl" [pin; PUD_UP]
  else if strcaseeq mode "down" then call "pullUpDnControl" [pin; PUD_DOWN]
  else if strcaseeq mode "tri" then call "pullUpDnControl" [pin; PUD_OFF]
  else if strcaseeq mode "off" then call "pullUpDnControl" [pin; PUD_OFF]
  else if strcaseeq mode "alt0" then call "pinModeAlt" [pin; 4]
  else if strcaseeq mode "alt1" then call "pinModeAlt" [pin; 5]
  else if strcaseeq mode "alt2" then call "pinModeAlt" [pin; 6]
  else if strcaseeq mode "alt3" then call "pinModeAlt" [pin; 7]
  else if strcaseeq mode "alt4" then call "pinModeAlt" [pin; 3]
  else if strcaseeq mode "alt5" then call "pinModeAlt" [pin; 2]
  else fail_with (arg argv 1 +:+ ": Invalid mode: " +:+ mode
                  +:+ ". Should be in/out/pwm/clock/up/down/tri" +:+ nl) 1.

(** *** doPadDrive *)

Definition doPadDrive (argc : Z) (argv : list string) : M unit :=
  (if negb (argc =? 4)
   then fail_with ("Usage: " +:+ arg argv 0 +:+ " drive group value" +:+ nl) 1
   else skip);;
  let group := atoi (arg argv 2) in
  let val := atoi (arg argv 3) in
  (if (group <? 0) || (2 <? group)
   then fail_with (arg argv 0 +:+ ": drive group not 0, 1 or 2: " +:+ fmt_d group +:+ nl) 1
   else skip);;
  (if (val <? 0) || (7 <? val)
   then fail_with (arg argv 0 +:+ ": drive value not 0-7: " +:+ fmt_d val +:+ nl) 1
   else skip);;
  call "setPadDrive" [group; val].

(** *** doUsbP *)

Definition doUsbP (argc : Z) (argv : list string) : M unit :=
  (if negb (argc =? 3)
   then fail_with ("Usage: " +:+ arg argv 0 +:+ " usbp high|low" +:+ nl) 1
   else skip);;
  call "piBoardId" [];;
  board ← ask piBoardId_ret;
  (if negb ((b_model board =? PI_MODEL_BP) || (b_model board =? PI_MODEL_2B))
   then fail_with ("USB power contol is applicable to B+ and v2 boards only." +:+ nl) 1
   else skip);;
  call "wiringPiSetupGpio" [];;
  if strcaseeq (arg argv 2) "high" || strcaseeq (arg argv 2) "hi" then
    call "digitalWrite" [PI_USB_POWER_CONTROL; 1];;
    call "pinMode" [PI_USB_POWER_CONTROL; OUTPUT];;
    printf ("Switched to HIGH current USB (1.2A)" +:+ nl)
  else if strcaseeq (arg argv 2) "low" || strcaseeq (arg argv 2) "lo" then
    call "digitalWrite" [PI_USB_POWER_CONTROL; 0];;
    call "pinMode" [PI_USB_POWER_CONTROL; OUTPUT];;
    printf ("Switched to LOW current USB (600mA)" +:+ nl)
  else fail_with ("Usage: " +:+ arg argv 0 +:+ " usbp high|low" +:+ nl) 1.

(** *** doWrite *)

Definition doWrite (argc : Z) (argv : list string) : M unit :=
  (if negb (argc =? 4)
   then fail_with ("Usage: " +:+ arg argv 0 +:+ " write pin value" +:+ nl) 1
   else skip);;
  let pin := atoi (arg argv 2) in
  let val :=
    if strcaseeq (arg argv 3) "up" || strcaseeq (arg argv 3) "on" then 1
    else if strcaseeq (arg argv 3) "down" || strcaseeq (arg argv 3) "off" then 0
    else atoi (arg argv 3) in
  if val =? 0
  then call "digitalWrite" [pin; LOW]
  else call "digitalWrite" [pin; HIGH].

(** *** doAwrite, doWriteByte, doReadByte *)

Definition doAwrite (argc : Z) (argv : list string) : M unit :=
  (if negb (argc =? 4)
   then fail_with ("Usage: " +:+ arg argv 0 +:+ " awrite pin value" +:+ nl) 1
   else skip);;
  let pin := atoi (arg argv 2) in
  let val := atoi (arg argv 3) in
  call "analogWrite" [pin; val].

Definition doWriteByte (argc : Z) (argv : list string) : M unit :=
  (if negb (argc =? 3)
   then fail_with ("Usage: " +:+ arg argv 0 +:+ " wb value" +:+ nl) 1
   else skip);;
  let val := to_int (strtol (arg argv 2) 0) in
  call "digitalWriteByte" [val].

Definition doReadByte (argc : Z) (argv : list string) (printHex : bool) : M unit :=
  (if negb (argc =? 2)
   then fail_with ("Usage: " +:+ arg argv 0 +:+ " rbx|rbd" +:+ nl) 1
   else skip);;
  call "digitalReadByte" [];;
  val ← ask (fun e => to_int (digitalReadByte_ret e));
  if printHex
  then printf (fmt_0wX 2 val +:+ nl)
  else printf (fmt_d val +:+ nl).

(** *** doRead, doBank, doAread *)

Definition digitalRead (pin : Z) : M Z :=
  call "digitalRead" [pin];;
  t ← get trace;
  ask (fun e => digitalRead_ret e t pin).

Definition doRead (argc : Z) (argv : list string) : M unit :=
  (if negb (argc =? 3)
   then fail_with ("Usage: " +:+ arg argv 0 +:+ " read pin" +:+ nl) 1
   else skip);;
  let pin := atoi (arg argv 2) in
  val ← digitalRead pin;
  printf ((if val =? 0 then "0" else "1") +:+ nl).

Definition doBank (argc : Z) (argv : list string) : M unit :=
  (if negb (argc =? 3)
   then fail_with ("Usage: " +:+ arg argv 0 +:+ " bank <bank#>" +:+ nl) 1
   else skip);;
  let bank := atoi (arg argv 2) in
  (if 1 <? bank
   then eprintf ("Bad bank number. Must be 0 or 1." +:+ nl);;
        fail_with ("Usage: " +:+ arg argv 0 +:+ " bank <bank#>" +:+ nl) 1
   else skip);;
  call "digitalReadBank" [bank];;
  bankVal ← ask (fun e => to_uint (digitalReadBank_ret e bank));
  printf ("0x" +:+ fmt_0wX 8 bankVal +:+ nl).

Definition doAread (argc : Z) (argv : list string) : M unit :=
  (if negb (argc =? 3)
   then fail_with ("Usage: " +:+ arg argv 0 +:+ " aread pin" +:+ nl) 1
   else skip);;
  call "analogRead" [atoi (arg argv 2)];;
  v ← ask (fun e => analogRead_ret e (atoi (arg argv 2)));
  printf (fmt_d v +:+ nl).

(** *** doToggle, doBlink *)

Definition doToggle (argc : Z) (argv : list string) : M unit :=
  (if negb (argc =? 3)
   then fail_with ("Usage: " +:+ arg argv 0 +:+ " toggle pin" +:+ nl) 1
   else skip);;
  let pin := atoi (arg argv 2) in
  v ← digitalRead pin;
  call "digitalWrite" [pin; if v =? 0 then 1 else 0].

(** [for (;;) { ... }] *)
Fixpoint forever (fuel : nat) (body : M unit) : M unit :=
  match fuel with
  | O => out_of_fuel
  | S fuel' => body;; forever fuel' body
  end.

Definition doBlink (fuel : nat) (argc : Z) (argv : list string) : M unit :=
  (if negb (argc =? 3)
   then fail_with ("Usage: " +:+ arg argv 0 +:+ " blink pin" +:+ nl) 1
   else skip);;
  let pin := atoi (arg argv 2) in
  call "pinMode" [pin; OUTPUT];;
  forever fuel
    (v ← digitalRead pin;
     call "digitalWrite" [pin; if v =? 0 then 1 else 0];;
     delayMs 500).

(** *** doPwmTone, doClock, doPwm *)

Definition doPwmTone (argc : Z) (argv : list string) : M unit :=
  (if negb (argc =? 4)
   then fail_with ("Usage: " +:+ arg argv 0 +:+ " pwmTone <pin> <freq>" +:+ nl) 1
   else skip);;
  let pin := atoi (arg argv 2) in
  let freq := atoi (arg argv 3) in
  call "pwmToneWrite" [pin; freq].

Definition doClock (argc : Z) (argv : list string) : M unit :=
  (if negb (argc =? 4)
   then fail_with ("Usage: " +:+ arg argv 0 +:+ " clock <pin> <freq>" +:+ nl) 1
   else skip);;
  let pin := atoi (arg argv 2) in
  let freq := atoi (arg argv 3) in
  call "gpioClockSet" [pin; freq].

Definition doPwm (argc : Z) (argv : list string) : M unit :=
  (if negb (argc =? 4)
   then fail_with ("Usage: " +:+ arg argv 0 +:+ " pwm <pin> <value>" +:+ nl) 1
   else skip);;
  let pin := atoi (arg argv 2) in
  let val := atoi (arg argv 3) in
  call "pwmWrite" [pin; val].

(** *** doPwmMode, doPwmRange, doPwmClock *)

Definition doPwmMode (mode : Z) : M unit := call "pwmSetMode" [mode].

Definition doPwmRange (argc : Z) (argv : list string) : M unit :=
  (if negb (argc =? 3)
   then fail_with ("Usage: " +:+ arg argv 0 +:+ " pwmr <range>" +:+ nl) 1
   else skip);;
  let range := to_uint (strtoul (arg argv 2) 10) in
  (if range =? 0
   then fail_with (arg argv 0 +:+ ": range must be > 0" +:+ nl) 1
   else skip);;
  call "pwmSetRange" [range].

Definition doPwmClock (argc : Z) (argv : list string) : M unit :=
  (if negb (argc =? 3)
   then fail_with ("Usage: " +:+ arg argv 0 +:+ " pwmc <clock>" +:+ nl) 1
   else skip);;
  let clock := to_uint (strtoul (arg argv 2) 10) in
  (if (clock <? 1) || (4095 <? clock)
   then fail_with (arg argv 0 +:+ ": clock must be between 0 and 4096" +:+ nl) 1
   else skip);;
  call "pwmSetClock" [clock].

(** *** doVersion *)

Definition doVersion (argv : list string) : M unit :=
  call "wiringPiVersion" [];;
  '(vMaj, vMin) ← ask wiringPiVersion_ret;
  printf nl;;
  printf ("gpio version: " +:+ fmt_d vMaj +:+ "." +:+ fmt_d vMin +:+ nl);;
  printf ("Copyright (c) 2012-2018 Gordon Henderson" +:+ nl);;
  printf ("This is free software with ABSOLUTELY NO WARRANTY." +:+ nl);;
  printf ("For details type: " +:+ dquote +:+ basename (arg argv 0)
          +:+ " -warranty" +:+ dquote +:+ nl);;
  printf nl;;
  call "piBoardId" [];;
  b ← ask piBoardId_ret;
  names ← ask (fun e =>
    "  Type     : " +:+ piModelNames e (b_model b) +:+ nl +:+
    "  Processor: " +:+ piProcessorNames e (b_proc b) +:+ nl +:+
    "  Revision : " +:+ piRevisionNames e (b_rev b) +:+ nl +:+
    "  Memory   : " +:+ piMemorySize e (b_mem b) +:+ nl +:+
    "  Maker    : " +:+ piMakerNames e (b_maker b) +:+ nl);
  printf ("Raspberry Pi Details" +:+ nl +:+
          "  Revision string: 0x" +:+ fmt_0wX 8 (b_fullRev b) +:+ nl +:+
          names +:+
          "  " +:+ (if b_warranty b =? 0 then "" else "[Out of Warranty]" +:+ nl) +:+ nl);;
  devtree ← ask (fun e => stat_ok e "/proc/device-tree");
  when devtree (printf ("  * Device tree is enabled." +:+ nl));;
  model ← ask (fun e => stat_ok e "/proc/device-tree/model");
  (if model : bool
   then fd ← get (fun s => files s !! "/proc/device-tree/model");
        match fd with
        | Some content =>
            garbage ← ask stack_garbage;
            let name := if String.eqb content ""
                        then peek_string 80 garbage 0
                        else c_str (fgets 79 content) in
            printf ("  * Model string: " +:+ dquote +:+ name +:+ dquote +:+ nl)
        | None => skip
        end
   else skip);;
  gpiomem ← ask (fun e => stat_ok e "/dev/gpiomem");
  (if gpiomem : bool
   then printf ("  * This Raspberry Pi supports user-level GPIO access." +:+ nl)
   else printf ("  * Root or sudo required for GPIO access." +:+ nl));;
  printf nl.

(** *** main *)

Definition assign_wpMode (v : Z) : M unit :=
  emit (Assign_wpMode v);; modify (set_wpMode v).

(** [for (i = k + 1; i < argc; ++i) argv [i - k] = argv [i];] *)
Definition shift_down (k : nat) (argc : Z) (argv : list string) : list string :=
  foldl (fun a i => <[(i - k)%nat := arg a i]> a) argv
        (seq (S k) (Z.to_nat argc - S k)).

Definition is_help (a : string) : bool :=
  strcaseeq a "h" || strcaseeq a "-h" || strcaseeq a "-help"
  || strcaseeq a "--help" || strcaseeq a "help".

Definition warranty : M unit :=
  printf ("gpio version: " +:+ VERSION +:+ nl);;
  printf ("Copyright (c) 2012-2025 Gordon Henderson et al" +:+ nl);;
  printf nl;;
  printf ("    This program is free software; you can redistribute it and/or modify" +:+ nl);;
  printf ("    it under the terms of the GNU Leser General Public License as published" +:+ nl);;
  printf ("    by the Free Software Foundation, either version 3 of the License, or" +:+ nl);;
  printf ("    (at your option) any later version." +:+ nl);;
  printf nl;;
  printf ("    This program is distributed in the hope that it will be useful," +:+ nl);;
  printf ("    but WITHOUT ANY WARRANTY; without even the implied warranty of" +:+ nl);;
  printf ("    MERCHANTABILITY or FITNESS FOR A PARTICULAR PURPOSE.  See the" +:+ nl);;
  printf ("    GNU Lesser General Public License for more details." +:+ nl);;
  printf nl;;
  printf ("    You should have received a copy of the GNU Lesser General Public License" +:+ nl);;
  printf ("    along with this program. If not, see <http://www.gnu.org/licenses/>." +:+ nl);;
  printf nl.

(** Lines 1375 to 1422: the numbering scheme.  The chain that tests [-b]
    and [-p] ends before the test for [-w]; a second chain tests [-w] and
    [-z] and ends in the default. *)
Definition numbering (argc : Z) (argv : list string) : M (Z * list string) :=
  '(argc, argv) ←
    (if strcaseeq (arg argv 1) "-b" then
       call "wiringPiSetupGpio" [];;
       let argv' := shift_down 1 argc argv in
       assign_wpMode WPI_MODE_GPIO;;
       mret (argc - 1, argv')
     else if strcaseeq (arg argv 1) "-p" then
       call "wiringPiSetupPhys" [];;
       let argv' := shift_down 1 argc argv in
       assign_wpMode WPI_MODE_PHYS;;
       mret (argc - 1, argv')
     else mret (argc, argv));
  if strcaseeq (arg argv 1) "-w" then
    call "wiringPiSetup" [];;
    let argv' := shift_down 1 argc argv in
    assign_wpMode WPI_MODE_PINS;;
    mret (argc - 1, argv')
  else if strcaseeq (arg argv 1) "-z" then
    let argv' := shift_down 1 argc argv in
    assign_wpMode WPI_MODE_UNINITIALISED;;
    mret (argc - 1, argv')
  else
    call "wiringPiSetupGpio" [];;
    assign_wpMode WPI_MODE_GPIO;;
    mret (argc, argv).

(** [while (strcasecmp (argv [1], "-x") == 0) { ... }]; every round needs
    [argc >= 3] and takes 2 from it, so [argc] rounds are more than enough. *)
Fixpoint extensions (rounds : nat) (argc : Z) (argv : list string)
  : M (Z * list string) :=
  if strcaseeq (arg argv 1) "-x" then
    match rounds with
    | O => out_of_fuel
    | S rounds' =>
        (if argc <? 3
         then fail_with (arg argv 0 +:+ ": -x missing extension command." +:+ nl)
                        EXIT_FAILURE
         else skip);;
        emit (CallExt "loadWPiExtension" [arg argv 0; arg argv 2]);;
        ok ← ask (fun e => loadWPiExtension_ret e (arg argv 2));
        (if negb ok
         then why ← ask (fun e => strerror_errno e "loadWPiExtension");
              fail_with (arg argv 0 +:+ ": Extension load failed: " +:+ why +:+ nl)
                        EXIT_FAILURE
         else skip);;
        extensions rounds' (argc - 2) (shift_down 2 argc argv)
    end
  else mret (argc, argv).

(** The table of core commands, lines 1453 to 1490. *)
Definition core (fuel : nat) (argc : Z) (argv : list string) : M unit :=
  let cmd := arg argv 1 in
  if strcaseeq cmd "mode" then doMode argc argv
  else if strcaseeq cmd "read" then doRead argc argv
  else if strcaseeq cmd "bank" then doBank argc argv
  else if strcaseeq cmd "write" then doWrite argc argv
  else if strcaseeq cmd "pwm" then doPwm argc argv
  else if strcaseeq cmd "awrite" then doAwrite argc argv
  else if strcaseeq cmd "aread" then doAread argc argv
  else if strcaseeq cmd "toggle" then doToggle argc argv
  else if strcaseeq cmd "blink" then doBlink fuel argc argv
  else if strcaseeq cmd "pwm-bal" then doPwmMode PWM_MODE_BAL
  else if strcaseeq cmd "pwm-ms" then doPwmMode PWM_MODE_MS
  else if strcaseeq cmd "pwmr" then doPwmRange argc argv
  else if strcaseeq cmd "pwmc" then doPwmClock argc argv
  else if strcaseeq cmd "pwmTone" then doPwmTone argc argv
  else if strcaseeq cmd "drive" then doPadDrive argc argv
  else if strcaseeq cmd "readall" then emit (CallExt "doReadall" [])
  else if strcaseeq cmd "nreadall" then emit (CallExt "doReadall" [])
  else if strcaseeq cmd "pins" then emit (CallExt "doReadall" [])
  else if strcaseeq cmd "qmode" then emit (CallExt "doQmode" (take (Z.to_nat argc) argv))
  else if strcaseeq cmd "i2cdetect" then doI2Cdetect argc argv
  else if strcaseeq cmd "i2cd" then doI2Cdetect argc argv
  else if strcaseeq cmd "reset" then doReset (arg argv 0)
  else if strcaseeq cmd "wb" then doWriteByte argc argv
  else if strcaseeq cmd "rbx" then doReadByte argc argv true
  else if strcaseeq cmd "rbd" then doReadByte argc argv false
  else if strcaseeq cmd "clock" then doClock argc argv
  else if strcaseeq cmd "wfi" then doWfi fuel argc argv
  else if strcaseeq cmd "mwfi" then doMWfi fuel argc argv
  else fail_with ("[FATAL] " +:+ basename (arg argv 0) +:+ ": Unknown command: "
                  +:+ cmd +:+ "." +:+ nl) EXIT_FAILURE.

(** After the privilege check: the commands that are served before the
    numbering scheme is chosen, then the scheme, the extensions and the
    core command. *)
Definition dispatch (fuel : nat) (argc : Z) (argv : list string) : M Z :=
  let cmd := arg argv 1 in
  if strcaseeq cmd "exports" then doExports argc argv;; mret 0
  else if strcaseeq cmd "export" then doExport argc argv;; mret 0
  else if strcaseeq cmd "edge" then doEdge argc argv;; mret 0
  else if strcaseeq cmd "unexport" then doUnexport argc argv;; mret 0
  else if strcaseeq cmd "unexportall" then doUnexportall (arg argv 0);; mret 0
  else if strcaseeq cmd "load" then doLoad argc argv;; mret 0
  else if strcaseeq cmd "unload" then doUnLoad argc argv;; mret 0
  else if strcaseeq cmd "usbp" then doUsbP argc argv;; mret 0
  else if strcaseeq cmd "allreadall" then
    call "wiringPiSetupGpio" [];;
    emit (CallExt "doAllReadall" []);;
    mret 0
  else
    '(argc, argv) ← numbering argc argv;
    '(argc, argv) ← extensions (Z.to_nat argc) argc argv;
    (if argc <=? 1
     then fail_with ("[FATAL] " +:+ basename (arg argv 0) +:+ ": no command given" +:+ nl)
                    EXIT_FAILURE
     else skip);;
    core fuel argc argv;;
    mret EXIT_SUCCESS.

(** [if (getenv ("WIRINGPI_DEBUG") != NULL) { ... }] *)
Definition debug_mode : M unit :=
  debug ← ask getenv_WIRINGPI_DEBUG;
  if debug : bool
  then printf ("gpio: wiringPi debug mode enabled" +:+ nl);;
       modify (set_wiringPiDebug true)
  else skip.

Definition main (fuel : nat) (argc : Z) (argv : list string) : M Z :=
  debug_mode;;
  (if argc =? 1
   then fail_with (basename (arg argv 0) +:+ ":" +:+ nl +:+
                   "  Format: gpio -h for full details and" +:+ nl +:+
                   "          gpio readall for a quick printout of your connector details" +:+ nl)
                  EXIT_FAILURE
   else skip);;
  (if is_help (arg argv 1)
   then printf (usage +:+ nl);; exit EXIT_SUCCESS
   else skip);;
  (if streq (arg argv 1) "-v"
   then doVersion argv;; exit EXIT_SUCCESS
   else skip);;
  (if strcaseeq (arg argv 1) "-warranty"
   then warranty;; exit EXIT_SUCCESS
   else skip);;
  euid ← ask geteuid;
  (if negb (euid =? 0)
   then fail_with (arg argv 0 +:+
          ": Must be root to run. Program should be suid root. This is an error." +:+ nl)
          EXIT_FAILURE
   else skip);;
  dispatch fuel argc argv.

(** The command words of [main], each with what runs for it: the words
    served before a numbering scheme is chosen, and the core commands. *)
Definition early_commands : list (string * (Z -> list string -> M unit)) :=
  [("exports", doExports); ("export", doExport); ("edge", doEdge);
   ("unexport", doUnexport);
   ("unexportall", fun _ argv => doUnexportall (arg argv 0));
   ("load", doLoad); ("unload", doUnLoad); ("usbp", doUsbP);
   ("allreadall", fun _ _ => call "wiringPiSetupGpio" [];;
                             emit (CallExt "doAllReadall" []))].

Definition core_commands (fuel : nat)
  : list (string * (Z -> list string -> M unit)) :=
  [("mode", doMode); ("read", doRead); ("bank", doBank); ("write", doWrite);
   ("pwm", doPwm); ("awrite", doAwrite); ("aread", doAread);
   ("toggle", doToggle); ("blink", doBlink fuel);
   ("pwm-bal", fun _ _ => doPwmMode PWM_MODE_BAL);
   ("pwm-ms", fun _ _ => doPwmMode PWM_MODE_MS);
   ("pwmr", doPwmRange); ("pwmc", doPwmClock); ("pwmTone", doPwmTone);
   ("drive", doPadDrive);
   ("readall", fun _ _ => emit (CallExt "doReadall" []));
   ("nreadall", fun _ _ => emit (CallExt "doReadall" []));
   ("pins", fun _ _ => emit (CallExt "doReadall" []));
   ("qmode", fun argc argv => emit (CallExt "doQmode" (take (Z.to_nat argc) argv)));
   ("i2cdetect", doI2Cdetect); ("i2cd", doI2Cdetect);
   ("reset", fun _ argv => doReset (arg argv 0));
   ("wb", doWriteByte);
   ("rbx", fun argc argv => doReadByte argc argv true);
   ("rbd", fun argc argv => doReadByte argc argv false);
   ("clock", doClock); ("wfi", doWfi fuel); ("mwfi", doMWfi fuel)].

Definition help_words : list string := ["h"; "-h"; "-help"; "--help"; "help"].

(** A table read the way [main] reads its chain of comparisons: the first
    entry whose name has the folded text [w]. *)
Fixpoint lookup_word {H : Type} (w : string) (table : list (string * H))
  : option H :=
  match table with
  | [] => None
  | (name, h) :: rest =>
      if String.eqb w (casefold name) then Some h else lookup_word w rest
  end.

(** The words [main] tests after the privilege check and before it looks at
    the core commands. *)
Definition words_before_core : list string :=
  ["exports"; "export"; "edge"; "unexport"; "unexportall"; "load"; "unload";
   "usbp"; "allreadall"; "-b"; "-p"; "-w"; "-z"; "-x"].

End Handlers.

(** ** A concrete board, for running the program *)

(** The values of wiringPi.h as shipped with the library. *)
Definition pi_header : wiringPi_h := {|
  LOW := 0; HIGH := 1;
  INPUT := 0; OUTPUT := 1; PWM_OUTPUT := 2; PWM_TONE_OUTPUT := 6; GPIO_CLOCK := 3;
  PUD_OFF := 0; PUD_DOWN := 1; PUD_UP := 2;
  PWM_MODE_MS := 0; PWM_MODE_BAL := 1;
  INT_EDGE_FALLING := 1; INT_EDGE_RISING := 2; INT_EDGE_BOTH := 3;
  WPI_MODE_PINS := 0; WPI_MODE_GPIO := 1; WPI_MODE_PHYS := 3;
  WPI_MODE_UNINITIALISED := -1;
  PI_MODEL_BP := 3; PI_MODEL_2B := 4;
  MAX_ONBOARD_PINS := 64;
  VERSION := "3.16"
|}.

(** A root shell on a Pi without device tree and without [modprobe]; every
    file can be opened, every library call succeeds, and from the third
    interrupt slot on one edge arrives on pin 17 in every slot. *)
Definition pi_env : Env := {|
  getenv_WIRINGPI_DEBUG := false;
  geteuid := 0; getuid := 1000; getgid := 1000;
  stat_ok := fun _ => false;
  fopen_w_ok := fun _ => true;
  strerror_errno := fun _ => "No such file or directory";
  chown_result := fun _ => ChownOk;
  system_status := fun _ => 0;
  system_modules := fun _ m => m;
  stack_garbage := fun _ => "x"%char;
  digitalRead_ret := fun _ _ => 0;
  analogRead_ret := fun _ => 0;
  digitalReadBank_ret := fun _ => 255;
  digitalReadByte_ret := 60;
  wiringPiISR_ret := 0;
  wiringPiISRmulti_ret := 0;
  loadWPiExtension_ret := fun _ => true;
  piGpioLayout_ret := 2;
  piBoardId_ret := {| b_fullRev := 10494082; b_model := 8; b_proc := 2;
                      b_rev := 2; b_mem := 2; b_maker := 0; b_warranty := 0 |};
  wiringPiVersion_ret := (3, 16);
  piModelNames := fun _ => "Pi 3";
  piProcessorNames := fun _ => "BCM2837";
  piRevisionNames := fun _ => "02";
  piMemorySize := fun _ => "1024MB";
  piMakerNames := fun _ => "Sony";
  irq := fun k => if (k <? 3)%nat then [] else [17]
|}.

(** The process at its start: pin 4 is exported as an output, both SPI
    modules are loaded, the globals are zero. *)
Definition boot : State := {|
  files := {[ "/sys/class/gpio/gpio4/direction" := "out" +:+ nl ]};
  modules := Some ["spidev 20480 0" +:+ nl; "spi_bcm2708 16384 0" +:+ nl];
  wpMode := 0; nInts := 0; wiringPiDebug := false; irq_slot := 0; trace := []
|}.

(** The same, with pin 7 exported and a direction file that reads as zero
    bytes. *)
Definition boot_blank_pin : State :=
  set_files {[ "/sys/class/gpio/gpio7/direction" := "" ]} boot.

(** ** Vocabulary of the statements *)

(** The events a run adds to the trace. *)
Definition new_events {A} (m : M A) (e : Env) (s : State) : list Event :=
  drop (length (trace s)) (trace (m e s).2).

(** The mode words of [gpio export] and what each writes. *)
Definition direction_aliases : list (string * string) :=
  [("in", "in"); ("input", "in"); ("out", "out"); ("output", "out");
   ("high", "high"); ("up", "high"); ("low", "low"); ("down", "low")].

(** The mode words of [gpio edge]. *)
Definition edge_tokens : list string := ["none"; "rising"; "falling"; "both"].

(** The number of edges the environment delivers in the [n] slots from
    slot [k] on. *)
Fixpoint delivered (e : Env) (k : nat) (n : nat) : Z :=
  match n with
  | O => 0
  | S n' => Z.of_nat (length (irq e k)) + delivered e (S k) n'
  end.

Definition is_write_to (path : string) (ev : Event) : bool :=
  match ev with
  | FileWrite p _ => String.eqb p path
  | _ => false
  end.

Definition is_file_write (ev : Event) : bool :=
  match ev with
  | FileWrite _ _ => true
  | _ => false
  end.

Definition is_delay (ev : Event) : bool :=
  match ev with
  | DelayMs _ => true
  | _ => false
  end.

Definition is_call_to (fn : string) (ev : Event) : bool :=
  match ev with
  | Call f _ => String.eqb f fn
  | _ => false
  end.

(** ** Vocabulary of the further statements *)

Definition is_system (ev : Event) : bool :=
  match ev with
  | System _ => true
  | _ => false
  end.

Definition is_call (ev : Event) : bool :=
  match ev with
  | Call _ _ => true
  | _ => false
  end.

(** The path [findExecutable] builds for a directory. *)
Definition in_dir (dir progName : string) : string := dir +:+ "/" +:+ progName.

(** [line] starts with the C string [name]. *)
Definition starts_with (name line : string) : Prop :=
  exists rest, c_str line = c_str name +:+ rest.

Fixpoint has_newline (text : string) : bool :=
  match text with
  | EmptyString => false
  | String c r => (code c =? 10) || has_newline r
  end.

(** A line that [fgets (line, 80, fd)] reads in one piece: at most 78
    characters and the newline. *)
Definition short_line (line : string) : Prop :=
  exists body, line = body +:+ nl /\ has_newline body = false
               /\ (String.length body <= 78)%nat.

Definition unexport_path : string := "/sys/class/gpio/unexport".

(** The state with other files. *)
Definition no_files (s : State) : State := set_files ∅ s.

Definition is_stdout (ev : Event) : bool :=
  match ev with
  | Stdout _ => true
  | _ => false
  end.

(** What [main] prints first when [WIRINGPI_DEBUG] is set. *)
Definition debug_note (e : Env) : list Event :=
  if getenv_WIRINGPI_DEBUG e
  then [Stdout ("gpio: wiringPi debug mode enabled" +:+ nl)] else [].

(** A computation that, when it ends the process, does so with exit
    code 1. *)
Definition exits_with_1 {A} (m : M A) : Prop :=
  forall e s, match (m e s).1 with Exit c => c = 1 | _ => True end.

(** An environment that differs in one answer. *)
Definition with_geteuid (v : Z) (e : Env) : Env :=
  {| getenv_WIRINGPI_DEBUG := getenv_WIRINGPI_DEBUG e; geteuid := v;
     getuid := getuid e; getgid := getgid e; stat_ok := stat_ok e;
     fopen_w_ok := fopen_w_ok e; strerror_errno := strerror_errno e;
     chown_result := chown_result e; system_status := system_status e;
     system_modules := system_modules e; stack_garbage := stack_garbage e;
     digitalRead_ret := digitalRead_ret e; analogRead_ret := analogRead_ret e;
     digitalReadBank_ret := digitalReadBank_ret e;
     digitalReadByte_ret := digitalReadByte_ret e;
     wiringPiISR_ret := wiringPiISR_ret e;
     wiringPiISRmulti_ret := wiringPiISRmulti_ret e;
     loadWPiExtension_ret := loadWPiExtension_ret e;
     piGpioLayout_ret := piGpioLayout_ret e; piBoardId_ret := piBoardId_ret e;
     wiringPiVersion_ret := wiringPiVersion_ret e;
     piModelNames := piModelNames e; piProcessorNames := piProcessorNames e;
     piRevisionNames := piRevisionNames e; piMemorySize := piMemorySize e;
     piMakerNames := piMakerNames e; irq := irq e |}.

Definition with_stat_ok (v : string -> bool) (e : Env) : Env :=
  {| getenv_WIRINGPI_DEBUG := getenv_WIRINGPI_DEBUG e; geteuid := geteuid e;
     getuid := getuid e; getgid := getgid e; stat_ok := v;
     fopen_w_ok := fopen_w_ok e; strerror_errno := strerror_errno e;
     chown_result := chown_result e; system_status := system_status e;
     system_modules := system_modules e; stack_garbage := stack_garbage e;
     digitalRead_ret := digitalRead_ret e; analogRead_ret := analogRead_ret e;
     digitalReadBank_ret := digitalReadBank_ret e;
     digitalReadByte_ret := digitalReadByte_ret e;
     wiringPiISR_ret := wiringPiISR_ret e;
     wiringPiISRmulti_ret := wiringPiISRmulti_ret e;
     loadWPiExtension_ret := loadWPiExtension_ret e;
     piGpioLayout_ret := piGpioLayout_ret e; piBoardId_ret := piBoardId_ret e;
     wiringPiVersion_ret := wiringPiVersion_ret e;
     piModelNames := piModelNames e; piProcessorNames := piProcessorNames e;
     piRevisionNames := piRevisionNames e; piMemorySize := piMemorySize e;
     piMakerNames := piMakerNames e; irq := irq e |}.

Definition with_fopen_w_ok (v : string -> bool) (e : Env) : Env :=
  {| getenv_WIRINGPI_DEBUG := getenv_WIRINGPI_DEBUG e; geteuid := geteuid e;
     getuid := getuid e; getgid := getgid e; stat_ok := stat_ok e;
     fopen_w_ok := v; strerror_errno := strerror_errno e;
     chown_result := chown_result e; system_status := system_status e;
     system_modules := system_modules e; stack_garbage := stack_garbage e;
     digitalRead_ret := digitalRead_ret e; analogRead_ret := analogRead_ret e;
     digitalReadBank_ret := digitalReadBank_ret e;
     digitalReadByte_ret := digitalReadByte_ret e;
     wiringPiISR_ret := wiringPiISR_ret e;
     wiringPiISRmulti_ret := wiringPiISRmulti_ret e;
     loadWPiExtension_ret := loadWPiExtension_ret e;
     piGpioLayout_ret := piGpioLayout_ret e; piBoardId_ret := piBoardId_ret e;
     wiringPiVersion_ret := wiringPiVersion_ret e;
     piModelNames := piModelNames e; piProcessorNames := piProcessorNames e;
     piRevisionNames := piRevisionNames e; piMemorySize := piMemorySize e;
     piMakerNames := piMakerNames e; irq := irq e |}.

Definition with_digitalRead_ret (v : list Event -> Z -> Z) (e : Env) : Env :=
  {| getenv_WIRINGPI_DEBUG := getenv_WIRINGPI_DEBUG e; geteuid := geteuid e;
     getuid := getuid e; getgid := getgid e; stat_ok := stat_ok e;
     fopen_w_ok := fopen_w_ok e; strerror_errno := strerror_errno e;
     chown_result := chown_result e; system_status := system_status e;
     system_modules := system_modules e; stack_garbage := stack_garbage e;
     digitalRead_ret := v; analogRead_ret := analogRead_ret e;
     digitalReadBank_ret := digitalReadBank_ret e;
     digitalReadByte_ret := digitalReadByte_ret e;
     wiringPiISR_ret := wiringPiISR_ret e;
     wiringPiISRmulti_ret := wiringPiISRmulti_ret e;
     loadWPiExtension_ret := loadWPiExtension_ret e;
     piGpioLayout_ret := piGpioLayout_ret e; piBoardId_ret := piBoardId_ret e;
     wiringPiVersion_ret := wiringPiVersion_ret e;
     piModelNames := piModelNames e; piProcessorNames := piProcessorNames e;
     piRevisionNames := piRevisionNames e; piMemorySize := piMemorySize e;
     piMakerNames := piMakerNames e; irq := irq e |}.

Definition with_piBoardId_ret (v : BoardId) (e : Env) : Env :=
  {| getenv_WIRINGPI_DEBUG := getenv_WIRINGPI_DEBUG e; geteuid := geteuid e;
     getuid := getuid e; getgid := getgid e; stat_ok := stat_ok e;
     fopen_w_ok := fopen_w_ok e; strerror_errno := strerror_errno e;
     chown_result := chown_result e; system_status := system_status e;
     system_modules := system_modules e; stack_garbage := stack_garbage e;
     digitalRead_ret := digitalRead_ret e; analogRead_ret := analogRead_ret e;
     digitalReadBank_ret := digitalReadBank_ret e;
     digitalReadByte_ret := digitalReadByte_ret e;
     wiringPiISR_ret := wiringPiISR_ret e;
     wiringPiISRmulti_ret := wiringPiISRmulti_ret e;
     loadWPiExtension_ret := loadWPiExtension_ret e;
     piGpioLayout_ret := piGpioLayout_ret e; piBoardId_ret := v;
     wiringPiVersion_ret := wiringPiVersion_ret e;
     piModelNames := piModelNames e; piProcessorNames := piProcessorNames e;
     piRevisionNames := piRevisionNames e; piMemorySize := piMemorySize e;
     piMakerNames := piMakerNames e; irq := irq e |}.

(** The level a pin was last set to by [digitalWrite], going through the
    trace; [level] is what it had before. *)
Fixpoint last_write (t : list Event) (pin level : Z) : Z :=
  match t with
  | [] => level
  | Call fn [p; v] :: rest =>
      if String.eqb fn "digitalWrite" && (p =? pin)
      then last_write rest pin v
      else last_write rest pin level
  | _ :: rest => last_write rest pin level
  end.

(** A pin that reads as it was last written. *)
Definition latching (e : Env) (level : Z -> Z) : Prop :=
  forall t pin, digitalRead_ret e t pin = last_write t pin (level pin).

Section Tables.

Context {hdr : wiringPi_h}.

(** The handlers that begin with a test of [argc], with the count each
    wants and the text of its usage line after the program name. *)
Definition usage_table (fuel : nat)
  : list ((Z -> list string -> M unit) * Z * string) :=
  [(doExport, 4, "export pin mode"); (doWfi fuel, 4, "wfi pin mode");
   (doMWfi fuel, 4, "mwfi pin[,pin...] mode"); (doEdge, 4, "edge pin mode");
   (doUnexport, 3, "unexport pin"); (doMode, 4, "mode pin mode");
   (doPadDrive, 4, "drive group value"); (doUsbP, 3, "usbp high|low");
   (doWrite, 4, "write pin value"); (doAwrite, 4, "awrite pin value");
   (doWriteByte, 3, "wb value");
   (fun argc argv => doReadByte argc argv true, 2, "rbx|rbd");
   (fun argc argv => doReadByte argc argv false, 2, "rbx|rbd");
   (doRead, 3, "read pin"); (doBank, 3, "bank <bank#>");
   (doAread, 3, "aread pin"); (doToggle, 3, "toggle pin");
   (doBlink fuel, 3, "blink pin"); (doPwmTone, 4, "pwmTone <pin> <freq>");
   (doClock, 4, "clock <pin> <freq>"); (doPwm, 4, "pwm <pin> <value>");
   (doPwmRange, 3, "pwmr <range>"); (doPwmClock, 3, "pwmc <clock>")].

(** The mode words of [gpio mode]: the library function each calls and its
    second argument. *)
Definition mode_table : list (string * (string * Z)) :=
  [("in", ("pinMode", INPUT)); ("input", ("pinMode", INPUT));
   ("out", ("pinMode", OUTPUT)); ("output", ("pinMode", OUTPUT));
   ("pwm", ("pinMode", PWM_OUTPUT)); ("pwmTone", ("pinMode", PWM_TONE_OUTPUT));
   ("clock", ("pinMode", GPIO_CLOCK));
   ("up", ("pullUpDnControl", PUD_UP)); ("down", ("pullUpDnControl", PUD_DOWN));
   ("tri", ("pullUpDnControl", PUD_OFF)); ("off", ("pullUpDnControl", PUD_OFF));
   ("alt0", ("pinModeAlt", 4)); ("alt1", ("pinModeAlt", 5));
   ("alt2", ("pinModeAlt", 6)); ("alt3", ("pinModeAlt", 7));
   ("alt4", ("pinModeAlt", 3)); ("alt5", ("pinModeAlt", 2))].

End Tables.

(** ** Further sample boards *)

(** The sample board seen by an ordinary user. *)
Definition user_env : Env := with_geteuid 1000 pi_env.

(** The sample board with the device tree enabled. *)
Definition devtree_env : Env :=
  with_stat_ok (fun path => String.eqb path "/proc/device-tree") pi_env.

(** The sample board with [i2cdetect] installed in [/usr/sbin]. *)
Definition i2c_env : Env :=
  with_stat_ok (fun path => String.eqb path "/usr/sbin/i2cdetect") pi_env.

(** A model B+, the pins of which read as they were last written. *)
Definition bplus_env : Env :=
  with_piBoardId_ret {| b_fullRev := 16; b_model := 3; b_proc := 0; b_rev := 2;
                        b_mem := 1; b_maker := 0; b_warranty := 0 |}
    (with_digitalRead_ret (fun t pin => last_write t pin 0) pi_env).

(** The sample board where the unexport file cannot be opened. *)
Definition readonly_env : Env := with_fopen_w_ok (fun _ => false) pi_env.

(** The start of the process with the I2C modules loaded. *)
Definition boot_i2c : State :=
  set_modules (Some ["i2c_bcm2708 16384 0" +:+ nl; "i2c_dev 20480 0" +:+ nl]) boot.
(** ** Weakest preconditions *)

(** [wp m e s Q]: running [m] in environment [e] from state [s] ends in a
    result and a state that satisfy [Q]. *)
Definition wp {A} (m : M A) (e : Env) (s : State)
    (Q : Result A -> State -> Prop) : Prop :=
  Q (m e s).1 (m e s).2.

(** How a result flows through a bind. *)
Definition after {A B} (k : A -> M B) (e : Env) (Q : Result B -> State -> Prop)
    (r : Result A) (s : State) : Prop :=
  match r with
  | Ret a => wp (k a) e s Q
  | Exit c => Q (Exit c) s
  | Running => Q Running s
  | Fault => Q Fault s
  end.
(** * The C library model on sample inputs *)

Example atoi_ex1 : atoi "17" = 17. Proof. reflexivity. Qed.
Example atoi_ex2 : atoi "  -3x" = -3. Proof. reflexivity. Qed.
Example atoi_ex3 : atoi "abc" = 0. Proof. reflexivity. Qed.
Example strtol_ex1 : strtol "0x3C" 0 = 60. Proof. reflexivity. Qed.
Example strtol_ex2 : strtol "017" 0 = 15. Proof. reflexivity. Qed.
Example strcasecmp_ex1 : strcasecmp "RiSing" "rising" = 0. Proof. reflexivity. Qed.
Example strcmp_ex1 : strcmp "-V" "-v" = -32. Proof. reflexivity. Qed.
Example strtok_ex1 : strtok_all "4,17,,27" "," = ["4"; "17"; "27"]. Proof. reflexivity. Qed.
Example fmt_ex1 : fmt_0wX 2 60 = "3C". Proof. reflexivity. Qed.
Example fmt_ex2 : fmt_wd 4 17 = "  17". Proof. reflexivity. Qed.
Example fmt_ex3 : fmt_0wX 8 (-1) = "FFFFFFFF". Proof. vm_compute. reflexivity. Qed.
Example basename_ex1 : basename "/usr/bin/gpio" = "gpio". Proof. reflexivity. Qed.
(** * Facts about the C library model *)

Section LibcFacts.

Lemma code_inj c1 c2 : code c1 = code c2 -> c1 = c2.
Proof.
  unfold code; intros E.
  apply N2Z.inj in E.
  rewrite <- (ascii_N_embedding c1), <- (ascii_N_embedding c2).
  by rewrite E.
Qed.

Lemma tolower_keeps_nonnul c : is_nul c = false -> is_nul (tolower c) = false.
Proof.
  destruct c as [[] [] [] [] [] [] [] []]; vm_compute; congruence.
Qed.

Lemma is_nul_false_code c : is_nul c = false -> code c <> 0.
Proof. unfold is_nul. by intros ?%Z.eqb_neq. Qed.

(** [strcasecmp] answers 0 exactly when the two strings have the same
    case-folded text. *)
Lemma cmp_tolower_zero s1 : forall s2,
  cmp_with tolower (c_str s1) (c_str s2) = 0
  <-> smap tolower (c_str s1) = smap tolower (c_str s2).
Proof.
  induction s1 as [|c1 r1 IH]; intros [|c2 r2]; cbn [c_str].
  - done.
  - destruct (is_nul c2) eqn:N2; cbn [cmp_with smap]; [done|].
    apply tolower_keeps_nonnul, is_nul_false_code in N2.
    split; [lia | discriminate].
  - destruct (is_nul c1) eqn:N1; cbn [cmp_with smap]; [done|].
    apply tolower_keeps_nonnul, is_nul_false_code in N1.
    split; [lia | discriminate].
  - destruct (is_nul c1) eqn:N1, (is_nul c2) eqn:N2; cbn [cmp_with smap].
    + done.
    + apply tolower_keeps_nonnul, is_nul_false_code in N2.
      split; [lia | discriminate].
    + apply tolower_keeps_nonnul, is_nul_false_code in N1.
      split; [lia | discriminate].
    + destruct (Z.eqb_spec (code (tolower c1) - code (tolower c2)) 0) as [E|E].
      * assert (tolower c1 = tolower c2) as -> by (apply code_inj; lia).
        rewrite (IH r2). split; [by intros -> | by intros [= ->]].
      * split; [done | intros [= E' _]; rewrite E' in E; lia].
Qed.

Lemma strcaseeq_casefold a b :
  strcaseeq a b = String.eqb (casefold a) (casefold b).
Proof.
  unfold strcaseeq, strcasecmp, casefold.
  destruct (Z.eqb_spec (cmp_with tolower (c_str a) (c_str b)) 0) as [E|E];
    destruct (String.eqb_spec (smap tolower (c_str a)) (smap tolower (c_str b))) as [F|F];
    try done.
  - by apply cmp_tolower_zero in E.
  - by apply cmp_tolower_zero in F.
Qed.

Lemma strcaseeq_true a b : strcaseeq a b = true <-> casefold a = casefold b.
Proof. rewrite strcaseeq_casefold. apply String.eqb_eq. Qed.

(** A test against a word sees only the case-folded argument. *)
Lemma strcaseeq_folded a word b :
  casefold a = word -> strcaseeq a b = String.eqb word (casefold b).
Proof. intros <-. apply strcaseeq_casefold. Qed.

Lemma cmp_id_zero s1 : forall s2,
  cmp_with (fun c => c) (c_str s1) (c_str s2) = 0 <-> c_str s1 = c_str s2.
Proof.
  induction s1 as [|c1 r1 IH]; intros [|c2 r2]; cbn [c_str].
  - done.
  - destruct (is_nul c2) eqn:N2; cbn [cmp_with]; [done|].
    apply is_nul_false_code in N2. split; [lia | discriminate].
  - destruct (is_nul c1) eqn:N1; cbn [cmp_with]; [done|].
    apply is_nul_false_code in N1. split; [lia | discriminate].
  - destruct (is_nul c1) eqn:N1, (is_nul c2) eqn:N2; cbn [cmp_with].
    + done.
    + apply is_nul_false_code in N2. split; [lia | discriminate].
    + apply is_nul_false_code in N1. split; [lia | discriminate].
    + destruct (Z.eqb_spec (code c1 - code c2) 0) as [E|E].
      * assert (c1 = c2) as -> by (apply code_inj; lia).
        rewrite (IH r2). split; [by intros -> | by intros [= ->]].
      * split; [done | intros [= E' _]; rewrite E' in E; lia].
Qed.

(** [strcmp] answers 0 exactly on equal C strings. *)
Lemma streq_true a b : streq a b = true <-> c_str a = c_str b.
Proof. unfold streq, strcmp. rewrite Z.eqb_eq. apply cmp_id_zero. Qed.

End LibcFacts.
(** * Facts about paths and the monad *)

Section Paths.

Lemma string_app_inj_l (p a b : string) : p +:+ a = p +:+ b -> a = b.
Proof. induction p as [|c p IH]; cbn; [done | intros [= E]; auto]. Qed.

Lemma gpio_attr_inj pin a b : gpio_attr pin a = gpio_attr pin b -> a = b.
Proof.
  unfold gpio_attr. intros E.
  apply string_app_inj_l in E.
  apply string_app_inj_l in E.
  by apply string_app_inj_l in E.
Qed.

Lemma gpio_attr_not_export pin a : gpio_attr pin a <> "/sys/class/gpio/export".
Proof. unfold gpio_attr. cbn. discriminate. Qed.

End Paths.

(** * Rules of the weakest precondition *)

Section WpRules.

Context {A B : Type}.
Implicit Types (e : Env) (s : State).

Lemma wp_elim (m : M A) e s r s' (Q : Result A -> State -> Prop) :
  wp m e s Q -> m e s = (r, s') -> Q r s'.
Proof. unfold wp. intros HQ E. by rewrite E in HQ. Qed.

Lemma wp_mono (m : M A) e s (Q Q' : Result A -> State -> Prop) :
  (forall r s', Q r s' -> Q' r s') -> wp m e s Q -> wp m e s Q'.
Proof. unfold wp. auto. Qed.

Lemma wp_ret (a : A) e s Q : Q (Ret a) s -> wp (mret a) e s Q.
Proof. done. Qed.

Lemma wp_bind (m : M A) (k : A -> M B) e s Q :
  wp m e s (after k e Q) -> wp (m ≫= k) e s Q.
Proof.
  unfold wp, after, mbind, M_bind.
  by destruct (m e s) as [[a|c| |] s1].
Qed.

Lemma wp_exit c e s (Q : Result A -> State -> Prop) :
  Q (Exit c) s -> wp (exit c) e s Q.
Proof. done. Qed.

Lemma wp_out_of_fuel e s (Q : Result A -> State -> Prop) :
  Q Running s -> wp out_of_fuel e s Q.
Proof. done. Qed.

Lemma wp_undefined e s (Q : Result A -> State -> Prop) :
  Q Fault s -> wp undefined e s Q.
Proof. done. Qed.

Lemma wp_ask (f : Env -> A) e s Q : Q (Ret (f e)) s -> wp (ask f) e s Q.
Proof. done. Qed.

Lemma wp_get (f : State -> A) e s Q : Q (Ret (f s)) s -> wp (get f) e s Q.
Proof. done. Qed.

Lemma wp_if (b : bool) (m1 m2 : M A) e s Q :
  (b = true -> wp m1 e s Q) -> (b = false -> wp m2 e s Q) ->
  wp (if b then m1 else m2) e s Q.
Proof. destruct b; auto. Qed.

Lemma wp_fail_with msg c e s (Q : Result A -> State -> Prop) :
  Q (Exit c) (set_trace (trace s ++ [Stderr msg]) s) ->
  wp (fail_with msg c) e s Q.
Proof. done. Qed.

Lemma after_ret (k : A -> M B) e Q a s : wp (k a) e s Q -> after k e Q (Ret a) s.
Proof. done. Qed.

Lemma after_exit (k : A -> M B) e Q c s : Q (Exit c) s -> after k e Q (Exit c) s.
Proof. done. Qed.

Lemma after_running (k : A -> M B) e Q s : Q Running s -> after k e Q Running s.
Proof. done. Qed.

Lemma after_fault (k : A -> M B) e Q s : Q Fault s -> after k e Q Fault s.
Proof. done. Qed.

End WpRules.

Section WpPrimitives.

Implicit Types (e : Env) (s : State) (Q : Result unit -> State -> Prop).

Lemma wp_modify (f : State -> State) e s Q :
  Q (Ret tt) (f s) -> wp (modify f) e s Q.
Proof. done. Qed.

Lemma wp_emit ev e s Q :
  Q (Ret tt) (set_trace (trace s ++ [ev]) s) -> wp (emit ev) e s Q.
Proof. done. Qed.

Lemma wp_fopen_w path e s (Q : Result bool -> State -> Prop) :
  (fopen_w_ok e path = true ->
   Q (Ret true) (set_files (<[path := ""]> (files s))
                   (set_trace (trace s ++ [FileOpen path]) s))) ->
  (fopen_w_ok e path = false -> Q (Ret false) s) ->
  wp (fopen_w path) e s Q.
Proof.
  unfold wp, fopen_w, ask, mbind, M_bind. cbn.
  destruct (fopen_w_ok e path); cbn; auto.
Qed.

Lemma wp_fwrite path data e s Q :
  Q (Ret tt)
    (set_files (<[path := default "" (files s !! path) +:+ data]> (files s))
       (set_trace (trace s ++ [FileWrite path data]) s)) ->
  wp (fwrite path data) e s Q.
Proof. done. Qed.

(** [changeOwner] always returns; it adds the [chown] and, when that fails
    for another reason than a missing file, one line on stderr. *)
Lemma wp_changeOwner cmd file e s Q :
  (forall tail, Forall (fun ev => is_file_write ev = false) tail ->
     Q (Ret tt)
       (set_trace (trace s ++ Chown file (getuid e) (getgid e) :: tail) s)) ->
  wp (changeOwner cmd file) e s Q.
Proof.
  intros HQ. unfold wp, changeOwner, ask, emit, modify, mbind, M_bind. cbn.
  destruct (chown_result e file); cbn.
  - apply (HQ []). constructor.
  - apply (HQ []). constructor.
  - rewrite <- app_assoc. apply (HQ [_]). by repeat constructor.
Qed.

End WpPrimitives.

(** States are kept as records of their fields. *)
Ltac state_simpl :=
  cbv beta iota delta [set_files set_trace set_modules set_wpMode set_nInts
                       set_irq_slot set_wiringPiDebug];
  cbn [files trace modules wpMode nInts irq_slot wiringPiDebug].

Ltac wp_norm :=
  lazymatch goal with
  | |- wp ?m ?e ?s ?Q =>
      let m1 := eval cbv beta iota zeta
                  delta [module1 module2 file1 file2 args1 args2] in m in
      let m' := eval cbn [files trace modules wpMode nInts irq_slot
                          wiringPiDebug] in m1 in
      let s1 := eval cbv beta iota delta
                  [set_files set_trace set_modules set_wpMode set_nInts
                   set_irq_slot set_wiringPiDebug] in s in
      let s2 := eval cbn [files trace modules wpMode nInts irq_slot
                          wiringPiDebug] in s1 in
      change (wp m' e s2 Q)
  | |- _ => idtac
  end.

Ltac use_facts :=
  progress
    (repeat match goal with
            | F : casefold ?a = ?w |- wp (if ?c then _ else _) _ _ _ =>
                lazymatch c with
                | context [strcaseeq a ?b] =>
                    rewrite (strcaseeq_folded a w b F);
                    let v := eval vm_compute in (String.eqb w (casefold b)) in
                    change (String.eqb w (casefold b)) with v
                end
            | E : ?b = true |- wp (if ?c then _ else _) _ _ _ =>
                lazymatch c with context [b] => rewrite E end
            | E : ?b = false |- wp (if ?c then _ else _) _ _ _ =>
                lazymatch c with context [b] => rewrite E end
            end;
     cbn [negb orb andb]).

Ltac wp_unfold c :=
  lazymatch goal with
  | |- wp ?m ?e ?s ?Q =>
      let m' := eval cbv beta iota zeta delta [c] in m in
      change (wp m' e s Q)
  end.

(** A test that mentions no variable is decided by computation. *)
Ltac is_ground c :=
  let T := type of c in
  let _ := constr:(ltac:(repeat match goal with H : _ |- _ => clear H end;
                         exact c) : T) in
  idtac.

Ltac eval_test :=
  lazymatch goal with
  | |- wp (if ?c then ?m1 else ?m2) ?e ?s ?Q =>
      is_ground c;
      let v := eval vm_compute in c in
      lazymatch v with
      | true => change (wp m1 e s Q)
      | false => change (wp m2 e s Q)
      end
  end.

(** One step of symbolic execution. *)
Ltac wp_head :=
  lazymatch goal with
  | |- wp (mbind _ _) _ _ _ => apply wp_bind
  | |- wp (mret _) _ _ _ => apply wp_ret
  | |- wp skip _ _ _ => apply wp_ret
  | |- wp (exit _) _ _ _ => apply wp_exit
  | |- wp out_of_fuel _ _ _ => apply wp_out_of_fuel
  | |- wp undefined _ _ _ => apply wp_undefined
  | |- wp (ask _) _ _ _ => apply wp_ask
  | |- wp (get _) _ _ _ => apply wp_get
  | |- wp (modify _) _ _ _ => apply wp_modify
  | |- wp (emit _) _ _ _ => apply wp_emit
  | |- wp (printf _) _ _ _ => apply wp_emit
  | |- wp (eprintf _) _ _ _ => apply wp_emit
  | |- wp (call _ _) _ _ _ => apply wp_emit
  | |- wp (fclose _) _ _ _ => apply wp_emit
  | |- wp (fail_with _ _) _ _ _ => apply wp_fail_with
  | |- wp (fopen_w _) _ _ _ => apply wp_fopen_w; intros ?
  | |- wp (fwrite _ _) _ _ _ => apply wp_fwrite
  | |- wp (changeOwner _ _) _ _ _ => apply wp_changeOwner; intros ? ?
  | |- wp (when _ _) _ _ _ => wp_unfold when
  | |- wp (system _) _ _ _ => wp_unfold system
  | |- wp (moduleLoaded _) _ _ _ => wp_unfold moduleLoaded
  | |- wp (checkDevTree _) _ _ _ => wp_unfold checkDevTree
  | |- wp (_doLoadUsage _) _ _ _ => wp_unfold @_doLoadUsage
  | |- wp (assign_wpMode _) _ _ _ => wp_unfold assign_wpMode
  | |- wp (digitalRead _) _ _ _ => wp_unfold digitalRead
  | |- wp (delayMs _) _ _ _ => apply wp_emit
  | |- wp (wfi _) _ _ _ => wp_unfold wfi
  | |- wp (numbering _ _) _ _ _ => wp_unfold @numbering
  | |- wp (extensions ?n _ _) _ _ _ =>
      is_ground n;
      let n' := eval vm_compute in n in
      change n with n';
      wp_unfold extensions
  | |- wp (dispatch _ _ _) _ _ _ => wp_unfold @dispatch
  | |- wp (core _ _ _) _ _ _ => wp_unfold @core
  | |- wp (main _ _ _) _ _ _ => wp_unfold @main
  | |- wp debug_mode _ _ _ => wp_unfold debug_mode
  | |- wp (if true then ?m else _) ?e ?s ?Q => change (wp m e s Q)
  | |- wp (if false then _ else ?m) ?e ?s ?Q => change (wp m e s Q)
  | |- wp (if _ then _ else _) _ _ _ =>
      first [ eval_test | use_facts | apply wp_if; intros ? ]
  | |- wp (match ?x with _ => _ end) _ _ _ =>
      first [ match goal with E : x = _ |- _ => rewrite E end
            | destruct x eqn:? ];
      wp_norm
  | |- after _ _ _ (Ret _) _ => apply after_ret; wp_norm
  | |- after _ _ _ (Exit _) _ => apply after_exit
  | |- after _ _ _ Running _ => apply after_running
  | |- after _ _ _ Fault _ => apply after_fault
  end.

Ltac wp_run := repeat wp_head.

Lemma wp_of_eq {A} (m : M A) e s r s' (Q : Result A -> State -> Prop) :
  m e s = (r, s') -> Q r s' -> wp m e s Q.
Proof. unfold wp. by intros ->. Qed.

Lemma wp_is_eq {A} (m : M A) e s r s' :
  wp m e s (fun r0 s0 => r0 = r /\ s0 = s') -> m e s = (r, s').
Proof. unfold wp. destruct (m e s); cbn. by intros [-> ->]. Qed.

Lemma run_eta {A} (m : M A) e s : m e s = ((m e s).1, (m e s).2).
Proof. by destruct (m e s). Qed.

Lemma added_app (t new : list Event) : drop (length t) (t ++ new) = new.
Proof. by rewrite drop_app_length. Qed.

Ltac trace_norm := rewrite <- ?app_assoc; cbn [app].

(** Lookups in the files after writes to the sysfs paths. *)
Ltac paths :=
  repeat first
    [ rewrite lookup_insert_eq
    | rewrite lookup_insert_ne by
        (first [ apply gpio_attr_not_export
               | apply not_eq_sym, gpio_attr_not_export
               | intros ?%gpio_attr_inj; discriminate ]) ].
(** * The sysfs commands *)

Section Sysfs.

Implicit Types (e : Env) (s : State).

Lemma folded_word a b word :
  strcaseeq a b = true -> casefold b = word -> casefold a = word.
Proof. intros E%strcaseeq_true <-. done. Qed.

Lemma eqb_export_attr pin a :
  String.eqb "/sys/class/gpio/export" (gpio_attr pin a) = false.
Proof. apply String.eqb_neq, not_eq_sym, gpio_attr_not_export. Qed.

Lemma eqb_direction_edge pin :
  String.eqb (gpio_attr pin "direction") (gpio_attr pin "edge") = false.
Proof. apply String.eqb_neq. intros ?%gpio_attr_inj. discriminate. Qed.

(** C6.  A successful [gpio edge] leaves the line [in] in the direction
    file of the pin, whatever the file held before: before it writes the
    edge file, doEdge writes the pin number to the export file and [in]
    to the direction file. *)
Theorem doEdge_forces_input e s argc argv s' :
  doEdge argc argv e s = (Ret tt, s') ->
  let pin := atoi (arg argv 2) in
  files s' !! gpio_attr pin "direction" = Some ("in" +:+ nl)
  /\ exists tok rest,
       tok ∈ edge_tokens /\ casefold (arg argv 3) = tok /\
       trace s' = (trace s ++
         [FileOpen "/sys/class/gpio/export";
          FileWrite "/sys/class/gpio/export" (fmt_d pin +:+ nl);
          FileClose "/sys/class/gpio/export";
          FileOpen (gpio_attr pin "direction");
          FileWrite (gpio_attr pin "direction") ("in" +:+ nl);
          FileClose (gpio_attr pin "direction");
          FileOpen (gpio_attr pin "edge");
          FileWrite (gpio_attr pin "edge") (tok +:+ nl)] ++ rest)%list.
Proof.
  intros Hrun pin.
  refine (wp_elim _ _ _ _ _
    (fun r s' => r = Ret tt -> _ /\ exists tok rest, _ /\ _ /\ trace s' = _) _ Hrun eq_refl).
  clear Hrun. unfold doEdge. fold pin.
  wp_run; try discriminate; intros _; state_simpl; trace_norm;
    (split; [paths; done |]).
  all: eexists _, _; (split; [|split; [|reflexivity]]);
    [| eapply folded_word; [eassumption | reflexivity] ]; set_solver.
Qed.

(** The state [gpio edge 4 falling] ends in, on the sample board. *)
Lemma doEdge_forces_input_witness :
  files (doEdge 4 ["gpio"; "edge"; "4"; "falling"] pi_env boot).2
    !! "/sys/class/gpio/gpio4/direction" = Some ("in" +:+ nl)
  /\ boot.(files) !! "/sys/class/gpio/gpio4/direction" = Some ("out" +:+ nl).
Proof.
  split; [| reflexivity].
  refine (proj1 (doEdge_forces_input pi_env boot 4
                   ["gpio"; "edge"; "4"; "falling"] _ _)).
  vm_compute. reflexivity.
Defined.

(** C2, as the code has it.  The mode word of [gpio edge] is compared
    without regard to case.  A word that is one of the four writes that
    token to the edge file.  Any other word ends the program with exit
    code 1 and nothing is written to the edge file; by then the pin number
    has been written to the export file and [in] to the direction file. *)
Theorem doEdge_mode_word e s a0 a1 pinarg mode :
  let argv := [a0; a1; pinarg; mode] in
  let pin := atoi pinarg in
  let out := doEdge 4 argv e s in
  let new := drop (length (trace s)) (trace out.2) in
  (forall tok, tok ∈ edge_tokens -> casefold mode = tok ->
     fopen_w_ok e "/sys/class/gpio/export" = true ->
     fopen_w_ok e (gpio_attr pin "direction") = true ->
     fopen_w_ok e (gpio_attr pin "edge") = true ->
     out.1 = Ret tt /\
     files out.2 !! gpio_attr pin "edge" = Some (tok +:+ nl))
  /\ (casefold mode ∉ edge_tokens ->
      out.1 = Exit 1 /\
      List.filter (is_write_to (gpio_attr pin "edge")) new = [] /\
      (fopen_w_ok e "/sys/class/gpio/export" = true ->
       fopen_w_ok e (gpio_attr pin "direction") = true ->
       List.filter is_file_write new =
         [FileWrite "/sys/class/gpio/export" (fmt_d pin +:+ nl);
          FileWrite (gpio_attr pin "direction") ("in" +:+ nl)])).
Proof.
  intros argv pin out new. split.
  - intros tok Htok Hfold Ho1 Ho2 Ho3.
    change (wp (doEdge 4 argv) e s (fun r s' =>
              r = Ret tt /\ files s' !! gpio_attr pin "edge" = Some (tok +:+ nl))).
    unfold edge_tokens in Htok.
    unfold doEdge; subst argv; change (arg [a0; a1; pinarg; mode] 3) with mode;
      change (atoi (arg [a0; a1; pinarg; mode] 2)) with pin.
    repeat (apply elem_of_cons in Htok as [Htok|Htok]);
      try (by apply elem_of_nil in Htok); subst tok;
      wp_run; try congruence; state_simpl; (split; [done | paths; done]).
  - intros Hout.
    assert (strcaseeq mode "none" = false /\ strcaseeq mode "rising" = false /\
            strcaseeq mode "falling" = false /\ strcaseeq mode "both" = false)
      as (Hnone & Hrising & Hfalling & Hboth).
    { rewrite !strcaseeq_casefold.
      repeat split; apply String.eqb_neq; intros E; apply Hout; rewrite E;
        vm_compute; set_solver. }
    change (wp (doEdge 4 argv) e s (fun r s' =>
              r = Exit 1 /\
              List.filter (is_write_to (gpio_attr pin "edge"))
                (drop (length (trace s)) (trace s')) = [] /\
              (fopen_w_ok e "/sys/class/gpio/export" = true ->
               fopen_w_ok e (gpio_attr pin "direction") = true ->
               List.filter is_file_write (drop (length (trace s)) (trace s')) =
                 [FileWrite "/sys/class/gpio/export" (fmt_d pin +:+ nl);
                  FileWrite (gpio_attr pin "direction") ("in" +:+ nl)]))).
    unfold doEdge; subst argv; change (arg [a0; a1; pinarg; mode] 3) with mode;
      change (atoi (arg [a0; a1; pinarg; mode] 2)) with pin.
    wp_run; state_simpl; trace_norm; rewrite added_app;
      cbn [List.filter is_write_to is_file_write];
      rewrite ?eqb_export_attr, ?eqb_direction_edge;
      (split; [done | split; [done | intros; first [congruence | reflexivity]]]).
Qed.

End Sysfs.

(** [gpio edge 4 RISING] and [gpio edge 4 bogus] on the sample board, through
    the theorem. *)
Lemma doEdge_mode_word_witness :
  files (doEdge 4 ["gpio"; "edge"; "4"; "RISING"] pi_env boot).2
    !! "/sys/class/gpio/gpio4/edge" = Some ("rising" +:+ nl)
  /\ (doEdge 4 ["gpio"; "edge"; "4"; "bogus"] pi_env boot).1 = Exit 1.
Proof.
  pose proof (doEdge_mode_word pi_env boot "gpio" "edge" "4" "RISING") as [Hok _].
  pose proof (doEdge_mode_word pi_env boot "gpio" "edge" "4" "bogus") as [_ Hbad].
  cbv zeta in Hok, Hbad. split.
  - apply (Hok "rising"); try reflexivity.
    unfold edge_tokens.
    repeat first [ apply list_elem_of_here | apply list_elem_of_further ].
  - apply Hbad. unfold edge_tokens. rewrite !elem_of_cons, elem_of_nil.
    vm_compute. intros H; repeat destruct H as [H|H]; first [discriminate H | destruct H].
Defined.

(** C2 as the specification words it fails twice on the sample board.
    [RISING] is none of the four tokens as written, yet it is accepted and
    [rising] is written to the edge file.  [bogus] is refused with exit code
    1, but two files have been written by then. *)
Lemma doEdge_mode_word_counterexample :
  (("RISING" ∉ edge_tokens)
   /\ (doEdge 4 ["gpio"; "edge"; "4"; "RISING"] pi_env boot).1 = Ret tt
   /\ files (doEdge 4 ["gpio"; "edge"; "4"; "RISING"] pi_env boot).2
        !! "/sys/class/gpio/gpio4/edge" = Some ("rising" +:+ nl))
  /\ (("bogus" ∉ edge_tokens)
      /\ (doEdge 4 ["gpio"; "edge"; "4"; "bogus"] pi_env boot).1 = Exit 1
      /\ List.filter is_file_write
           (trace (doEdge 4 ["gpio"; "edge"; "4"; "bogus"] pi_env boot).2)
         = [FileWrite "/sys/class/gpio/export" ("4" +:+ nl);
            FileWrite "/sys/class/gpio/gpio4/direction" ("in" +:+ nl)]).
Proof.
  split; (split; [| split]).
  - unfold edge_tokens. rewrite !elem_of_cons, elem_of_nil.
    intros H; repeat destruct H as [H|H]; first [discriminate H | destruct H].
  - vm_compute. reflexivity.
  - vm_compute. reflexivity.
  - unfold edge_tokens. rewrite !elem_of_cons, elem_of_nil.
    intros H; repeat destruct H as [H|H]; first [discriminate H | destruct H].
  - vm_compute. reflexivity.
  - vm_compute. reflexivity.
Qed.
(** * gpio export *)

Section ExportCommand.

Implicit Types (e : Env) (s : State).

Lemma alias_words a :
  a ∈ direction_aliases.*1 <->
  a = "in" \/ a = "input" \/ a = "out" \/ a = "output" \/
  a = "high" \/ a = "up" \/ a = "low" \/ a = "down".
Proof. cbn. rewrite !elem_of_cons, elem_of_nil. tauto. Qed.

(** A mode word that folds to one of the eight aliases opens the pin with
    the direction of that alias. *)
Lemma doExport_alias e s a0 a1 pinarg mode alias d :
  (alias, d) ∈ direction_aliases -> casefold mode = alias ->
  let pin := atoi pinarg in
  fopen_w_ok e "/sys/class/gpio/export" = true ->
  fopen_w_ok e (gpio_attr pin "direction") = true ->
  wp (doExport 4 [a0; a1; pinarg; mode]) e s (fun r s' =>
    r = Ret tt /\ files s' !! gpio_attr pin "direction" = Some (d +:+ nl)).
Proof.
  intros Hin Hfold pin Ho1 Ho2.
  unfold doExport.
  change (arg [a0; a1; pinarg; mode] 3) with mode.
  change (atoi (arg [a0; a1; pinarg; mode] 2)) with pin.
  unfold direction_aliases in Hin.
  repeat (apply elem_of_cons in Hin as [Hin|Hin]);
    try (by apply elem_of_nil in Hin); injection Hin as -> ->;
    wp_run; try congruence; state_simpl; (split; [done | paths; done]).
Qed.

(** A mode word runs as the direction it stands for does. *)
Lemma doExport_canonical e s a0 a1 pinarg mode d :
  (casefold mode, d) ∈ direction_aliases ->
  doExport 4 [a0; a1; pinarg; mode] e s = doExport 4 [a0; a1; pinarg; d] e s.
Proof.
  intros Hin.
  remember (casefold mode) as w eqn:F. symmetry in F.
  unfold doExport.
  change (arg [a0; a1; pinarg; ?m] 3) with m.
  change (arg [a0; a1; pinarg; ?m] 0) with a0.
  change (atoi (arg [a0; a1; pinarg; ?m] 2)) with (atoi pinarg).
  unfold direction_aliases in Hin.
  repeat (apply elem_of_cons in Hin as [Hin|Hin]);
    try (by apply elem_of_nil in Hin); injection Hin as -> ->;
    rewrite !(strcaseeq_folded mode _ _ F);
    repeat match goal with
           | |- context [String.eqb ?w (casefold ?b)] =>
               let v := eval vm_compute in (String.eqb w (casefold b)) in
               change (String.eqb w (casefold b)) with v
           | |- context [strcaseeq ?w ?b] =>
               let v := eval vm_compute in (strcaseeq w b) in
               change (strcaseeq w b) with v
           end;
    reflexivity.
Qed.

(** A mode word outside the aliases ends the program with exit code 1. *)
Lemma doExport_rejects e s a0 a1 pinarg mode :
  casefold mode ∉ direction_aliases.*1 ->
  wp (doExport 4 [a0; a1; pinarg; mode]) e s (fun r s' =>
    r = Exit 1 /\
    forall data, FileWrite (gpio_attr (atoi pinarg) "direction") data ∉
                   drop (length (trace s)) (trace s')).
Proof.
  intros Hout.
  rewrite alias_words in Hout.
  assert (forall w, String.eqb (casefold mode) w = true ->
            ~ (w = "in" \/ w = "input" \/ w = "out" \/ w = "output" \/
               w = "high" \/ w = "up" \/ w = "low" \/ w = "down")) as Hno.
  { intros w E%String.eqb_eq. by rewrite <- E. }
  assert (strcaseeq mode "in" = false /\ strcaseeq mode "input" = false /\
          strcaseeq mode "out" = false /\ strcaseeq mode "output" = false /\
          strcaseeq mode "high" = false /\ strcaseeq mode "up" = false /\
          strcaseeq mode "low" = false /\ strcaseeq mode "down" = false)
    as (? & ? & ? & ? & ? & ? & ? & ?).
  { rewrite !strcaseeq_casefold.
    repeat split; apply not_true_is_false; intros E; apply Hno in E;
      apply E; vm_compute; tauto. }
  unfold doExport.
  change (arg [a0; a1; pinarg; mode] 3) with mode.
  change (atoi (arg [a0; a1; pinarg; mode] 2)) with (atoi pinarg).
  wp_run; state_simpl; trace_norm; rewrite added_app;
    (split; [done |]); intros data Hin;
    repeat (apply elem_of_cons in Hin as [Hin|Hin]);
    try (by apply elem_of_nil in Hin); try discriminate Hin.
  all: injection Hin as Hp _; by apply gpio_attr_not_export in Hp.
Qed.

(** C7.  For [gpio export], the two words of each pair in/input,
    out/output, high/up, low/down, in any mix of upper and lower case, give
    the same run and leave the same line (in, out, high, low) in the
    direction file; any other mode word ends the program with exit code 1
    and nothing is written to the direction file. *)
Theorem doExport_direction_aliases e s a0 a1 pinarg mode :
  let pin := atoi pinarg in
  let out := doExport 4 [a0; a1; pinarg; mode] e s in
  (forall alias d, (alias, d) ∈ direction_aliases -> casefold mode = alias ->
     (forall mode', (casefold mode', d) ∈ direction_aliases ->
        doExport 4 [a0; a1; pinarg; mode'] e s = out)
     /\ (fopen_w_ok e "/sys/class/gpio/export" = true ->
         fopen_w_ok e (gpio_attr pin "direction") = true ->
         out.1 = Ret tt /\
         files out.2 !! gpio_attr pin "direction" = Some (d +:+ nl)))
  /\ (casefold mode ∉ direction_aliases.*1 ->
      out.1 = Exit 1 /\
      forall data, FileWrite (gpio_attr pin "direction") data ∉
                     drop (length (trace s)) (trace out.2)).
Proof.
  intros pin out. split.
  - intros alias d Hin Hfold. split.
    + intros mode' Hin'. unfold out.
      rewrite (doExport_canonical e s a0 a1 pinarg mode d) by (rewrite Hfold; exact Hin).
      by apply doExport_canonical.
    + intros Ho1 Ho2. by apply (doExport_alias e s a0 a1 pinarg mode alias d).
  - apply doExport_rejects.
Qed.

(** [gpio export 4 OUTPUT] and [gpio export 4 out] on the sample board. *)
Lemma doExport_direction_aliases_witness :
  doExport 4 ["gpio"; "export"; "4"; "out"] pi_env boot
    = doExport 4 ["gpio"; "export"; "4"; "OUTPUT"] pi_env boot
  /\ files (doExport 4 ["gpio"; "export"; "4"; "OUTPUT"] pi_env boot).2
       !! "/sys/class/gpio/gpio4/direction" = Some ("out" +:+ nl)
  /\ (doExport 4 ["gpio"; "export"; "4"; "sideways"] pi_env boot).1 = Exit 1.
Proof.
  pose proof (doExport_direction_aliases pi_env boot "gpio" "export" "4" "OUTPUT")
    as [Hpair _].
  pose proof (doExport_direction_aliases pi_env boot "gpio" "export" "4" "sideways")
    as [_ Hrej].
  destruct (Hpair "output" "out") as [Hsame Hfile].
  { unfold direction_aliases; repeat first [ apply list_elem_of_here | apply list_elem_of_further ]. }
  { reflexivity. }
  split; [| split].
  - apply Hsame.
    unfold direction_aliases; repeat first [ apply list_elem_of_here | apply list_elem_of_further ].
  - apply Hfile; reflexivity.
  - apply Hrej. rewrite alias_words. vm_compute.
    intros H; repeat destruct H as [H|H]; discriminate H.
Defined.

End ExportCommand.
(** * gpio write, gpio bank and the numbering scheme *)

Section Pins.

Context {hdr : wiringPi_h}.
Implicit Types (e : Env) (s : State).

(** C10.  [gpio write]: the value words up and on, in any case, write
    HIGH; down and off write LOW; any other string goes through [atoi] and
    writes HIGH exactly when the number is not zero.  So [abc] writes LOW
    and is not refused. *)
Theorem doWrite_value e s a0 a1 pinarg v :
  let pin := atoi pinarg in
  let writes level :=
    doWrite 4 [a0; a1; pinarg; v] e s
    = (Ret tt, set_trace (trace s ++ [Call "digitalWrite" [pin; level]]) s) in
  (casefold v = "up" \/ casefold v = "on" -> writes HIGH)
  /\ (casefold v = "down" \/ casefold v = "off" -> writes LOW)
  /\ (casefold v <> "up" /\ casefold v <> "on" /\
      casefold v <> "down" /\ casefold v <> "off" ->
      writes (if atoi v =? 0 then LOW else HIGH))
  /\ doWrite 4 [a0; a1; pinarg; "abc"] e s
     = (Ret tt, set_trace (trace s ++ [Call "digitalWrite" [pin; LOW]]) s).
Proof.
  intros pin writes. subst writes. cbv beta.
  unfold doWrite.
  change (arg [a0; a1; pinarg; ?x] 3) with x.
  change (atoi (arg [a0; a1; pinarg; ?x] 2)) with pin.
  split; [| split; [| split]].
  - intros [F|F]; rewrite !(strcaseeq_folded v _ _ F); reflexivity.
  - intros [F|F]; rewrite !(strcaseeq_folded v _ _ F); reflexivity.
  - intros (Hup & Hon & Hdown & Hoff).
    rewrite !strcaseeq_casefold.
    change (casefold "up") with "up". change (casefold "on") with "on".
    change (casefold "down") with "down". change (casefold "off") with "off".
    apply String.eqb_neq in Hup, Hon, Hdown, Hoff.
    rewrite Hup, Hon, Hdown, Hoff. cbn [orb].
    destruct (atoi v =? 0); reflexivity.
  - reflexivity.
Qed.

(** C4.  [gpio bank] refuses a bank number above 1 and reads every other
    one, a negative one included: [gpio bank -1] calls
    [digitalReadBank (-1)] and prints what it returns. *)
Theorem doBank_reads_negative_bank e s a0 a1 bankarg :
  let bank := atoi bankarg in
  let out := doBank 3 [a0; a1; bankarg] e s in
  (1 < bank ->
     out.1 = Exit 1 /\
     List.filter (is_call_to "digitalReadBank") (trace out.2)
     = List.filter (is_call_to "digitalReadBank") (trace s))
  /\ (bank <= 1 ->
      out = (Ret tt,
             set_trace (trace s ++
               [Call "digitalReadBank" [bank];
                Stdout ("0x" +:+ fmt_0wX 8 (to_uint (digitalReadBank_ret e bank))
                        +:+ nl)]) s))
  /\ atoi "-1" = -1.
Proof.
  intros bank out. subst out. unfold doBank.
  change (atoi (arg [a0; a1; bankarg] 2)) with bank.
  split; [| split; [| reflexivity]].
  - intros Hbank. apply Z.ltb_lt in Hbank.
    change (wp (doBank 3 [a0; a1; bankarg]) e s (fun r s' =>
      r = Exit 1 /\
      List.filter (is_call_to "digitalReadBank") (trace s')
      = List.filter (is_call_to "digitalReadBank") (trace s))).
    unfold doBank. change (atoi (arg [a0; a1; bankarg] 2)) with bank.
    wp_run. state_simpl. split; [done |].
    rewrite !List.filter_app. cbn. by rewrite !app_nil_r.
  - intros Hbank. apply Z.ltb_ge in Hbank.
    apply wp_is_eq.
    wp_run. state_simpl. trace_norm. done.
Qed.

End Pins.

(** [gpio write 4 ON], [gpio write 4 Off] and [gpio write 4 2] on the sample
    board. *)
Lemma doWrite_value_witness :
  trace (doWrite (hdr := pi_header) 4 ["gpio"; "write"; "4"; "ON"] pi_env boot).2
  = [Call "digitalWrite" [4; 1]]
  /\ trace (doWrite (hdr := pi_header) 4 ["gpio"; "write"; "4"; "Off"] pi_env boot).2
     = [Call "digitalWrite" [4; 0]]
  /\ trace (doWrite (hdr := pi_header) 4 ["gpio"; "write"; "4"; "2"] pi_env boot).2
     = [Call "digitalWrite" [4; 1]].
Proof.
  pose proof (doWrite_value (hdr := pi_header) pi_env boot "gpio" "write" "4" "ON")
    as (Hon & _).
  pose proof (doWrite_value (hdr := pi_header) pi_env boot "gpio" "write" "4" "Off")
    as (_ & Hoff & _).
  pose proof (doWrite_value (hdr := pi_header) pi_env boot "gpio" "write" "4" "2")
    as (_ & _ & Htwo & _).
  rewrite Hon by (right; reflexivity).
  rewrite Hoff by (right; reflexivity).
  rewrite Htwo by (vm_compute; repeat split; discriminate).
  vm_compute. repeat split.
Defined.

(** [gpio bank -1] and [gpio bank 2] on the sample board. *)
Lemma doBank_reads_negative_bank_witness :
  trace (doBank 3 ["gpio"; "bank"; "-1"] pi_env boot).2
  = [Call "digitalReadBank" [-1]; Stdout ("0x000000FF" +:+ nl)]
  /\ (doBank 3 ["gpio"; "bank"; "2"] pi_env boot).1 = Exit 1.
Proof.
  pose proof (doBank_reads_negative_bank pi_env boot "gpio" "bank" "-1")
    as (_ & Hneg & _).
  pose proof (doBank_reads_negative_bank pi_env boot "gpio" "bank" "2")
    as (Htwo & _).
  split.
  - rewrite Hneg by (vm_compute; discriminate). vm_compute. reflexivity.
  - apply Htwo. vm_compute. reflexivity.
Defined.
(** * The numbering scheme *)

Section Numbering.

Context {hdr : wiringPi_h}.
Implicit Types (e : Env) (s : State).

(** After [-p] has been taken, the second chain runs on the next word; when
    that is neither [-w] nor [-z], the default branch sets up GPIO
    numbering and stores it over the physical scheme. *)
Lemma numbering_after_p e s argc argv :
  casefold (arg argv 1) = "-p" ->
  let argv' := shift_down 1 argc argv in
  strcaseeq (arg argv' 1) "-w" = false ->
  strcaseeq (arg argv' 1) "-z" = false ->
  numbering argc argv e s
  = (Ret (argc - 1, argv'),
     set_wpMode WPI_MODE_GPIO
       (set_trace (trace s ++
          [Call "wiringPiSetupPhys" []; Assign_wpMode WPI_MODE_PHYS;
           Call "wiringPiSetupGpio" []; Assign_wpMode WPI_MODE_GPIO]) s)).
Proof.
  intros Hp argv' Hw Hz. apply wp_is_eq.
  wp_unfold @numbering. fold argv'.
  wp_run. state_simpl. trace_norm. done.
Qed.

(** C1.  [gpio -p read 7]: the scheme is stored twice, and what stays in
    [wpMode] is GPIO numbering, not the physical one the flag asks for. *)
Theorem main_p_flag_ends_in_gpio e s fuel :
  geteuid e = 0 ->
  getenv_WIRINGPI_DEBUG e = false ->
  let out := main fuel 4 ["gpio"; "-p"; "read"; "7"] e s in
  out.1 = Ret EXIT_SUCCESS
  /\ wpMode out.2 = WPI_MODE_GPIO
  /\ exists text,
       drop (length (trace s)) (trace out.2)
       = [Call "wiringPiSetupPhys" []; Assign_wpMode WPI_MODE_PHYS;
          Call "wiringPiSetupGpio" []; Assign_wpMode WPI_MODE_GPIO;
          Call "digitalRead" [7]; Stdout text].
Proof.
  intros Heuid Hdebug out.
  change (wp (main fuel 4 ["gpio"; "-p"; "read"; "7"]) e s (fun r s' =>
    r = Ret EXIT_SUCCESS /\ wpMode s' = WPI_MODE_GPIO /\
    exists text, drop (length (trace s)) (trace s')
      = [Call "wiringPiSetupPhys" []; Assign_wpMode WPI_MODE_PHYS;
         Call "wiringPiSetupGpio" []; Assign_wpMode WPI_MODE_GPIO;
         Call "digitalRead" [7]; Stdout text])).
  apply Z.eqb_eq in Heuid.
  wp_run. wp_unfold doRead. wp_run.
  state_simpl. trace_norm. rewrite added_app.
  split; [done | split; [done |]]. eexists. reflexivity.
Qed.

End Numbering.

(** [gpio -p read 7] on the sample board: 3 is the physical scheme in
    wiringPi.h, 1 is GPIO numbering. *)
Lemma main_p_flag_ends_in_gpio_witness :
  let out := main (hdr := pi_header) 0 4 ["gpio"; "-p"; "read"; "7"] pi_env boot in
  out.1 = Ret 0 /\ wpMode out.2 = 1 /\
  List.filter (fun ev => match ev with Assign_wpMode _ => true | _ => false end)
    (trace out.2) = [Assign_wpMode 3; Assign_wpMode 1].
Proof.
  destruct (main_p_flag_ends_in_gpio (hdr := pi_header) pi_env boot 0
              eq_refl eq_refl) as (Hret & Hmode & text & Htrace).
  cbv zeta. split; [exact Hret | split; [exact Hmode |]].
  change (trace (main (hdr := pi_header) 0 4 ["gpio"; "-p"; "read"; "7"] pi_env boot).2)
    with (drop (length (trace boot))
            (trace (main (hdr := pi_header) 0 4 ["gpio"; "-p"; "read"; "7"]
                      pi_env boot).2)).
  rewrite Htrace. reflexivity.
Defined.
(** * gpio load *)

Section Load.

Implicit Types (e : Env) (s : State).

Lemma findExecutable_in_missing dirs prog e s :
  (forall dir, dir ∈ dirs -> stat_ok e (dir +:+ "/" +:+ prog) = false) ->
  findExecutable_in dirs prog e s = (Ret None, s).
Proof.
  induction dirs as [|dir rest IH]; intros Hmissing; [done|].
  cbn [findExecutable_in]. apply wp_is_eq.
  wp_run.
  - rewrite Hmissing in * by apply list_elem_of_here. discriminate.
  - apply (wp_of_eq _ _ _ (Ret None) s); [| done].
    apply IH. intros d Hd. apply Hmissing. by apply list_elem_of_further.
Qed.

(** When no directory of the search path holds the program,
    findExecutable answers NULL. *)
Lemma findExecutable_missing prog e s :
  (forall dir, dir ∈ searchPath -> stat_ok e (dir +:+ "/" +:+ prog) = false) ->
  findExecutable prog e s = (Ret None, s).
Proof. apply findExecutable_in_missing. Qed.

(** C3.  [gpio load spi] where [modprobe] is in none of the six
    directories: doLoad prints a note on standard output and goes on.
    With both modules already listed it sleeps, changes the owners and
    returns; with the first module not listed it hands the command line
    [(null) spidev] to the shell. *)
Theorem doLoad_goes_on_without_modprobe e s a0 lines :
  stat_ok e "/proc/device-tree" = false ->
  (forall dir, dir ∈ searchPath ->
     stat_ok e (dir +:+ "/" +:+ "modprobe") = false) ->
  modules s = Some lines ->
  let out := doLoad 3 [a0; "load"; "spi"] e s in
  let new := drop (length (trace s)) (trace out.2) in
  (module_listed "spidev" lines = true ->
   module_listed "spi_bcm2708" lines = true ->
   out.1 = Ret tt /\
   exists rest, new = Stdout ("No found" +:+ nl) :: Sleep 1 :: rest)
  /\ (module_listed "spidev" lines = false ->
      exists rest,
        new = Stdout ("No found" +:+ nl) :: System "(null) spidev" :: rest).
Proof.
  intros Hdt Hmissing Hmods out new.
  pose proof (fun s0 => findExecutable_missing "modprobe" e s0 Hmissing) as Hfind.
  split.
  - intros H1 H2.
    change (wp (doLoad 3 [a0; "load"; "spi"]) e s (fun r s' =>
      r = Ret tt /\
      exists rest, drop (length (trace s)) (trace s')
                   = Stdout ("No found" +:+ nl) :: Sleep 1 :: rest)).
    unfold doLoad.
    change (arg [a0; "load"; "spi"] 2) with "spi".
    repeat (wp_run;
            try (apply (wp_of_eq _ _ _ (Ret None) _ _ (Hfind _)))).
    all: state_simpl; trace_norm; rewrite added_app;
      (split; [done |]); eexists; reflexivity.
  - intros H1.
    change (wp (doLoad 3 [a0; "load"; "spi"]) e s (fun r s' =>
      exists rest, drop (length (trace s)) (trace s')
                   = Stdout ("No found" +:+ nl) :: System "(null) spidev" :: rest)).
    unfold doLoad.
    change (arg [a0; "load"; "spi"] 2) with "spi".
    repeat (wp_run;
            try (apply (wp_of_eq _ _ _ (Ret None) _ _ (Hfind _)))).
    all: state_simpl; trace_norm; rewrite added_app; eexists; reflexivity.
Qed.

End Load.

(** On the sample board no [modprobe] exists and both SPI modules are
    listed: [gpio load spi] ends as a success. *)
Lemma doLoad_goes_on_without_modprobe_witness :
  (findExecutable "modprobe" pi_env boot).1 = Ret None
  /\ (doLoad 3 ["gpio"; "load"; "spi"] pi_env boot).1 = Ret tt.
Proof.
  split; [reflexivity |].
  refine (proj1 (proj1 (doLoad_goes_on_without_modprobe pi_env boot "gpio" _
                          eq_refl (fun _ _ => eq_refl) eq_refl) _ _));
    vm_compute; reflexivity.
Defined.
(** * The attribute buffer of gpio exports *)

Section Buffer.

Implicit Types (buf m : Mem) (i j : Z).

Lemma c_str_cons c r :
  c_str (String c r) = String c r -> is_nul c = false /\ c_str r = r.
Proof.
  cbn [c_str]. destruct (is_nul c); [discriminate |].
  intros [= E]. by split.
Qed.

Lemma c_str_app a b : c_str (a +:+ b) = a +:+ b -> c_str a = a /\ c_str b = b.
Proof.
  induction a as [|c a IH]; [done |].
  change (String c a +:+ b) with (String c (a +:+ b)).
  intros [Hc Hr]%c_str_cons. destruct (IH Hr) as [Ha Hb].
  split; [| done]. cbn [c_str]. by rewrite Hc, Ha.
Qed.

Lemma length_snoc s c :
  String.length (s +:+ String c "") = S (String.length s).
Proof.
  induction s as [|c' r IH]; [done |].
  change (String c' r +:+ String c "") with (String c' (r +:+ String c "")).
  cbn [String.length]. by rewrite IH.
Qed.

Lemma poke_string_before s : forall m i j,
  j < i -> poke_string m i s j = m j.
Proof.
  induction s as [|c r IH]; intros m i j Hj; cbn [poke_string]; [done |].
  rewrite IH by lia. unfold poke.
  destruct (Z.eqb_spec j i); [lia | done].
Qed.

Lemma poke_string_app a b : forall m i,
  poke_string m i (a +:+ b)
  = poke_string (poke_string m i a) (i + Z.of_nat (String.length a)) b.
Proof.
  induction a as [|c a IH]; intros m i.
  - cbn [poke_string String.length]. change ("" +:+ b) with b.
    by rewrite Z.add_0_r.
  - change (String c a +:+ b) with (String c (a +:+ b)).
    cbn [poke_string String.length]. rewrite IH. f_equal. lia.
Qed.

(** A memory that holds the text [s] from cell [i] on, with a NUL after it,
    shows [s] and has its length. *)
Lemma peek_string_holds s : forall fuel m m' i,
  c_str s = s -> (String.length s < fuel)%nat ->
  (forall j, i <= j < i + Z.of_nat (String.length s) ->
             m' j = poke_string m i s j) ->
  is_nul (m' (i + Z.of_nat (String.length s))) = true ->
  peek_string fuel m' i = s
  /\ mem_strlen fuel m' i = Z.of_nat (String.length s).
Proof.
  induction s as [|c r IH]; intros fuel m m' i Hs Hfuel Hsame Hend;
    (destruct fuel as [|fuel]; [cbn in Hfuel; lia |]);
    cbn [peek_string mem_strlen String.length] in *.
  - rewrite Z.add_0_r in Hend. by rewrite Hend.
  - apply c_str_cons in Hs as [Hc Hr].
    assert (m' i = c) as Hi.
    { rewrite Hsame by lia. cbn [poke_string].
      rewrite poke_string_before by lia. unfold poke. by rewrite Z.eqb_refl. }
    rewrite Hi, Hc.
    destruct (IH fuel (poke m i c) m' (i + 1)) as [-> ->]; try done.
    + lia.
    + intros j Hj. rewrite Hsame by lia. reflexivity.
    + rewrite <- Hend. f_equal. f_equal. lia.
    + split; [done | lia].
Qed.

(** A read that ends in a newline: the newline is cut off. *)
Lemma read_attribute_strips_newline buf data :
  c_str data = data -> (String.length data <= 15)%nat ->
  shown (read_attribute buf (data +:+ nl)) = data.
Proof.
  intros Hdata Hlen.
  pose proof (length_snoc data "010") as Hl. fold nl in Hl.
  assert (c_str (data +:+ nl) = data +:+ nl) as Hline.
  { clear -Hdata. induction data as [|c r IH]; [done |].
    apply c_str_cons in Hdata as [Hc Hr].
    change (String c r +:+ nl) with (String c (r +:+ nl)). cbn [c_str].
    by rewrite Hc, (IH Hr). }
  unfold shown, read_attribute. rewrite Hl.
  set (l := Z.of_nat (S (String.length data))).
  assert ((l =? 0) = false) as -> by (apply Z.eqb_neq; lia).
  set (b1 := poke_string buf 0 (data +:+ nl)).
  set (b2 := poke b1 l NUL).
  destruct (peek_string_holds (data +:+ nl) 17 buf b2 0 Hline) as [_ Hn].
  { rewrite Hl. lia. }
  { intros j Hj. rewrite Hl in Hj. unfold b2, poke.
    destruct (Z.eqb_spec j l); [lia | done]. }
  { rewrite Hl. unfold b2, poke. cbn [Z.add]. fold l. by rewrite Z.eqb_refl. }
  rewrite Hn, Hl. fold l.
  assert (b2 (l - 1) = "010"%char) as Hlast.
  { unfold b2, poke. destruct (Z.eqb_spec (l - 1) l); [lia |].
    unfold b1. rewrite poke_string_app. cbn [nl poke_string].
    unfold poke. replace (l - 1) with (0 + Z.of_nat (String.length data)) by lia.
    by rewrite Z.eqb_refl. }
  rewrite Hlast. change (code "010" =? 10) with true. cbv iota.
  apply (peek_string_holds data 17 buf (poke b2 (l - 1) NUL) 0 Hdata); [lia | |].
  - intros j Hj. unfold poke, b2, poke.
    destruct (Z.eqb_spec j (l - 1)); [lia |].
    destruct (Z.eqb_spec j l); [lia |].
    unfold b1. rewrite poke_string_app. apply poke_string_before. lia.
  - unfold poke. replace (0 + Z.of_nat (String.length data)) with (l - 1) by lia.
    by rewrite Z.eqb_refl.
Qed.

(** A read that does not end in a newline is shown as it is. *)
Lemma read_attribute_keeps_text buf data c :
  c_str (data +:+ String c "") = data +:+ String c "" ->
  (String.length data <= 15)%nat -> code c <> 10 ->
  shown (read_attribute buf (data +:+ String c "")) = data +:+ String c "".
Proof.
  intros Hline Hlen Hc.
  pose proof (length_snoc data c) as Hl.
  unfold shown, read_attribute. rewrite Hl.
  set (l := Z.of_nat (S (String.length data))).
  assert ((l =? 0) = false) as -> by (apply Z.eqb_neq; lia).
  set (b1 := poke_string buf 0 (data +:+ String c "")).
  set (b2 := poke b1 l NUL).
  destruct (peek_string_holds (data +:+ String c "") 17 buf b2 0 Hline)
    as [Hshown Hn].
  { rewrite Hl. lia. }
  { intros j Hj. rewrite Hl in Hj. unfold b2, poke.
    destruct (Z.eqb_spec j l); [lia | done]. }
  { rewrite Hl. unfold b2, poke. cbn [Z.add]. fold l. by rewrite Z.eqb_refl. }
  rewrite Hn, Hl. fold l.
  assert (b2 (l - 1) = c) as Hlast.
  { unfold b2, poke. destruct (Z.eqb_spec (l - 1) l); [lia |].
    unfold b1. rewrite poke_string_app. cbn [poke_string].
    unfold poke. replace (l - 1) with (0 + Z.of_nat (String.length data)) by lia.
    by rewrite Z.eqb_refl. }
  rewrite Hlast.
  assert ((code c =? 10) = false) as -> by by apply Z.eqb_neq.
  exact Hshown.
Qed.

End Buffer.

Example read_attribute_in : forall buf, shown (read_attribute buf ("in" +:+ nl)) = "in".
Proof.
  intros buf. apply read_attribute_strips_newline; [reflexivity | cbn; lia].
Qed.

(** * gpio exports *)

Section Exports.

Implicit Types (e : Env) (s : State) (buf : Mem).

(** A read of zero bytes: the question mark is stored at [buf [0]] and the
    next statement, [buf [l] = 0] with [l = 0], stores a NUL over it.
    What is shown is the empty string, whatever the stack held. *)
Lemma read_attribute_empty buf : shown (read_attribute buf "") = "".
Proof.
  unfold shown, read_attribute.
  change (Z.of_nat (String.length "")) with 0.
  change (0 =? 0) with true. cbv iota.
  set (b := poke (poke_string (poke_string buf 0 "") 0
                    (String "?" (String NUL ""))) 0 NUL).
  assert (is_nul (b 0) = true) as Hnul by reflexivity.
  assert (mem_strlen 17 b 0 = 0) as -> by (cbn [mem_strlen]; by rewrite Hnul).
  destruct (code (b (0 - 1)) =? 10); cbn [peek_string].
  - change (poke b (0 - 1) NUL 0) with (b 0). by rewrite Hnul.
  - by rewrite Hnul.
Qed.

(** C5.  In the listing of [gpio exports], a pin whose direction file
    reads as zero bytes gets no question mark: after the pin number the
    program prints the empty string, padded to three blanks. *)
Theorem doExports_empty_read_shows_blank e s i first buf :
  files s !! gpio_attr i "direction" = Some "" ->
  files s !! gpio_attr i "value" = None ->
  exists buf',
    doExports_pin i (first, buf) e s
    = (Ret ((if first =? 0 then first + 1 else first), buf'),
       set_trace (trace s ++
         (if first =? 0 then [Stdout ("GPIO Pins exported:" +:+ nl)] else []) ++
         [Stdout (fmt_wd 4 i +:+ ": "); Stdout "   ";
          Stdout ("No Value file (huh?)" +:+ nl)]) s)
    /\ shown buf' = "".
Proof.
  intros Hdir Hval.
  exists (read_attribute buf ""). split; [| apply read_attribute_empty].
  unfold doExports_pin, open_read, get, mbind, M_bind, mret, M_ret.
  rewrite Hdir. cbn [fmap option_fmap option_map string_take String.substring].
  destruct (first =? 0) eqn:Hfirst;
    cbn [printf emit modify mbind M_bind mret M_ret]; state_simpl;
    rewrite Hval;
    cbn [fmap option_fmap option_map printf emit modify mbind M_bind mret M_ret];
    state_simpl; rewrite read_attribute_empty; trace_norm; reflexivity.
Qed.

End Exports.

(** Pin 7 with an empty direction file, on the sample board. *)
Lemma doExports_empty_read_shows_blank_witness :
  trace (doExports_pin 7 (0, stack_garbage pi_env : Mem) pi_env boot_blank_pin).2
  = [Stdout ("GPIO Pins exported:" +:+ nl); Stdout "   7: "; Stdout "   ";
     Stdout ("No Value file (huh?)" +:+ nl)].
Proof.
  pose proof (doExports_empty_read_shows_blank pi_env boot_blank_pin 7 0
                (stack_garbage pi_env)) as Hthm.
  specialize (Hthm ltac:(vm_compute; reflexivity) ltac:(vm_compute; reflexivity)).
  destruct Hthm as (buf' & Hrun & _).
  rewrite Hrun. reflexivity.
Defined.
(** * The words of the command line *)

Section Words.

Context {hdr : wiringPi_h}.
Implicit Types (e : Env) (s : State).

Lemma bind_ext {A B} (m : M A) (k1 k2 : A -> M B) e s :
  (forall a s', k1 a e s' = k2 a e s') -> (m ≫= k1) e s = (m ≫= k2) e s.
Proof. intros Hk. unfold mbind, M_bind. destruct (m e s) as [[a|c| |] s']; auto. Qed.

Lemma streq_folded_ne a b : casefold a <> casefold b -> streq a b = false.
Proof.
  intros Hne. apply not_true_is_false. intros E%streq_true.
  apply Hne. unfold casefold. by rewrite E.
Qed.

Lemma extensions_none rounds argc argv :
  strcaseeq (arg argv 1) "-x" = false ->
  extensions rounds argc argv = mret (argc, argv).
Proof. intros Hx. destruct rounds; cbn [extensions]; by rewrite Hx. Qed.

(** Every test on a word [t] whose folded text is known is decided. *)
Ltac decide_tests t F :=
  rewrite ?(strcaseeq_folded t _ _ F);
  repeat match goal with
         | |- context [String.eqb ?w (casefold ?b)] =>
             let v := eval vm_compute in (String.eqb w (casefold b)) in
             change (String.eqb w (casefold b)) with v
         end.

(** A word that is no help word, not [-v] and not [-warranty] reaches the
    privilege check and, for root, the dispatch. *)
Lemma main_reaches_dispatch e s fuel argc a0 t rest :
  1 < argc ->
  is_help t = false -> streq t "-v" = false -> strcaseeq t "-warranty" = false ->
  geteuid e = 0 ->
  main fuel argc (a0 :: t :: rest) e s
  = (debug_mode;; dispatch fuel argc (a0 :: t :: rest)) e s.
Proof.
  intros Hargc Hhelp Hv Hw Heuid.
  unfold main. apply bind_ext. intros [] s1.
  change (arg (a0 :: t :: rest) 1) with t.
  assert ((argc =? 1) = false) as -> by (apply Z.eqb_neq; lia).
  rewrite Hhelp, Hv, Hw.
  cbv [mbind M_bind mret M_ret skip ask]. rewrite Heuid. reflexivity.
Qed.

Lemma word_is_no_flag t w :
  casefold t = w ->
  String.eqb w "h" = false -> String.eqb w "-h" = false ->
  String.eqb w "-help" = false -> String.eqb w "--help" = false ->
  String.eqb w "help" = false -> String.eqb w "-v" = false ->
  String.eqb w "-warranty" = false ->
  is_help t = false /\ streq t "-v" = false /\ strcaseeq t "-warranty" = false.
Proof.
  intros F H1 H2 H3 H4 H5 H6 H7. unfold is_help.
  rewrite !(strcaseeq_folded t _ _ F).
  change (casefold "h") with "h". change (casefold "-h") with "-h".
  change (casefold "-help") with "-help". change (casefold "--help") with "--help".
  change (casefold "help") with "help". change (casefold "-warranty") with "-warranty".
  rewrite H1, H2, H3, H4, H5, H7. repeat split.
  apply streq_folded_ne. rewrite F. change (casefold "-v") with "-v".
  by apply String.eqb_neq.
Qed.

(** A word that folds to the name of an early command runs that command. *)
Lemma dispatch_early fuel argc a0 t rest name h :
  (name, h) ∈ early_commands -> casefold t = casefold name ->
  dispatch fuel argc (a0 :: t :: rest) = (h argc (a0 :: t :: rest);; mret 0).
Proof.
  intros Hin F. unfold early_commands in Hin.
  unfold dispatch. change (arg (a0 :: t :: rest) 1) with t.
  repeat (apply elem_of_cons in Hin as [Hin|Hin]);
    try (by apply elem_of_nil in Hin); injection Hin as -> ->;
    match type of F with
    | _ = casefold ?n =>
        let v := eval vm_compute in (casefold n) in change (casefold n) with v in F
    end;
    decide_tests t F; reflexivity.
Qed.

(** A word that is none of those tested before the core commands gets the
    default numbering scheme and reaches the core commands. *)
Lemma dispatch_reaches_core e s fuel argc a0 t rest :
  Forall (fun w => strcaseeq t w = false) words_before_core ->
  1 < argc ->
  dispatch fuel argc (a0 :: t :: rest) e s
  = (call "wiringPiSetupGpio" [];; assign_wpMode WPI_MODE_GPIO;;
     core fuel argc (a0 :: t :: rest);; mret EXIT_SUCCESS) e s.
Proof.
  intros Hwords Hargc. unfold words_before_core in Hwords.
  assert ((argc <=? 1) = false) as Hle by (apply Z.leb_gt; lia).
  repeat (apply Forall_cons in Hwords as [? Hwords]).
  unfold dispatch, numbering.
  change (arg (a0 :: t :: rest) 1) with t.
  repeat match goal with E : strcaseeq t _ = false |- _ => rewrite E end.
  cbv [mbind M_bind mret M_ret].
  change (arg (a0 :: t :: rest) 1) with t.
  repeat match goal with E : strcaseeq t _ = false |- _ => rewrite E end.
  cbv [mbind M_bind skip call emit modify assign_wpMode mret M_ret].
  rewrite extensions_none by done.
  cbv [mret M_ret]. rewrite Hle. reflexivity.
Qed.

Lemma lookup_word_found {H : Type} (table : list (string * H)) name h w :
  NoDup (map (fun p => casefold p.1) table) ->
  (name, h) ∈ table -> w = casefold name ->
  lookup_word w table = Some h.
Proof.
  intros Hnodup Hin ->.
  induction table as [|[n0 h0] table IH]; [by apply elem_of_nil in Hin|].
  cbn [map fst] in Hnodup. apply NoDup_cons in Hnodup as [Hfresh Hnodup].
  cbn [lookup_word].
  apply elem_of_cons in Hin as [Hin|Hin].
  - injection Hin as <- <-. by rewrite String.eqb_refl.
  - destruct (String.eqb_spec (casefold name) (casefold n0)) as [E|E].
    + exfalso. apply Hfresh. rewrite <- E.
      apply list_elem_of_fmap. by exists (name, h).
    + by apply IH.
Qed.

(** The chain of comparisons of the core commands reads the table. *)
Lemma core_is_lookup fuel argc argv :
  core fuel argc argv
  = match lookup_word (casefold (arg argv 1)) (core_commands fuel) with
    | Some h => h argc argv
    | None =>
        fail_with ("[FATAL] " +:+ basename (arg argv 0) +:+ ": Unknown command: "
                   +:+ arg argv 1 +:+ "." +:+ nl) EXIT_FAILURE
    end.
Proof.
  unfold core, core_commands. cbv zeta. rewrite !strcaseeq_casefold.
  cbn [lookup_word].
  repeat (destruct (String.eqb (casefold (arg argv 1)) _); [reflexivity|]).
  reflexivity.
Qed.

Lemma core_names_distinct fuel :
  NoDup (map (fun p => casefold p.1) (core_commands fuel)).
Proof.
  unfold core_commands. cbn [map fst].
  apply (bool_decide_unpack _). vm_compute. exact I.
Qed.

(** No core command folds to a word that is tested before the core
    commands. *)
Lemma core_names_apart fuel name h :
  (name, h) ∈ core_commands fuel ->
  Forall (fun w => String.eqb (casefold name) (casefold w) = false)
         words_before_core.
Proof.
  intros Hin. unfold core_commands in Hin.
  repeat (apply elem_of_cons in Hin as [Hin|Hin]);
    try (by apply elem_of_nil in Hin); injection Hin as -> ->;
    unfold words_before_core;
    repeat (constructor; [vm_compute; reflexivity|]); constructor.
Qed.

(** A word that folds to the name of a core command runs that command. *)
Lemma core_runs fuel argc a0 t rest name h :
  (name, h) ∈ core_commands fuel -> casefold t = casefold name ->
  core fuel argc (a0 :: t :: rest) = h argc (a0 :: t :: rest)
  /\ Forall (fun w => strcaseeq t w = false) words_before_core.
Proof.
  intros Hin F. split.
  - rewrite core_is_lookup. change (arg (a0 :: t :: rest) 1) with t.
    by rewrite (lookup_word_found _ name h _ (core_names_distinct fuel) Hin F).
  - eapply Forall_impl; [by apply (core_names_apart fuel name h)|].
    intros w Hw. cbv beta in Hw. by rewrite strcaseeq_casefold, F.
Qed.

(** The folded text of a command name is none of the words tested before
    the dispatch. *)
Lemma command_word_is_no_flag fuel t name h :
  (name, h) ∈ (early_commands ++ core_commands fuel)%list ->
  casefold t = casefold name ->
  is_help t = false /\ streq t "-v" = false /\ strcaseeq t "-warranty" = false.
Proof.
  intros Hin F. unfold early_commands, core_commands in Hin. cbn [app] in Hin.
  repeat (apply elem_of_cons in Hin as [Hin|Hin]);
    try (by apply elem_of_nil in Hin); injection Hin as -> ->;
    by apply (word_is_no_flag t _ F).
Qed.

(** C9.  Only the exact word [-v] is the version flag: it runs doVersion
    and ends with exit code 0, and what it prints begins with an empty
    line, the line [gpio version:] with the two numbers of the library
    and the copyright line.  [-V] goes on to the privilege check: without
    root it ends there with exit code 1; for root it gets the default
    numbering scheme and then ends as an unknown command, with exit code
    1 and without any line of the version.  The help words and every
    command name are taken in any mix of upper and lower case. *)
Theorem version_flag_is_case_sensitive e s fuel argc a0 rest :
  1 < argc ->
  main fuel argc (a0 :: "-v" :: rest) e s
  = (debug_mode;; doVersion (a0 :: "-v" :: rest);; exit EXIT_SUCCESS) e s
  /\ (geteuid e <> 0 ->
      main fuel argc (a0 :: "-V" :: rest) e s
      = (debug_mode;;
         fail_with (a0 +:+
           ": Must be root to run. Program should be suid root. This is an error."
           +:+ nl) EXIT_FAILURE) e s)
  /\ (geteuid e = 0 ->
      main fuel argc (a0 :: "-V" :: rest) e s
      = (debug_mode;; call "wiringPiSetupGpio" [];; assign_wpMode WPI_MODE_GPIO;;
         fail_with ("[FATAL] " +:+ basename a0 +:+ ": Unknown command: -V." +:+ nl)
                   EXIT_FAILURE) e s)
  /\ (forall t, casefold t ∈ help_words ->
      main fuel argc (a0 :: t :: rest) e s
      = (debug_mode;; printf (usage +:+ nl);; exit EXIT_SUCCESS) e s)
  /\ (forall t name h,
        (name, h) ∈ early_commands -> casefold t = casefold name ->
        geteuid e = 0 ->
        main fuel argc (a0 :: t :: rest) e s
        = (debug_mode;; h argc (a0 :: t :: rest);; mret 0) e s)
  /\ (forall t name h,
        (name, h) ∈ core_commands fuel -> casefold t = casefold name ->
        geteuid e = 0 ->
        main fuel argc (a0 :: t :: rest) e s
        = (debug_mode;; call "wiringPiSetupGpio" [];;
           assign_wpMode WPI_MODE_GPIO;;
           h argc (a0 :: t :: rest);; mret EXIT_SUCCESS) e s)
  /\ (let out := main fuel argc (a0 :: "-v" :: rest) e s in
      out.1 = Exit 0
      /\ exists more,
           trace out.2
           = (trace s ++ debug_note e ++
              [Call "wiringPiVersion" []; Stdout nl;
               Stdout ("gpio version: " +:+ fmt_d (wiringPiVersion_ret e).1
                       +:+ "." +:+ fmt_d (wiringPiVersion_ret e).2 +:+ nl);
               Stdout ("Copyright (c) 2012-2018 Gordon Henderson" +:+ nl)]
              ++ more)%list)
  /\ (geteuid e <> 0 ->
      let out := main fuel argc (a0 :: "-V" :: rest) e s in
      out.1 = Exit 1
      /\ trace out.2
         = (trace s ++ debug_note e ++
            [Stderr (a0 +:+
               ": Must be root to run. Program should be suid root. This is an error."
               +:+ nl)])%list)
  /\ (geteuid e = 0 ->
      let out := main fuel argc (a0 :: "-V" :: rest) e s in
      out.1 = Exit 1
      /\ trace out.2
         = (trace s ++ debug_note e ++
            [Call "wiringPiSetupGpio" []; Assign_wpMode WPI_MODE_GPIO;
             Stderr ("[FATAL] " +:+ basename a0 +:+ ": Unknown command: -V."
                     +:+ nl)])%list).
Proof.
  intros Hargc.
  assert ((argc =? 1) = false) as Hne by (apply Z.eqb_neq; lia).
  assert ((argc <=? 1) = false) as Hle by (apply Z.leb_gt; lia).
  assert (main fuel argc (a0 :: "-v" :: rest) e s
          = (debug_mode;; doVersion (a0 :: "-v" :: rest);; exit EXIT_SUCCESS) e s)
    as Hversion.
  { unfold main. apply bind_ext. intros [] s1. rewrite Hne.
    change (is_help (arg (a0 :: "-v" :: rest) 1)) with false.
    change (streq (arg (a0 :: "-v" :: rest) 1) "-v") with true.
    cbv [mbind M_bind mret M_ret skip exit].
    by destruct (doVersion (a0 :: "-v" :: rest) e s1) as [[?|?| |] ?]. }
  assert (geteuid e <> 0 ->
          main fuel argc (a0 :: "-V" :: rest) e s
          = (debug_mode;;
             fail_with (a0 +:+
               ": Must be root to run. Program should be suid root. This is an error."
               +:+ nl) EXIT_FAILURE) e s) as Huser.
  { intros Heuid. apply Z.eqb_neq in Heuid.
    unfold main. apply bind_ext. intros [] s1. rewrite Hne.
    cbv [mbind M_bind mret M_ret skip ask]. cbn [is_help].
    change (is_help (arg (a0 :: "-V" :: rest) 1)) with false.
    change (streq (arg (a0 :: "-V" :: rest) 1) "-v") with false.
    change (strcaseeq (arg (a0 :: "-V" :: rest) 1) "-warranty") with false.
    cbv iota. rewrite Heuid. reflexivity. }
  assert (geteuid e = 0 ->
          main fuel argc (a0 :: "-V" :: rest) e s
          = (debug_mode;; call "wiringPiSetupGpio" [];; assign_wpMode WPI_MODE_GPIO;;
             fail_with ("[FATAL] " +:+ basename a0 +:+ ": Unknown command: -V." +:+ nl)
                       EXIT_FAILURE) e s) as Hroot.
  { intros Heuid.
    rewrite main_reaches_dispatch by done.
    apply bind_ext. intros [] s1.
    unfold dispatch, numbering.
    change (arg (a0 :: "-V" :: rest) 1) with "-V".
    repeat match goal with
           | |- context [strcaseeq "-V" ?b] =>
               let v := eval vm_compute in (strcaseeq "-V" b) in
               change (strcaseeq "-V" b) with v
           end.
    cbv [mbind M_bind mret M_ret].
    change (arg (a0 :: "-V" :: rest) 1) with "-V".
    repeat match goal with
           | |- context [strcaseeq "-V" ?b] =>
               let v := eval vm_compute in (strcaseeq "-V" b) in
               change (strcaseeq "-V" b) with v
           end.
    cbv [mbind M_bind skip call emit modify assign_wpMode mret M_ret].
    rewrite extensions_none by reflexivity.
    cbv [mret M_ret]. rewrite Hle.
    cbv [mbind M_bind skip mret M_ret fail_with eprintf emit modify exit].
    unfold core. change (arg (a0 :: "-V" :: rest) 1) with "-V".
    repeat match goal with
           | |- context [strcaseeq "-V" ?b] =>
               let v := eval vm_compute in (strcaseeq "-V" b) in
               change (strcaseeq "-V" b) with v
           end.
    reflexivity. }
  split; [| split; [| split; [| split; [| split; [| split; [| split; [| split]]]]]]].
  - exact Hversion.
  - exact Huser.
  - exact Hroot.
  - intros t Ht. unfold help_words in Ht.
    unfold main. apply bind_ext. intros [] s1. rewrite Hne.
    change (arg (a0 :: t :: rest) 1) with t. unfold is_help.
    repeat (apply elem_of_cons in Ht as [Ht|Ht]);
      try (by apply elem_of_nil in Ht);
      decide_tests t Ht; reflexivity.
  - intros t name h Hin F Heuid.
    destruct (command_word_is_no_flag fuel t name h) as (H1 & H2 & H3);
      [apply elem_of_app; by left | done |].
    rewrite main_reaches_dispatch by done.
    by rewrite (dispatch_early fuel argc a0 t rest name h).
  - intros t name h Hin F Heuid.
    destruct (command_word_is_no_flag fuel t name h) as (H1 & H2 & H3);
      [apply elem_of_app; by right | done |].
    destruct (core_runs fuel argc a0 t rest name h Hin F) as [Hcore Hwords].
    rewrite main_reaches_dispatch by done.
    apply bind_ext. intros [] s1.
    rewrite dispatch_reaches_core by done. by rewrite Hcore.
  - cbv zeta. rewrite Hversion.
    change (wp (A := Z) (debug_mode;; doVersion (a0 :: "-v" :: rest);; exit EXIT_SUCCESS) e s
              (fun r s' =>
                 r = Exit 0
                 /\ exists more,
                      trace s'
                      = (trace s ++ debug_note e ++
                         [Call "wiringPiVersion" []; Stdout nl;
                          Stdout ("gpio version: " +:+ fmt_d (wiringPiVersion_ret e).1
                                  +:+ "." +:+ fmt_d (wiringPiVersion_ret e).2 +:+ nl);
                          Stdout ("Copyright (c) 2012-2018 Gordon Henderson" +:+ nl)]
                         ++ more)%list)).
    unfold debug_note.
    wp_run; wp_unfold doVersion; wp_run; state_simpl; trace_norm;
      match goal with H : getenv_WIRINGPI_DEBUG e = _ |- _ => rewrite H end;
      cbn [fst snd app];
      (split; [reflexivity | eexists; reflexivity]).
  - intros Heuid. cbv zeta. rewrite (Huser Heuid).
    change (wp (A := Z) (debug_mode;;
                fail_with (a0 +:+
                  ": Must be root to run. Program should be suid root. This is an error."
                  +:+ nl) EXIT_FAILURE) e s
              (fun r s' =>
                 r = Exit 1
                 /\ trace s'
                    = (trace s ++ debug_note e ++
                       [Stderr (a0 +:+
                          ": Must be root to run. Program should be suid root. This is an error."
                          +:+ nl)])%list)).
    unfold debug_note.
    wp_run; state_simpl; trace_norm;
      match goal with H : getenv_WIRINGPI_DEBUG e = _ |- _ => rewrite H end;
      split; reflexivity.
  - intros Heuid. cbv zeta. rewrite (Hroot Heuid).
    change (wp (A := Z) (debug_mode;; call "wiringPiSetupGpio" [];;
                assign_wpMode WPI_MODE_GPIO;;
                fail_with ("[FATAL] " +:+ basename a0 +:+ ": Unknown command: -V."
                           +:+ nl) EXIT_FAILURE) e s
              (fun r s' =>
                 r = Exit 1
                 /\ trace s'
                    = (trace s ++ debug_note e ++
                       [Call "wiringPiSetupGpio" []; Assign_wpMode WPI_MODE_GPIO;
                        Stderr ("[FATAL] " +:+ basename a0 +:+ ": Unknown command: -V."
                                +:+ nl)])%list)).
    unfold debug_note.
    wp_run; state_simpl; trace_norm;
      match goal with H : getenv_WIRINGPI_DEBUG e = _ |- _ => rewrite H end;
      split; reflexivity.
Qed.

End Words.

(** [gpio -v], [gpio -V], [gpio HELP], [gpio ReadAll] and [gpio EXPORTS] as
    root on the sample board, whose library is version 3.16. *)
Lemma version_flag_is_case_sensitive_witness :
  (main (hdr := pi_header) 0 2 ["gpio"; "-v"] pi_env boot).1 = Exit 0
  /\ trace (main (hdr := pi_header) 0 2 ["gpio"; "-v"] pi_env boot).2 !! 2%nat
     = Some (Stdout ("gpio version: 3.16" +:+ nl))
  /\ (main (hdr := pi_header) 0 2 ["gpio"; "-V"] pi_env boot).1 = Exit 1
  /\ trace (main (hdr := pi_header) 0 2 ["gpio"; "-V"] pi_env boot).2
     = [Call "wiringPiSetupGpio" []; Assign_wpMode 1;
        Stderr ("[FATAL] gpio: Unknown command: -V." +:+ nl)]
  /\ last (trace (main (hdr := pi_header) 0 2 ["gpio"; "-V"] pi_env boot).2)
     = Some (Stderr ("[FATAL] gpio: Unknown command: -V." +:+ nl))
  /\ (main (hdr := pi_header) 0 2 ["gpio"; "HELP"] pi_env boot).1 = Exit 0
  /\ trace (main (hdr := pi_header) 0 2 ["gpio"; "ReadAll"] pi_env boot).2
     = [Call "wiringPiSetupGpio" []; Assign_wpMode 1; CallExt "doReadall" []]
  /\ (main (hdr := pi_header) 0 2 ["gpio"; "EXPORTS"] pi_env boot).1 = Ret 0.
Proof.
  destruct (version_flag_is_case_sensitive (hdr := pi_header) pi_env boot 0 2
              "gpio" [] ltac:(reflexivity))
    as (_ & _ & _ & Hhelp & Hearly & Hcore & Hprints & _ & Hroot).
  cbv zeta in Hprints, Hroot.
  destruct Hprints as (Hexit & more & Htrace).
  destruct (Hroot eq_refl) as (HVexit & HVtrace).
  rewrite Hexit, Htrace, HVexit, HVtrace.
  rewrite (Hhelp "HELP")
    by (unfold help_words;
        repeat first [ apply list_elem_of_here | apply list_elem_of_further ]).
  rewrite (Hcore "ReadAll" "readall" (fun _ _ => emit (CallExt "doReadall" [])))
    by first [ reflexivity
             | unfold core_commands;
               repeat first [ apply list_elem_of_here | apply list_elem_of_further ] ].
  rewrite (Hearly "EXPORTS" "exports" doExports)
    by first [ reflexivity
             | unfold early_commands;
               repeat first [ apply list_elem_of_here | apply list_elem_of_further ] ].
  vm_compute. repeat split.
Defined.
(** * Waiting for interrupts *)

Section Interrupts.

Context {hdr : wiringPi_h}.
Implicit Types (e : Env) (s : State).

(** The callback runs once for every edge of a slot: the counter grows by
    their number and one line is printed for each. *)
Lemma for_each_wfi pins e s :
  exists prints,
    for_each pins (fun pin _ => wfi pin) tt e s
    = (Ret tt,
       set_trace (trace s ++ prints)
         (set_nInts (nInts s + Z.of_nat (length pins)) s))
    /\ List.filter is_delay prints = [].
Proof.
  revert s. induction pins as [|pin pins IH]; intros s.
  - exists []. split; [| done].
    destruct s as [fs ms wm ni dbg slot tr]. state_simpl. cbn [length Z.of_nat].
    by rewrite Z.add_0_r, app_nil_r.
  - cbn [for_each].
    destruct (IH (set_trace (trace s ++
                    [Stdout ("wfi: Interrupt on pin " +:+ fmt_d pin +:+ "; nInts="
                             +:+ fmt_d (nInts s + 1) +:+ nl)])
                    (set_nInts (nInts s + 1) s))) as (prints & Hrun & Hquiet).
    exists (Stdout ("wfi: Interrupt on pin " +:+ fmt_d pin +:+ "; nInts="
                    +:+ fmt_d (nInts s + 1) +:+ nl) :: prints).
    split; [| exact Hquiet].
    unfold mbind, M_bind.
    change (wfi pin e s) with
      (Ret tt, set_trace (trace s ++
                 [Stdout ("wfi: Interrupt on pin " +:+ fmt_d pin +:+ "; nInts="
                          +:+ fmt_d (nInts s + 1) +:+ nl)])
                 (set_nInts (nInts s + 1) s)).
    cbv iota. rewrite Hrun. f_equal.
    destruct s as [fs ms wm ni dbg slot tr]. state_simpl. f_equal.
    + cbn [length]. lia.
    + by rewrite <- app_assoc.
Qed.

Lemma wp_interrupts_wfi e s (Q : Result unit -> State -> Prop) :
  (forall prints, List.filter is_delay prints = [] ->
     Q (Ret tt)
       (set_trace (trace s ++ prints)
          (set_nInts (nInts s + Z.of_nat (length (irq e (irq_slot s))))
             (set_irq_slot (S (irq_slot s)) s)))) ->
  wp (interrupts wfi) e s Q.
Proof.
  intros HQ. unfold interrupts.
  wp_run.
  destruct (for_each_wfi (irq e (irq_slot s)) e
              {| files := files s; modules := modules s; wpMode := wpMode s;
                 nInts := nInts s; wiringPiDebug := wiringPiDebug s;
                 irq_slot := S (irq_slot s); trace := trace s |})
    as (prints & Hrun & Hquiet).
  eapply wp_of_eq; [exact Hrun |].
  apply (HQ prints Hquiet).
Qed.

(** The polling loop.  After [k] rounds, each a delay of 100 ms and one
    interrupt slot, it has seen the edges of these [k] slots; it leaves only
    when the counter has reached [n], and it left no earlier round because
    the counter was still below [n]. *)
Lemma wp_wait_interrupts fuel n e s (Q : Result unit -> State -> Prop) :
  (forall k new r s',
     (k <= fuel)%nat ->
     irq_slot s' = (irq_slot s + k)%nat ->
     nInts s' = nInts s + delivered e (irq_slot s) k ->
     trace s' = (trace s ++ new)%list ->
     List.filter is_delay new = repeat (DelayMs 100) k ->
     (forall j, (j < k)%nat -> nInts s + delivered e (irq_slot s) j < n) ->
     (r = Ret tt /\ n <= nInts s') \/ (r = Running /\ k = fuel /\ nInts s' < n) ->
     Q r s') ->
  wp (wait_interrupts fuel n) e s Q.
Proof.
  revert s Q. induction fuel as [|fuel IH]; intros s Q HQ.
  - cbn [wait_interrupts]. wp_run.
    + apply (HQ 0%nat []); cbn; rewrite ?Nat.add_0_r, ?Z.add_0_r, ?app_nil_r;
        try done; [lia | right; repeat split; lia].
    + apply (HQ 0%nat []); cbn; rewrite ?Nat.add_0_r, ?Z.add_0_r, ?app_nil_r;
        try done; [lia | left; split; [done | lia]].
  - cbn [wait_interrupts]. wp_run.
    + apply wp_interrupts_wfi. intros prints Hquiet. state_simpl.
      apply IH. intros k new r s' Hk Hslot Hn Htrace Hdelays Hbelow Hend.
      revert Hslot Hn Htrace Hbelow Hend. state_simpl. intros.
      apply (HQ (S k) (DelayMs 100 :: prints ++ new)).
      * lia.
      * lia.
      * cbn [delivered]. lia.
      * rewrite Htrace. rewrite <- !app_assoc. reflexivity.
      * cbn [List.filter is_delay repeat]. rewrite List.filter_app, Hquiet, Hdelays.
        reflexivity.
      * intros [|j] Hj; cbn [delivered]; [lia |].
        specialize (Hbelow j ltac:(lia)). lia.
      * destruct Hend as [[-> ?]|(-> & -> & ?)]; [left | right]; repeat split; lia.
    + apply (HQ 0%nat []); cbn; rewrite ?Nat.add_0_r, ?Z.add_0_r, ?app_nil_r;
        try done; [lia | lia | left; split; [done | lia]].
Qed.




End Interrupts.

(** * The argument vector, the search path and the module list *)

Section Vectors.

Implicit Types (e : Env) (s : State) (argv : list string).

Lemma arg_out_of_range argv j : (length argv <= j)%nat -> arg argv j = "".
Proof.
  intros Hj. unfold arg. rewrite list_lookup_total_alt.
  by rewrite (lookup_ge_None_2 argv j Hj).
Qed.

(** The copying loop over [len] indices from [S k] on: every word it has
    passed stands [k] places lower, the rest is as it was. *)
Lemma shift_loop k len argv j :
  arg (foldl (fun a i => <[(i - k)%nat := arg a i]> a) argv (seq (S k) len)) j
  = if bool_decide (1 <= j /\ j < S len)%nat then arg argv (j + k) else arg argv j.
Proof.
  induction len as [|len IH].
  - cbn [seq foldl]. by rewrite bool_decide_eq_false_2 by lia.
  - rewrite seq_S, foldl_snoc.
    set (a := foldl _ argv (seq (S k) len)) in *.
    replace (S k + len - k)%nat with (S len) by lia.
    assert (arg a (S k + len) = arg argv (S k + len)) as Hread.
    { specialize (IH). clear IH.
      subst a.
      enough (forall m, (S len <= m)%nat ->
                arg (foldl (fun a i => <[(i - k)%nat := arg a i]> a) argv
                       (seq (S k) len)) m = arg argv m) as H by (apply H; lia).
      clear j. induction len as [|len IH]; intros m Hm; [done |].
      rewrite seq_S, foldl_snoc.
      unfold arg at 1. rewrite list_lookup_total_insert_ne by lia.
      apply IH. lia. }
    unfold arg at 1. rewrite list_lookup_total_insert.
    fold (arg a j). rewrite Hread.
    destruct (decide (S len = j /\ (S len < length a)%nat)) as [[<- Hlen]|Hno].
    + rewrite bool_decide_eq_true_2 by lia. f_equal. lia.
    + rewrite IH.
      destruct (decide (j = S len)) as [->|Hj].
      * rewrite bool_decide_eq_false_2 by lia.
        rewrite bool_decide_eq_true_2 by lia.
        assert (length a <= S len)%nat as Hshort by lia.
        assert (length a = length argv) as Hsame.
        { subst a. clear. induction len as [|len IH]; [done |].
          by rewrite seq_S, foldl_snoc, length_insert. }
        rewrite !arg_out_of_range by lia. done.
      * destruct (decide (1 <= j /\ j < S len)%nat).
        -- by rewrite !bool_decide_eq_true_2 by lia.
        -- by rewrite !bool_decide_eq_false_2 by lia.
Qed.

(** X1.  [for (i = k + 1; i < argc; ++i) argv [i - k] = argv [i];] moves the
    words after the first [k + 1] down by [k] places.  The program name
    stays, and so do the last [k] words: they are not cleared, the caller
    only lowers [argc]. *)
Theorem shift_down_moves_words k argc argv j :
  length (shift_down k argc argv) = length argv
  /\ arg (shift_down k argc argv) j
     = if bool_decide (1 <= j /\ j + k < Z.to_nat argc)%nat
       then arg argv (j + k) else arg argv j.
Proof.
  unfold shift_down. split.
  - generalize (Z.to_nat argc - S k)%nat. intros len.
    induction len as [|len IH]; [done |].
    by rewrite seq_S, foldl_snoc, length_insert.
  - rewrite shift_loop.
    destruct (decide (1 <= j /\ j + k < Z.to_nat argc)%nat).
    + by rewrite !bool_decide_eq_true_2 by lia.
    + by rewrite !bool_decide_eq_false_2 by lia.
Qed.

(** [findExecutable] over a list of directories: the first one that holds
    the program, none when no directory holds it.  The state is untouched. *)
Lemma findExecutable_in_scan dirs prog e s :
  (findExecutable_in dirs prog e s).2 = s
  /\ match (findExecutable_in dirs prog e s).1 with
     | Ret (Some path) =>
         exists before dir rest,
           dirs = (before ++ dir :: rest)%list /\ path = in_dir dir prog /\
           stat_ok e path = true /\
           Forall (fun d => stat_ok e (in_dir d prog) = false) before
     | Ret None => Forall (fun d => stat_ok e (in_dir d prog) = false) dirs
     | _ => False
     end.
Proof.
  induction dirs as [|dir rest IH]; [split; [reflexivity | constructor] |].
  cbn [findExecutable_in]. unfold mbind, M_bind, ask. fold (in_dir dir prog).
  destruct (stat_ok e (in_dir dir prog)) eqn:Hstat; cbn.
  - split; [done |]. by exists [], dir, rest.
  - destruct IH as [Hstate IH]. split; [done |].
    destruct (findExecutable_in rest prog e s) as [[[path|]|c| |] s']; cbn in *;
      try done.
    + destruct IH as (before & d & rest' & -> & -> & Hok & Hbefore).
      exists (dir :: before), d, rest'. repeat split; try done.
      by constructor.
    + by constructor.
Qed.

(** X2.  The path [findExecutable] answers is the program in the first of the
    six fixed directories, in the order of [searchPath], where [stat]
    succeeds; NULL means [stat] failed in all six.  Nothing else is
    consulted and nothing is changed. *)
Theorem findExecutable_first_match prog e s :
  (findExecutable prog e s).2 = s
  /\ match (findExecutable prog e s).1 with
     | Ret (Some path) =>
         exists before dir rest,
           searchPath = (before ++ dir :: rest)%list /\
           path = in_dir dir prog /\ stat_ok e path = true /\
           Forall (fun d => stat_ok e (in_dir d prog) = false) before
     | Ret None => Forall (fun d => stat_ok e (in_dir d prog) = false) searchPath
     | _ => False
     end.
Proof. apply findExecutable_in_scan. Qed.

Lemma strncmp_go_prefix name : forall line,
  strncmp_go (String.length (c_str name)) line (c_str name) = 0
  <-> exists rest, line = c_str name +:+ rest.
Proof.
  induction name as [|c r IH]; intros line; cbn [c_str].
  - cbn. split; [by exists line | done].
  - destruct (is_nul c) eqn:Hc.
    + cbn. split; [by exists line | done].
    + apply is_nul_false_code in Hc. cbn [String.length strncmp_go].
      destruct line as [|c1 r1].
      * split; [lia | by intros [rest [=]]].
      * destruct (Z.eqb_spec (code c1 - code c) 0) as [E|E].
        -- assert (c1 = c) as -> by (apply code_inj; lia).
           rewrite IH. split; intros [rest Hrest]; exists rest.
           ++ by rewrite Hrest.
           ++ by injection Hrest.
        -- split; [done |]. intros [rest [= -> _]]. lia.
Qed.

Lemma length_line (text : string) :
  String.length (text +:+ nl) = S (String.length text).
Proof. apply length_snoc. Qed.

Lemma string_app_assoc (a b c : string) : (a +:+ b) +:+ c = a +:+ (b +:+ c).
Proof.
  induction a as [|x a IH]; [done |].
  change (String x a +:+ b) with (String x (a +:+ b)).
  change (String x (a +:+ b) +:+ c) with (String x ((a +:+ b) +:+ c)).
  change (String x a +:+ (b +:+ c)) with (String x (a +:+ (b +:+ c))).
  by rewrite IH.
Qed.

Lemma string_length_app (a b : string) :
  String.length (a +:+ b) = (String.length a + String.length b)%nat.
Proof.
  induction a as [|x a IH]; [done |].
  change (String x a +:+ b) with (String x (a +:+ b)).
  cbn [String.length]. by rewrite IH.
Qed.

Lemma string_drop_app (a b : string) : string_drop (String.length a) (a +:+ b) = b.
Proof.
  induction a as [|x a IH]; [by destruct b |].
  change (String x a +:+ b) with (String x (a +:+ b)).
  cbn [String.length string_drop]. exact IH.
Qed.

(** A line with its newline within the first [n] characters is what
    [fgets] delivers. *)
Lemma fgets_short_line body : forall n rest,
  has_newline body = false -> (String.length body < n)%nat ->
  fgets n (body +:+ nl +:+ rest) = body +:+ nl.
Proof.
  induction body as [|c body IH]; intros n rest Hnl Hlen.
  - destruct n as [|n]; [cbn in Hlen; lia |]. reflexivity.
  - destruct n as [|n]; [cbn in Hlen; lia |].
    cbn [has_newline] in Hnl. apply orb_false_iff in Hnl as [Hc Hnl].
    change (String c body +:+ nl +:+ rest)
      with (String c (body +:+ nl +:+ rest)).
    change (String c body +:+ nl) with (String c (body +:+ nl)).
    cbn [fgets]. rewrite Hc. f_equal.
    apply IH; [done | cbn in Hlen; lia].
Qed.

Lemma string_drop_length (content : string) : forall n,
  String.length (string_drop n content) = (String.length content - n)%nat.
Proof.
  induction content as [|c r IH]; intros [|n]; cbn [string_drop String.length];
    first [done | apply IH].
Qed.

Lemma fgets_takes_one c r n : (1 <= String.length (fgets (S n) (String c r)))%nat.
Proof. cbn [fgets]. destruct (code c =? 10); cbn; lia. Qed.

(** The rounds given to the reading loop are enough: more of them read
    the same pieces. *)
Lemma fgets_all_fuel fuel : forall fuel' content,
  (String.length content <= fuel)%nat -> (String.length content <= fuel')%nat ->
  fgets_all fuel content = fgets_all fuel' content.
Proof.
  induction fuel as [|fuel IH]; intros fuel' content Hfuel Hfuel'.
  - destruct content; [| cbn in Hfuel; lia]. by destruct fuel'.
  - destruct content as [|c r]; [by destruct fuel' |].
    destruct fuel' as [|fuel']; [cbn in Hfuel'; lia |].
    cbn [fgets_all]. change (String.eqb (String c r) "") with false. cbv iota zeta.
    f_equal.
    pose proof (fgets_takes_one c r 78) as Hone.
    apply IH; rewrite string_drop_length; cbn [String.length] in *; lia.
Qed.

(** A file of short lines is read line by line. *)
Lemma fgets_all_short_lines lines :
  Forall short_line lines ->
  forall fuel, (String.length (file_of_lines lines) <= fuel)%nat ->
  fgets_all fuel (file_of_lines lines) = lines.
Proof.
  induction 1 as [|line lines (body & -> & Hnl & Hlen) _ IH]; intros fuel Hfuel.
  - by destruct fuel.
  - cbn [file_of_lines foldr] in *. fold (file_of_lines lines) in *.
    rewrite string_length_app, length_line in Hfuel.
    destruct fuel as [|fuel]; [lia |].
    cbn [fgets_all].
    assert (String.eqb ((body +:+ nl) +:+ file_of_lines lines) "" = false) as ->.
    { apply String.eqb_neq. intros E.
      apply (f_equal String.length) in E.
      rewrite string_length_app, length_line in E. cbn in E. lia. }
    cbv zeta. rewrite string_app_assoc.
    rewrite fgets_short_line by (done || lia).
    rewrite <- string_app_assoc, string_drop_app.
    f_equal. apply IH. lia.
Qed.

(** X3.  [moduleLoaded] reads [/proc/modules] with [fgets (line, 80, fd)]
    and compares only as many characters as the name has: a module counts
    as loaded as soon as some piece read starts with the name, whatever
    follows it.  A piece is a line of the file or, for a line of 80 bytes
    and more, 79 bytes of it; when every line is short enough the pieces
    are the lines.  When the file cannot be opened the program ends with
    exit code 1. *)
Theorem moduleLoaded_matches_prefix modName e s :
  match modules s with
  | Some lines =>
      exists b, moduleLoaded modName e s = (Ret b, s)
        /\ (b = true <->
            exists piece, piece ∈ fgets_lines (file_of_lines lines)
                          /\ starts_with modName piece)
        /\ (Forall short_line lines ->
            (b = true <-> exists line, line ∈ lines /\ starts_with modName line))
  | None => (moduleLoaded modName e s).1 = Exit 1
  end.
Proof.
  unfold moduleLoaded, mbind, M_bind, get.
  destruct (modules s) as [lines|]; [| reflexivity].
  exists (module_listed modName lines). split; [reflexivity |].
  assert (forall pieces,
            existsb (fun line => strncmp line modName (strlen modName) =? 0) pieces
            = true
            <-> exists piece, piece ∈ pieces /\ starts_with modName piece) as Hscan.
  { intros pieces. unfold starts_with. rewrite existsb_exists. split.
    - intros (line & Hin & Hcmp). exists line.
      split; [by apply list_elem_of_In |].
      apply Z.eqb_eq in Hcmp. unfold strncmp, strlen in Hcmp.
      rewrite Nat2Z.id in Hcmp. by apply strncmp_go_prefix.
    - intros (line & Hin & Hpre). exists line.
      split; [by apply list_elem_of_In |].
      apply Z.eqb_eq. unfold strncmp, strlen. rewrite Nat2Z.id.
      by apply strncmp_go_prefix. }
  split; [apply Hscan |].
  intros Hshort. unfold module_listed, fgets_lines. cbv zeta.
  rewrite (fgets_all_short_lines lines Hshort) by lia. apply Hscan.
Qed.

End Vectors.

(** [spi] is no module, but every line that starts with these three letters
    makes it count as loaded. *)
Example module_listed_spi :
  module_listed "spi" ["spidev 20480 0" +:+ nl] = true.
Proof. vm_compute. reflexivity. Qed.

(** A line of 79 letters and then the name: no line starts with [spidev],
    but the second piece that [fgets] delivers does. *)
Example module_listed_long_line :
  module_listed "spidev"
    [replicate_char 79 "a" +:+ "spidev 20480 0" +:+ nl] = true
  /\ fgets_lines (replicate_char 79 "a" +:+ "spidev 20480 0" +:+ nl)
     = [replicate_char 79 "a"; "spidev 20480 0" +:+ nl].
Proof. vm_compute. split; reflexivity. Qed.

(** [gpio -b read 7]: four words, moved down by one. *)
Example shift_down_b :
  shift_down 1 4 ["gpio"; "-b"; "read"; "7"] = ["gpio"; "read"; "7"; "7"].
Proof. reflexivity. Qed.
(** * gpio exports and gpio unexportall *)

Section Listing.

Implicit Types (e : Env) (s : State) (buf : Mem).


Lemma wp_open_read path n e s (Q : Result (option string) -> State -> Prop) :
  Q (Ret (string_take n <$> files s !! path)) s -> wp (open_read path n) e s Q.
Proof. done. Qed.

(** A pin without a direction file is passed over. *)
Lemma doExports_pin_skips i first buf e s :
  files s !! gpio_attr i "direction" = None ->
  doExports_pin i (first, buf) e s = (Ret (first, buf), s).
Proof.
  intros Hnone. unfold doExports_pin, open_read, get, mbind, M_bind.
  by rewrite Hnone.
Qed.

(** X4.  [gpio exports] looks at the direction files of the pins 0 to 63 only:
    when none of them exists it prints nothing at all, not even the
    heading, and changes nothing. *)
Theorem doExports_nothing_exported argc argv e s :
  (forall i, 0 <= i < 64 -> files s !! gpio_attr i "direction" = None) ->
  doExports argc argv e s = (Ret tt, s).
Proof.
  intros Hnone. unfold doExports, mbind, M_bind, ask.
  enough (forall pins first buf,
            Forall (fun i => 0 <= i < 64) pins ->
            for_each pins doExports_pin (first, buf) e s = (Ret (first, buf), s))
    as Hloop.
  { rewrite Hloop; [done |]. apply Forall_forall. intros i Hi.
    apply elem_of_seqZ in Hi. lia. }
  induction pins as [|i pins IH]; intros first buf Hpins; [done |].
  apply Forall_cons in Hpins as [Hi Hpins].
  cbn [for_each]. unfold mbind, M_bind.
  rewrite doExports_pin_skips by auto. by apply IH.
Qed.


(** X6.  A read that fills all 16 bytes of [buf]: the terminating NUL goes to
    [buf [16]], the cell after the array, and the whole read is shown (less
    a newline at its end). *)
Theorem read_attribute_full_read_overruns buf data c :
  c_str (data +:+ String c "") = data +:+ String c "" ->
  String.length data = 15%nat ->
  read_attribute buf (data +:+ String c "") 16 = NUL
  /\ shown (read_attribute buf (data +:+ String c ""))
     = if code c =? 10 then data else data +:+ String c "".
Proof.
  intros Hline Hlen. split.
  - pose proof (length_snoc data c) as Hl.
    unfold read_attribute. rewrite Hl, Hlen.
    change (Z.of_nat 16 =? 0) with false. cbv iota.
    set (b2 := poke (poke_string buf 0 (data +:+ String c "")) (Z.of_nat 16) NUL).
    destruct (peek_string_holds (data +:+ String c "") 17 buf b2 0 Hline)
      as [_ Hn].
    { rewrite Hl. lia. }
    { intros j Hj. rewrite Hl, Hlen in Hj. unfold b2, poke.
      destruct (Z.eqb_spec j (Z.of_nat 16)); [lia | done]. }
    { rewrite Hl, Hlen. reflexivity. }
    rewrite Hn, Hl, Hlen.
    by destruct (code (b2 (Z.of_nat 16 - 1)) =? 10).
  - destruct (Z.eqb_spec (code c) 10) as [E|E].
    + assert (c = "010"%char) as -> by (by apply code_inj).
      apply c_str_app in Hline as [Hdata _].
      apply read_attribute_strips_newline; [done | lia].
    + apply read_attribute_keeps_text; [done | lia | done].
Qed.

Lemma doUnexportall_loop progName pins e s :
  fopen_w_ok e unexport_path = true ->
  exists s',
    for_each pins
      (fun pin (_ : unit) =>
         opened ← fopen_w "/sys/class/gpio/unexport";
         (if negb opened
          then fail_with (progName +:+ ": Unable to open GPIO export interface" +:+ nl) 1
          else skip);;
         fwrite "/sys/class/gpio/unexport" (fmt_d pin +:+ nl);;
         fclose "/sys/class/gpio/unexport")
      tt e s = (Ret tt, s')
    /\ trace s'
       = (trace s ++
          flat_map (fun pin => [FileOpen unexport_path;
                                FileWrite unexport_path (fmt_d pin +:+ nl);
                                FileClose unexport_path]) pins)%list.
Proof.
  intros Hopen. revert s.
  induction pins as [|pin pins IH]; intros s.
  - exists s. split; [done |]. by rewrite app_nil_r.
  - cbn [for_each flat_map].
    unfold mbind at 1, M_bind at 1.
    set (body := mbind _ (fopen_w _)).
    assert (exists s1, body e s = (Ret tt, s1)
              /\ trace s1 = (trace s ++ [FileOpen unexport_path;
                                FileWrite unexport_path (fmt_d pin +:+ nl);
                                FileClose unexport_path])%list)
      as (s1 & Hbody & Htrace).
    { eexists. subst body. split.
      - apply wp_is_eq. wp_run; [| unfold unexport_path in Hopen; congruence].
        split; reflexivity.
      - state_simpl. trace_norm. reflexivity. }
    rewrite Hbody.
    destruct (IH s1) as (s' & Hrun & Htrace').
    exists s'. split; [exact Hrun |].
    rewrite Htrace', Htrace. by rewrite <- app_assoc.
Qed.

(** X7.  [gpio unexportall] opens the unexport file, writes one pin number and
    closes it again, for the pins 0 to 62 in rising order.  Pin 63, which
    [gpio exports] does list, is not among them.  When the file cannot be
    opened the program ends at once with exit code 1 and has written
    nothing. *)
Theorem doUnexportall_pins progName e s :
  let out := doUnexportall progName e s in
  let new := drop (length (trace s)) (trace out.2) in
  (fopen_w_ok e unexport_path = true ->
   out.1 = Ret tt
   /\ List.filter is_file_write new
      = map (fun pin => FileWrite unexport_path (fmt_d pin +:+ nl)) (seqZ 0 63)
   /\ FileWrite unexport_path ("63" +:+ nl) ∉ new)
  /\ (fopen_w_ok e unexport_path = false ->
      out = (Exit 1,
             set_trace (trace s ++
               [Stderr (progName +:+ ": Unable to open GPIO export interface" +:+ nl)]) s)).
Proof.
  intros out new. split.
  - intros Hopen.
    destruct (doUnexportall_loop progName (seqZ 0 63) e s Hopen)
      as (s' & Hrun & Htrace).
    subst new out. unfold doUnexportall. rewrite Hrun. cbn [fst snd].
    rewrite Htrace, added_app.
    split; [done |].
    assert (forall pins,
              List.filter is_file_write
                (flat_map (fun pin => [FileOpen unexport_path;
                                       FileWrite unexport_path (fmt_d pin +:+ nl);
                                       FileClose unexport_path]) pins)
              = map (fun pin => FileWrite unexport_path (fmt_d pin +:+ nl)) pins)
      as Hwrites.
    { induction pins as [|p pins IH]; [done |]. cbn. by rewrite IH. }
    split; [apply Hwrites |].
    intros Hin. apply list_elem_of_In, in_flat_map in Hin as (pin & Hpin & Hin).
    apply list_elem_of_In in Hpin.
    assert (Forall (fun pin => fmt_d pin +:+ nl <> "63" +:+ nl) (seqZ 0 63))
      as Hnone by (apply (bool_decide_unpack _); vm_compute; exact I).
    rewrite Forall_forall in Hnone. specialize (Hnone pin Hpin).
    cbn in Hin. destruct Hin as [Hin|[Hin|[Hin|[]]]]; congruence.
  - intros Hopen. subst out. unfold doUnexportall.
    change (seqZ 0 63) with (0 :: seqZ 1 62). cbn [for_each].
    apply wp_is_eq. wp_run; [unfold unexport_path in Hopen; congruence |].
    split; reflexivity.
Qed.

End Listing.

(** With no file at all, [gpio exports] is silent. *)
Lemma doExports_nothing_exported_witness :
  doExports 2 ["gpio"; "exports"] pi_env (no_files boot) = (Ret tt, no_files boot).
Proof.
  apply doExports_nothing_exported. intros i Hi. reflexivity.
Defined.


(** Sixteen bytes without a newline. *)
Lemma read_attribute_full_read_overruns_witness :
  read_attribute (fun _ => "x"%char) "0123456789abcdef" 16 = NUL
  /\ shown (read_attribute (fun _ => "x"%char) "0123456789abcdef")
     = "0123456789abcdef".
Proof.
  apply (read_attribute_full_read_overruns (fun _ => "x"%char)
           "0123456789abcde" "f"); reflexivity.
Defined.

(** On the sample board every file can be opened: 63 numbers are written. *)
Lemma doUnexportall_pins_witness :
  (doUnexportall "gpio" pi_env boot).1 = Ret tt
  /\ length (List.filter is_file_write (trace (doUnexportall "gpio" pi_env boot).2))
     = 63%nat.
Proof.
  destruct (doUnexportall_pins "gpio" pi_env boot) as [Hok _].
  destruct (Hok eq_refl) as (Hret & Hwrites & _).
  split; [exact Hret |].
  change (trace (doUnexportall "gpio" pi_env boot).2)
    with (drop (length (trace boot)) (trace (doUnexportall "gpio" pi_env boot).2)).
  rewrite Hwrites. reflexivity.
Defined.
(** * The handlers of the core commands *)

Section Commands.

Context {hdr : wiringPi_h}.
Implicit Types (e : Env) (s : State) (argv : list string).

(** X8.  Every handler that wants a fixed number of words tests it first: with
    any other count it prints its usage line on standard error and ends
    the program with exit code 1; nothing else has happened by then. *)
Theorem usage_on_wrong_argc fuel h n text argc argv e s :
  (h, n, text) ∈ usage_table fuel -> argc <> n ->
  h argc argv e s
  = (Exit 1,
     set_trace (trace s ++
       [Stderr ("Usage: " +:+ arg argv 0 +:+ " " +:+ text +:+ nl)]) s).
Proof.
  intros Hin Hne. apply Z.eqb_neq in Hne.
  unfold usage_table in Hin.
  repeat (apply elem_of_cons in Hin as [Hin|Hin]);
    try (by apply elem_of_nil in Hin); injection Hin as -> -> ->;
    cbv beta delta [doExport doWfi doMWfi doEdge doUnexport doMode doPadDrive
                    doUsbP doWrite doAwrite doWriteByte doReadByte doRead doBank
                    doAread doToggle doBlink doPwmTone doClock doPwm doPwmRange
                    doPwmClock];
    unfold mbind at 1, M_bind at 1; rewrite Hne; reflexivity.
Qed.

(** X9.  [gpio mode]: each of the 17 mode words, in any case, makes one call
    into the library, with the pin and the constant of the word; [tri] and
    [off] both switch the pull resistor off.  Any other word ends the
    program with exit code 1 and no call is made. *)
Theorem doMode_table e s a0 a1 pinarg mode :
  let pin := atoi pinarg in
  let out := doMode 4 [a0; a1; pinarg; mode] e s in
  (forall word fn v,
     (word, (fn, v)) ∈ mode_table -> casefold mode = casefold word ->
     out = (Ret tt, set_trace (trace s ++ [Call fn [pin; v]]) s))
  /\ (casefold mode ∉ map (fun p => casefold p.1) mode_table ->
      out = (Exit 1,
             set_trace (trace s ++
               [Stderr (a1 +:+ ": Invalid mode: " +:+ mode
                        +:+ ". Should be in/out/pwm/clock/up/down/tri" +:+ nl)]) s)).
Proof.
  intros pin out. subst out. split.
  - intros word fn v Hin F. unfold mode_table in Hin.
    apply wp_is_eq. unfold doMode.
    change (arg [a0; a1; pinarg; mode] 3) with mode.
    change (atoi (arg [a0; a1; pinarg; mode] 2)) with pin.
    repeat (apply elem_of_cons in Hin as [Hin|Hin]);
      try (by apply elem_of_nil in Hin); injection Hin as -> -> ->;
      match type of F with
      | _ = casefold ?n =>
          let w := eval vm_compute in (casefold n) in change (casefold n) with w in F
      end;
      wp_run; split; reflexivity.
  - intros Hout.
    assert (forall word, word ∈ map (fun p => p.1) mode_table ->
              strcaseeq mode word = false) as Hno.
    { intros word Hw. rewrite strcaseeq_casefold. apply String.eqb_neq.
      intros E. apply Hout. rewrite E.
      apply list_elem_of_fmap in Hw as ([w [fn v]] & -> & Hw).
      apply list_elem_of_fmap. by exists (w, (fn, v)). }
    unfold mode_table in Hno. cbn [map fst] in Hno.
    apply wp_is_eq. unfold doMode.
    change (arg [a0; a1; pinarg; mode] 3) with mode.
    change (arg [a0; a1; pinarg; mode] 1) with a1.
    rewrite !Hno
      by repeat first [ apply list_elem_of_here | apply list_elem_of_further ].
    wp_run. split; reflexivity.
Qed.

(** X10.  [gpio drive]: the group must be 0, 1 or 2 and the value 0 to 7.  The
    group is tested first; a number outside its range ends the program
    with exit code 1 before [setPadDrive] is called. *)
Theorem doPadDrive_bounds e s a0 a1 g v :
  let group := atoi g in
  let val := atoi v in
  let out := doPadDrive 4 [a0; a1; g; v] e s in
  (0 <= group <= 2 -> 0 <= val <= 7 ->
   out = (Ret tt, set_trace (trace s ++ [Call "setPadDrive" [group; val]]) s))
  /\ (~ 0 <= group <= 2 ->
      out = (Exit 1,
             set_trace (trace s ++
               [Stderr (a0 +:+ ": drive group not 0, 1 or 2: " +:+ fmt_d group
                        +:+ nl)]) s))
  /\ (0 <= group <= 2 -> ~ 0 <= val <= 7 ->
      out = (Exit 1,
             set_trace (trace s ++
               [Stderr (a0 +:+ ": drive value not 0-7: " +:+ fmt_d val +:+ nl)]) s)).
Proof.
  intros group val out. subst out. unfold doPadDrive.
  change (atoi (arg [a0; a1; g; v] 2)) with group.
  change (atoi (arg [a0; a1; g; v] 3)) with val.
  change (arg [a0; a1; g; v] 0) with a0.
  split; [| split].
  - intros Hg Hv.
    assert ((group <? 0) || (2 <? group) = false) as Tg
      by (apply orb_false_iff; split; apply Z.ltb_ge; lia).
    assert ((val <? 0) || (7 <? val) = false) as Tv
      by (apply orb_false_iff; split; apply Z.ltb_ge; lia).
    apply wp_is_eq. wp_run. split; reflexivity.
  - intros Hg.
    assert ((group <? 0) || (2 <? group) = true) as Tg.
    { apply orb_true_iff.
      destruct (Z.ltb_spec group 0); [by left | right; apply Z.ltb_lt; lia]. }
    apply wp_is_eq. wp_run. split; reflexivity.
  - intros Hg Hv.
    assert ((group <? 0) || (2 <? group) = false) as Tg
      by (apply orb_false_iff; split; apply Z.ltb_ge; lia).
    assert ((val <? 0) || (7 <? val) = true) as Tv.
    { apply orb_true_iff.
      destruct (Z.ltb_spec val 0); [by left | right; apply Z.ltb_lt; lia]. }
    apply wp_is_eq. wp_run. split; reflexivity.
Qed.

(** X11.  [gpio usbp] asks the board for its model first.  On any model but the
    B+ and the 2B it ends with exit code 1 and touches no pin.  On these
    two it sets up GPIO numbering, writes the level of pin 38 and only then
    makes the pin an output; a word that is none of high, hi, low and lo is
    refused after the setup. *)
Theorem doUsbP_board_check e s a0 a1 word :
  let out := doUsbP 3 [a0; a1; word] e s in
  let model := b_model (piBoardId_ret e) in
  let switched level text :=
    out = (Ret tt,
           set_trace (trace s ++
             [Call "piBoardId" []; Call "wiringPiSetupGpio" [];
              Call "digitalWrite" [PI_USB_POWER_CONTROL; level];
              Call "pinMode" [PI_USB_POWER_CONTROL; OUTPUT];
              Stdout (text +:+ nl)]) s) in
  (model <> PI_MODEL_BP -> model <> PI_MODEL_2B ->
   out = (Exit 1,
          set_trace (trace s ++
            [Call "piBoardId" [];
             Stderr ("USB power contol is applicable to B+ and v2 boards only."
                     +:+ nl)]) s))
  /\ (model = PI_MODEL_BP \/ model = PI_MODEL_2B ->
      (casefold word ∈ ["high"; "hi"] ->
       switched 1 "Switched to HIGH current USB (1.2A)")
      /\ (casefold word ∈ ["low"; "lo"] ->
          switched 0 "Switched to LOW current USB (600mA)")
      /\ (casefold word ∉ ["high"; "hi"; "low"; "lo"] ->
          out = (Exit 1,
                 set_trace (trace s ++
                   [Call "piBoardId" []; Call "wiringPiSetupGpio" [];
                    Stderr ("Usage: " +:+ a0 +:+ " usbp high|low" +:+ nl)]) s))).
Proof.
  intros out model switched. subst out model switched. cbv beta.
  unfold doUsbP.
  change (arg [a0; a1; word] 2) with word.
  change (arg [a0; a1; word] 0) with a0.
  split.
  - intros Hbp H2b.
    assert ((b_model (piBoardId_ret e) =? PI_MODEL_BP)
            || (b_model (piBoardId_ret e) =? PI_MODEL_2B) = false) as Tm
      by (apply orb_false_iff; split; by apply Z.eqb_neq).
    apply wp_is_eq. wp_run.
    state_simpl. trace_norm. split; reflexivity.
  - intros Hmodel.
    assert ((b_model (piBoardId_ret e) =? PI_MODEL_BP)
            || (b_model (piBoardId_ret e) =? PI_MODEL_2B) = true) as Tm.
    { apply orb_true_iff. destruct Hmodel as [Hmodel|Hmodel]; rewrite Hmodel;
        [left | right]; apply Z.eqb_refl. }
    split; [| split].
    + intros Hw.
      repeat (apply elem_of_cons in Hw as [Hw|Hw]);
        try (by apply elem_of_nil in Hw);
        apply wp_is_eq; wp_run;
        state_simpl; trace_norm; split; reflexivity.
    + intros Hw.
      repeat (apply elem_of_cons in Hw as [Hw|Hw]);
        try (by apply elem_of_nil in Hw);
        apply wp_is_eq; wp_run;
        state_simpl; trace_norm; split; reflexivity.
    + intros Hw.
      assert (forall w, w ∈ ["high"; "hi"; "low"; "lo"] -> strcaseeq word w = false)
        as Hno.
      { intros w Hin. rewrite strcaseeq_casefold. apply String.eqb_neq.
        intros E. apply Hw. rewrite E.
        repeat (apply elem_of_cons in Hin as [->|Hin]);
          try (by apply elem_of_nil in Hin);
          vm_compute;
          repeat first [ apply list_elem_of_here | apply list_elem_of_further ]. }
      rewrite !Hno
        by repeat first [ apply list_elem_of_here | apply list_elem_of_further ].
      apply wp_is_eq; wp_run.
      state_simpl. trace_norm. split; reflexivity.
Qed.

(** X12.  [gpio pwmr]: the range is converted with [strtoul] and cut to 32 bits.
    Zero, which is also what a word without digits and a multiple of 2^32
    give, ends the program with exit code 1; every other range is handed
    to [pwmSetRange]. *)
Theorem doPwmRange_rejects_zero e s a0 a1 r :
  let range := to_uint (strtoul r 10) in
  let out := doPwmRange 3 [a0; a1; r] e s in
  0 <= range < 2 ^ 32
  /\ (range = 0 ->
      out = (Exit 1,
             set_trace (trace s ++ [Stderr (a0 +:+ ": range must be > 0" +:+ nl)]) s))
  /\ (range <> 0 ->
      out = (Ret tt, set_trace (trace s ++ [Call "pwmSetRange" [range]]) s)).
Proof.
  intros range out. subst out. unfold doPwmRange.
  change (to_uint (strtoul (arg [a0; a1; r] 2) 10)) with range.
  change (arg [a0; a1; r] 0) with a0.
  split; [unfold range, to_uint; apply Z.mod_pos_bound; lia | split].
  - intros Hz. apply Z.eqb_eq in Hz.
    apply wp_is_eq. wp_run. split; reflexivity.
  - intros Hz. apply Z.eqb_neq in Hz.
    apply wp_is_eq. wp_run. split; reflexivity.
Qed.

(** X13.  [gpio pwmc]: a divider from 1 to 4095 is handed to [pwmSetClock]; 0
    and 4096, which the message names as bounds, are refused like every
    other number, with exit code 1. *)
Theorem doPwmClock_bounds e s a0 a1 c :
  let clock := to_uint (strtoul c 10) in
  let out := doPwmClock 3 [a0; a1; c] e s in
  (1 <= clock <= 4095 ->
   out = (Ret tt, set_trace (trace s ++ [Call "pwmSetClock" [clock]]) s))
  /\ (~ 1 <= clock <= 4095 ->
      out = (Exit 1,
             set_trace (trace s ++
               [Stderr (a0 +:+ ": clock must be between 0 and 4096" +:+ nl)]) s)).
Proof.
  intros clock out. subst out. unfold doPwmClock.
  change (to_uint (strtoul (arg [a0; a1; c] 2) 10)) with clock.
  change (arg [a0; a1; c] 0) with a0.
  split.
  - intros Hc.
    assert ((clock <? 1) || (4095 <? clock) = false) as Tc
      by (apply orb_false_iff; split; apply Z.ltb_ge; lia).
    apply wp_is_eq. wp_run. split; reflexivity.
  - intros Hc.
    assert ((clock <? 1) || (4095 <? clock) = true) as Tc.
    { apply orb_true_iff.
      destruct (Z.ltb_spec clock 1); [by left | right; apply Z.ltb_lt; lia]. }
    apply wp_is_eq. wp_run. split; reflexivity.
Qed.

End Commands.

(** [gpio read] with the pin missing. *)
Lemma usage_on_wrong_argc_witness :
  doRead 2 ["gpio"; "read"] pi_env boot
  = (Exit 1, set_trace [Stderr ("Usage: gpio read pin" +:+ nl)] boot).
Proof.
  apply (usage_on_wrong_argc (hdr := pi_header) 0 doRead 3 "read pin" 2
           ["gpio"; "read"] pi_env boot).
  - unfold usage_table.
    repeat first [ apply list_elem_of_here | apply list_elem_of_further ].
  - lia.
Defined.

(** [gpio mode 4 OUT] and [gpio mode 4 sideways] on the sample board. *)
Lemma doMode_table_witness :
  doMode (hdr := pi_header) 4 ["gpio"; "mode"; "4"; "OUT"] pi_env boot
  = (Ret tt, set_trace [Call "pinMode" [4; 1]] boot)
  /\ (doMode (hdr := pi_header) 4 ["gpio"; "mode"; "4"; "sideways"] pi_env boot).1
     = Exit 1.
Proof.
  pose proof (doMode_table (hdr := pi_header) pi_env boot "gpio" "mode" "4" "OUT")
    as [Hok _].
  pose proof (doMode_table (hdr := pi_header) pi_env boot "gpio" "mode" "4" "sideways")
    as [_ Hbad].
  cbv zeta in Hok, Hbad. split.
  - apply (Hok "out" "pinMode" 1); [| reflexivity].
    unfold mode_table.
    repeat first [ apply list_elem_of_here | apply list_elem_of_further ].
  - rewrite Hbad; [reflexivity |].
    cbn. rewrite !elem_of_cons, elem_of_nil.
    vm_compute. intros H; repeat destruct H as [H|H];
      first [discriminate H | destruct H].
Defined.

(** [gpio drive 0 7] and [gpio drive 3 1] on the sample board. *)
Lemma doPadDrive_bounds_witness :
  doPadDrive 4 ["gpio"; "drive"; "0"; "7"] pi_env boot
  = (Ret tt, set_trace [Call "setPadDrive" [0; 7]] boot)
  /\ (doPadDrive 4 ["gpio"; "drive"; "3"; "1"] pi_env boot).1 = Exit 1.
Proof.
  pose proof (doPadDrive_bounds pi_env boot "gpio" "drive" "0" "7") as (Hok & _).
  pose proof (doPadDrive_bounds pi_env boot "gpio" "drive" "3" "1") as (_ & Hbad & _).
  cbv zeta in Hok, Hbad. split.
  - apply Hok; vm_compute; split; discriminate.
  - rewrite Hbad; [reflexivity |]. vm_compute. intros [_ H]. by apply H.
Defined.

(** [gpio usbp HI] on a B+ and on the sample board, which is a Pi 3. *)
Lemma doUsbP_board_check_witness :
  trace (doUsbP (hdr := pi_header) 3 ["gpio"; "usbp"; "HI"] bplus_env boot).2
  = [Call "piBoardId" []; Call "wiringPiSetupGpio" []; Call "digitalWrite" [38; 1];
     Call "pinMode" [38; 1]; Stdout ("Switched to HIGH current USB (1.2A)" +:+ nl)]
  /\ (doUsbP (hdr := pi_header) 3 ["gpio"; "usbp"; "HI"] pi_env boot).1 = Exit 1.
Proof.
  pose proof (doUsbP_board_check (hdr := pi_header) bplus_env boot "gpio" "usbp" "HI")
    as [_ Hplus].
  pose proof (doUsbP_board_check (hdr := pi_header) pi_env boot "gpio" "usbp" "HI")
    as [Hpi3 _].
  cbv zeta in Hplus, Hpi3. split.
  - destruct (Hplus ltac:(left; reflexivity)) as (Hhigh & _).
    rewrite Hhigh; [reflexivity |].
    vm_compute. repeat first [ apply list_elem_of_here | apply list_elem_of_further ].
  - rewrite Hpi3; [reflexivity | vm_compute; discriminate ..].
Defined.

(** [gpio pwmr 1024] and [gpio pwmr 4294967296] on the sample board. *)
Lemma doPwmRange_rejects_zero_witness :
  doPwmRange 3 ["gpio"; "pwmr"; "1024"] pi_env boot
  = (Ret tt, set_trace [Call "pwmSetRange" [1024]] boot)
  /\ (doPwmRange 3 ["gpio"; "pwmr"; "4294967296"] pi_env boot).1 = Exit 1.
Proof.
  pose proof (doPwmRange_rejects_zero pi_env boot "gpio" "pwmr" "1024")
    as (_ & _ & Hok).
  pose proof (doPwmRange_rejects_zero pi_env boot "gpio" "pwmr" "4294967296")
    as (_ & Hbad & _).
  cbv zeta in Hok, Hbad. split.
  - apply Hok. vm_compute. discriminate.
  - rewrite Hbad; reflexivity.
Defined.

(** [gpio pwmc 32], [gpio pwmc 0] and [gpio pwmc 4096] on the sample
    board. *)
Lemma doPwmClock_bounds_witness :
  doPwmClock 3 ["gpio"; "pwmc"; "32"] pi_env boot
  = (Ret tt, set_trace [Call "pwmSetClock" [32]] boot)
  /\ (doPwmClock 3 ["gpio"; "pwmc"; "0"] pi_env boot).1 = Exit 1
  /\ (doPwmClock 3 ["gpio"; "pwmc"; "4096"] pi_env boot).1 = Exit 1.
Proof.
  pose proof (doPwmClock_bounds pi_env boot "gpio" "pwmc" "32") as [Hok _].
  pose proof (doPwmClock_bounds pi_env boot "gpio" "pwmc" "0") as [_ Hzero].
  pose proof (doPwmClock_bounds pi_env boot "gpio" "pwmc" "4096") as [_ Hbig].
  cbv zeta in Hok, Hzero, Hbig. split; [| split].
  - apply Hok. vm_compute. split; discriminate.
  - rewrite Hzero; [reflexivity |]. vm_compute. intros [H _]. by apply H.
  - rewrite Hbig; [reflexivity |]. vm_compute. intros [_ H]. by apply H.
Defined.
(** * Pins that keep their level: gpio toggle and gpio blink *)

Section Levels.

Context {hdr : wiringPi_h}.
Implicit Types (e : Env) (s : State) (t : list Event).

Lemma last_write_app t : forall t' pin level,
  last_write (t ++ t') pin level = last_write t' pin (last_write t pin level).
Proof.
  induction t as [|ev t IH]; intros t' pin level; [done |].
  destruct ev as [| | | | | | | | |fn args| |]; cbn [app last_write]; try apply IH.
  destruct args as [|p [|v [|? ?]]]; try apply IH.
  destruct (String.eqb fn "digitalWrite" && (p =? pin)); apply IH.
Qed.

(** One [gpio toggle] on a latching pin: the level is read and its
    negation written. *)
Lemma doToggle_run e s level a0 a1 p :
  latching e level ->
  let pin := atoi p in
  let v := last_write (trace s) pin (level pin) in
  doToggle 3 [a0; a1; p] e s
  = (Ret tt,
     set_trace (trace s ++ [Call "digitalRead" [pin];
                            Call "digitalWrite" [pin; if v =? 0 then 1 else 0]]) s).
Proof.
  intros Hlatch pin v. apply wp_is_eq. unfold doToggle.
  change (atoi (arg [a0; a1; p] 2)) with pin.
  wp_run. state_simpl. trace_norm.
  rewrite (Hlatch (trace s ++ [Call "digitalRead" [pin]])%list pin).
  rewrite (last_write_app (trace s) [Call "digitalRead" [pin]] pin (level pin)).
  fold v. cbn [last_write].
  change (String.eqb "digitalRead" "digitalWrite") with false. cbn [andb].
  split; reflexivity.
Qed.

(** X14.  [gpio toggle] twice, on a pin that reads as it was last written: the
    first run writes the negation of the level, the second writes the
    negation of that.  The pin ends at 0 when it was at 0 and at 1 when it
    was at anything else. *)
Theorem doToggle_twice_restores e s level a0 a1 p :
  latching e level ->
  let pin := atoi p in
  let v := last_write (trace s) pin (level pin) in
  let out := (doToggle 3 [a0; a1; p];; doToggle 3 [a0; a1; p]) e s in
  out.1 = Ret tt
  /\ last_write (trace out.2) pin (level pin) = (if v =? 0 then 0 else 1)
  /\ List.filter (is_call_to "digitalWrite") (drop (length (trace s)) (trace out.2))
     = [Call "digitalWrite" [pin; if v =? 0 then 1 else 0];
        Call "digitalWrite" [pin; if v =? 0 then 0 else 1]].
Proof.
  intros Hlatch pin v out. subst out.
  unfold mbind, M_bind.
  rewrite (doToggle_run e s level a0 a1 p Hlatch). cbv iota zeta.
  rewrite (doToggle_run e _ level a0 a1 p Hlatch). cbv zeta. fold pin.
  state_simpl. cbn [fst snd trace].
  rewrite !last_write_app. fold v.
  cbn [last_write]. change (String.eqb "digitalRead" "digitalWrite") with false.
  change (String.eqb "digitalWrite" "digitalWrite") with true.
  cbn [andb]. rewrite !Z.eqb_refl.
  trace_norm. rewrite added_app.
  cbn [List.filter is_call_to].
  change (String.eqb "digitalRead" "digitalWrite") with false.
  change (String.eqb "digitalWrite" "digitalWrite") with true. cbv iota.
  destruct (v =? 0); repeat split; reflexivity.
Qed.

(** One round of the loop of [gpio blink]. *)
Lemma wp_forever_blink fuel pin e s (Q : Result unit -> State -> Prop) :
  (forall new,
     List.filter is_delay new = repeat (DelayMs 500) fuel ->
     length (List.filter (is_call_to "digitalWrite") new) = fuel ->
     Q Running (set_trace (trace s ++ new) s)) ->
  wp (forever fuel
        (v ← digitalRead pin;
         call "digitalWrite" [pin; if v =? 0 then 1 else 0];;
         delayMs 500)) e s Q.
Proof.
  revert s Q. induction fuel as [|fuel IH]; intros s Q HQ.
  - cbn [forever]. apply wp_out_of_fuel.
    specialize (HQ [] eq_refl eq_refl). revert HQ.
    rewrite app_nil_r. by destruct s.
  - cbn [forever]. wp_run. apply IH. intros new Hdelays Hwrites.
    state_simpl. trace_norm.
    apply (HQ (Call "digitalRead" [pin] :: Call "digitalWrite" [pin; _]
               :: DelayMs 500 :: new)).
    + cbn [List.filter is_delay repeat]. by rewrite Hdelays.
    + cbn [List.filter is_call_to].
      change (String.eqb "digitalRead" "digitalWrite") with false.
      change (String.eqb "digitalWrite" "digitalWrite") with true.
      cbn [length]. by rewrite Hwrites.
Qed.

(** X15.  [gpio blink] makes the pin an output once and then never comes back:
    however many rounds it is given, it is still running after them, and
    every round is one write to the pin and one delay of 500 ms. *)
Theorem doBlink_never_returns fuel e s a0 a1 p :
  let out := doBlink fuel 3 [a0; a1; p] e s in
  let new := drop (length (trace s)) (trace out.2) in
  out.1 = Running
  /\ head new = Some (Call "pinMode" [atoi p; OUTPUT])
  /\ List.filter is_delay new = repeat (DelayMs 500) fuel
  /\ length (List.filter (is_call_to "digitalWrite") new) = fuel.
Proof.
  intros out new. subst new out.
  change (wp (doBlink fuel 3 [a0; a1; p]) e s (fun r s' =>
    r = Running
    /\ head (drop (length (trace s)) (trace s')) = Some (Call "pinMode" [atoi p; OUTPUT])
    /\ List.filter is_delay (drop (length (trace s)) (trace s'))
       = repeat (DelayMs 500) fuel
    /\ length (List.filter (is_call_to "digitalWrite")
                 (drop (length (trace s)) (trace s'))) = fuel)).
  unfold doBlink. wp_run. apply wp_forever_blink. intros new Hdelays Hwrites.
  state_simpl. trace_norm. rewrite added_app.
  cbn [head List.filter is_delay is_call_to].
  change (String.eqb "pinMode" "digitalWrite") with false. cbv iota.
  done.
Qed.

End Levels.

(** Pin 4 of the latching board, first at 0: after two runs of
    [gpio toggle 4] it is at 0 again, having been at 1 in between. *)
Lemma doToggle_twice_restores_witness :
  List.filter (is_call_to "digitalWrite")
    (trace ((doToggle 3 ["gpio"; "toggle"; "4"];;
             doToggle 3 ["gpio"; "toggle"; "4"]) bplus_env boot).2)
  = [Call "digitalWrite" [4; 1]; Call "digitalWrite" [4; 0]].
Proof.
  pose proof (doToggle_twice_restores bplus_env boot (fun _ => 0) "gpio" "toggle" "4")
    as Hthm.
  specialize (Hthm ltac:(intros t pin; reflexivity)).
  destruct Hthm as (_ & _ & Hwrites).
  exact Hwrites.
Defined.
(** * gpio load, gpio unload and gpio i2cdetect *)

Section Modules.

Implicit Types (e : Env) (s : State) (argv : list string).

(** [findExecutable] answers without a look at the state. *)
Lemma wp_findExecutable prog e s (Q : Result (option string) -> State -> Prop) :
  (forall r, (findExecutable prog e s).1 = Ret r -> Q (Ret r) s) ->
  wp (findExecutable prog) e s Q.
Proof.
  intros HQ. unfold wp.
  destruct (findExecutable_in_scan searchPath prog e s) as [Hstate Hres].
  fold (findExecutable prog) in Hstate, Hres. rewrite Hstate.
  destruct (findExecutable prog e s).1 as [r|c| |] eqn:E; try done.
  by apply HQ.
Qed.

Lemma findExecutable_in_any_state dirs prog e s s0 :
  (findExecutable_in dirs prog e s).1 = (findExecutable_in dirs prog e s0).1.
Proof.
  induction dirs as [|dir rest IH]; [done |].
  cbn [findExecutable_in]. unfold mbind, M_bind, ask.
  by destruct (stat_ok e (dir +:+ "/" +:+ prog)).
Qed.

(** X16.  On a Pi with the device tree, [gpio load] and [gpio unload] end with
    exit code 1 as their first step, whatever the other words are: nothing
    is looked up, no command is run and no owner is changed. *)
Theorem devtree_blocks_module_commands e s argc argv :
  stat_ok e "/proc/device-tree" = true ->
  let refused :=
    (Exit 1 : Result unit,
     set_trace (trace s ++
       [Stderr (arg argv 0 +:+
          ": Unable to load/unload modules as this Pi has the device tree enabled."
          +:+ nl +:+
          "  You need to run the raspi-config program (as root) and select the"
          +:+ nl +:+
          "  modules (SPI or I2C) that you wish to load/unload there and reboot."
          +:+ nl)]) s) in
  doLoad argc argv e s = refused /\ doUnLoad argc argv e s = refused.
Proof.
  intros Hdt refused. subst refused. split; apply wp_is_eq.
  - unfold doLoad. wp_run. split; reflexivity.
  - unfold doUnLoad. wp_run. split; reflexivity.
Qed.

(** X17.  [gpio load spi] takes no further word.  With one more, once the way to
    set the buffer size, it ends with exit code 1 and a note; with more
    than one it prints the usage line.  In both cases no command is run. *)
Theorem doLoad_spi_takes_no_argument e s argc argv :
  stat_ok e "/proc/device-tree" = false ->
  casefold (arg argv 2) = "spi" ->
  (argc = 4 ->
   doLoad argc argv e s
   = (Exit 1,
      set_trace (trace s ++
        [Stderr (arg argv 0 +:+
           ": Unable to set the buffer size now. Load aborted. Please see the man page."
           +:+ nl)]) s))
  /\ (4 < argc ->
      doLoad argc argv e s
      = (Exit 1,
         set_trace (trace s ++
           [Stderr ("Usage: " +:+ arg argv 0
                    +:+ " load <spi/i2c>[I2C baudrate in Kb/sec]" +:+ nl)]) s)).
Proof.
  intros Hdt Hspi. split.
  - intros ->. apply wp_is_eq. unfold doLoad. wp_run. split; reflexivity.
  - intros Hargc.
    assert ((argc <? 3) = false) as T3 by (apply Z.ltb_ge; lia).
    assert ((argc =? 4) = false) as T4 by (apply Z.eqb_neq; lia).
    assert ((4 <? argc) = true) as T5 by (apply Z.ltb_lt; lia).
    apply wp_is_eq. unfold doLoad. wp_run. split; reflexivity.
Qed.

Lemma trace_tail (T : list Event) a b t1 c t2 :
  (((T ++ [a]) ++ b :: t1) ++ c :: t2 = T ++ a :: b :: (t1 ++ c :: t2))%list.
Proof. by rewrite <- !app_assoc. Qed.

Ltac wp_mod :=
  wp_run;
  repeat (lazymatch goal with
          | |- wp (findExecutable _) _ _ _ => apply wp_findExecutable; intros ? ?
          | |- wp (match ?r with Some _ => _ | None => _ end) _ _ _ => destruct r
          end;
          wp_run).

(** X18.  [gpio load] comes back only when its last call of moduleLoaded
    finds the second module of the pair, that is when a piece read from
    [/proc/modules] starts with its name, and then it has slept one second
    and changed the owner of the two device files.  Whether [modprobe] was
    found, and what the commands did, does not matter. *)
Theorem doLoad_success_means_loaded e s argc argv s' :
  doLoad argc argv e s = (Ret tt, s') ->
  exists word m2 f1 f2 lines before rest,
    (word, m2, f1, f2) ∈ [("spi", "spi_bcm2708", "/dev/spidev0.0", "/dev/spidev0.1");
                         ("i2c", "i2c_bcm2708", "/dev/i2c-0", "/dev/i2c-1")]
    /\ casefold (arg argv 2) = word
    /\ modules s' = Some lines /\ module_listed m2 lines = true
    /\ trace s' = (before ++ Sleep 1 :: Chown f1 (getuid e) (getgid e) :: rest)%list
    /\ Chown f2 (getuid e) (getgid e) ∈ rest.
Proof.
  intros Hrun.
  refine (wp_elim _ _ _ _ _
    (fun r s' => r = Ret tt ->
       exists word m2 f1 f2 lines before rest,
         (word, m2, f1, f2) ∈ [("spi", "spi_bcm2708", "/dev/spidev0.0", "/dev/spidev0.1");
                              ("i2c", "i2c_bcm2708", "/dev/i2c-0", "/dev/i2c-1")]
         /\ casefold (arg argv 2) = word
         /\ modules s' = Some lines /\ module_listed m2 lines = true
         /\ trace s' = (before ++ Sleep 1 :: Chown f1 (getuid e) (getgid e) :: rest)%list
         /\ Chown f2 (getuid e) (getgid e) ∈ rest) _ Hrun eq_refl).
  clear Hrun. unfold doLoad.
  wp_mod; try discriminate; intros _; state_simpl.
  all: match goal with
       | Hw : strcaseeq (arg _ 2) ?w = true |- _ =>
           apply strcaseeq_true in Hw;
           let v := eval vm_compute in (casefold w) in
           change (casefold w) with v in Hw
       end.
  all: match goal with
       | Hw : casefold (arg _ 2) = "spi" |- _ =>
           exists "spi", "spi_bcm2708", "/dev/spidev0.0", "/dev/spidev0.1"
       | Hw : casefold (arg _ 2) = "i2c" |- _ =>
           exists "i2c", "i2c_bcm2708", "/dev/i2c-0", "/dev/i2c-1"
       end.
  all: eexists _, _, _;
    (split; [repeat first [ apply list_elem_of_here | apply list_elem_of_further ] |]);
    (split; [assumption |]);
    (split; [first [reflexivity | eassumption] |]);
    (split; [apply negb_false_iff; assumption |]);
    (split; [rewrite trace_tail; reflexivity |]);
    apply elem_of_app; right; apply list_elem_of_here.
Qed.

(** X19.  [gpio unload spi] and [gpio unload i2c]: each of the two modules is
    removed exactly when moduleLoaded finds it, that is when a piece read
    from [/proc/modules] starts with its name, the first of the pair before
    the second, and the second look at the file comes after the first
    removal.  The command line is what [findExecutable] gave for [rmmod],
    then a blank and the module name. *)
Theorem doUnLoad_removes_listed e s a0 a1 word w m1 m2 r lines :
  stat_ok e "/proc/device-tree" = false ->
  (w, m1, m2) ∈ [("spi", "spidev", "spi_bcm2708"); ("i2c", "i2c_dev", "i2c_bcm2708")] ->
  casefold word = w ->
  (findExecutable RMMOD e s).1 = Ret r ->
  modules s = Some lines ->
  let cmd m := fmt_s r +:+ " " +:+ m in
  let out := doUnLoad 3 [a0; a1; word] e s in
  let new := drop (length (trace s)) (trace out.2) in
  (module_listed m1 lines = false ->
   out.1 = Ret tt
   /\ new = if module_listed m2 lines then [System (cmd m2)] else [])
  /\ (forall lines1,
        module_listed m1 lines = true ->
        system_modules e (cmd m1) (Some lines) = Some lines1 ->
        out.1 = Ret tt
        /\ new = System (cmd m1)
                 :: if module_listed m2 lines1 then [System (cmd m2)] else []).
Proof.
  intros Hdt Hin Hw Hr Hm cmd out new. subst cmd new out.
  assert (forall s0, (findExecutable RMMOD e s0).1 = Ret r) as Hexe.
  { intros s0. rewrite <- Hr. apply findExecutable_in_any_state. }
  repeat (apply elem_of_cons in Hin as [Hin|Hin]);
    try (by apply elem_of_nil in Hin); injection Hin as -> -> ->;
    (split; [intros H1 | intros lines1 H1 Hsys]);
    match goal with
    | |- ?r0 = _ /\ drop _ (trace (?m ?ee ?ss).2) = ?t =>
        change (wp m ee ss (fun r1 s1 =>
                  r1 = Ret tt /\ drop (length (trace ss)) (trace s1) = t))
    end;
    unfold doUnLoad; change (arg [a0; a1; word] 2) with word;
    wp_mod; state_simpl; trace_norm; rewrite ?added_app;
    repeat match goal with
           | H : (findExecutable RMMOD e _).1 = Ret _ |- _ =>
               rewrite Hexe in H; injection H as <-
           | H : context [modules s] |- _ => rewrite Hm in H
           end;
    try congruence;
    repeat match goal with
           | H : system_modules _ _ _ = Some _ |- _ =>
               rewrite Hsys in H; injection H as <-
           end;
    repeat match goal with
           | H : module_listed _ _ = _ |- _ => rewrite H
           end;
    try congruence;
    (split; [reflexivity | by rewrite ?drop_all]).
Qed.

(** X20.  [gpio i2cdetect] with the program found and [i2c_dev] listed: the bus
    is 0 on a board of layout 1 and 1 on every other; the command run is
    the path found, [-y] and the bus.  A negative answer of [system] is
    reported on standard error; the handler returns in either case. *)
Theorem doI2Cdetect_picks_bus e s argc argv c lines :
  (findExecutable I2CDETECT e s).1 = Ret (Some c) ->
  modules s = Some lines ->
  module_listed "i2c_dev" lines = true ->
  let bus := if piGpioLayout_ret e =? 1 then "0" else "1" in
  let cmd := c +:+ " -y " +:+ bus in
  let out := doI2Cdetect argc argv e s in
  out.1 = Ret tt
  /\ drop (length (trace s)) (trace out.2)
     = Call "piGpioLayout" [] :: System cmd
       :: if system_status e cmd <? 0
          then [Stderr (arg argv 0 +:+ ": Unable to run i2cdetect: "
                        +:+ strerror_errno e "system" +:+ nl)]
          else [].
Proof.
  intros Hc Hm Hlisted bus cmd out. subst out.
  assert (forall s0, (findExecutable I2CDETECT e s0).1 = Ret (Some c)) as Hexe.
  { intros s0. rewrite <- Hc. apply findExecutable_in_any_state. }
  match goal with
  | |- _ /\ _ = ?t =>
      change (wp (doI2Cdetect argc argv) e s (fun r1 s1 =>
                r1 = Ret tt /\ drop (length (trace s)) (trace s1) = t))
  end.
  unfold doI2Cdetect. subst cmd. cbv zeta.
  assert (fmt_d (if piGpioLayout_ret e =? 1 then 0 else 1) = bus) as Hbus
    by (subst bus; by destruct (piGpioLayout_ret e =? 1)).
  wp_mod;
    repeat match goal with
           | H : (findExecutable I2CDETECT e _).1 = Ret _ |- _ =>
               rewrite Hexe in H; first [discriminate H | injection H as <-]
           end;
    try discriminate; state_simpl; trace_norm; rewrite ?added_app, ?Hbus;
    repeat match goal with
           | H : (system_status _ _ <? 0) = _ |- _ => rewrite ?Hbus in H; rewrite H
           end;
    split; reflexivity.
Qed.

(** X21.  [gpio i2cdetect] gives up with a line on standard error, and returns
    as if all were well, when the program is in none of the six
    directories and when moduleLoaded does not find [i2c_dev], that is
    when no piece read from [/proc/modules] starts with that name.  In
    both cases no command is run. *)
Theorem doI2Cdetect_gives_up_quietly e s argc argv :
  let out := doI2Cdetect argc argv e s in
  let gives_up text :=
    out = (Ret tt,
           set_trace (trace s ++
             [Call "piGpioLayout" []; Stderr (arg argv 0 +:+ text +:+ nl)]) s) in
  ((findExecutable I2CDETECT e s).1 = Ret None ->
   gives_up (": Unable to find i2cdetect command: "
             +:+ strerror_errno e I2CDETECT))
  /\ (forall c lines,
        (findExecutable I2CDETECT e s).1 = Ret (Some c) ->
        modules s = Some lines -> module_listed "i2c_dev" lines = false ->
        gives_up ": The I2C kernel module(s) are not loaded.").
Proof.
  intros out gives_up. subst gives_up out. cbv beta.
  split.
  - intros Hc.
    assert (forall s0, (findExecutable I2CDETECT e s0).1 = Ret None) as Hexe.
    { intros s0. rewrite <- Hc. apply findExecutable_in_any_state. }
    apply wp_is_eq. unfold doI2Cdetect.
    wp_mod;
      repeat match goal with
             | H : (findExecutable I2CDETECT e _).1 = Ret _ |- _ =>
                 rewrite Hexe in H; first [discriminate H | injection H as <-]
             end;
      state_simpl; trace_norm; rewrite <- ?Hm; split; reflexivity.
  - intros c lines Hc Hm Hlisted.
    assert (forall s0, (findExecutable I2CDETECT e s0).1 = Ret (Some c)) as Hexe.
    { intros s0. rewrite <- Hc. apply findExecutable_in_any_state. }
    apply wp_is_eq. unfold doI2Cdetect.
    wp_mod;
      repeat match goal with
             | H : (findExecutable I2CDETECT e _).1 = Ret _ |- _ =>
                 rewrite Hexe in H; first [discriminate H | injection H as <-]
             end;
      state_simpl; trace_norm; rewrite <- ?Hm; split; reflexivity.
Qed.

(** X22.  [gpio unexport]: the word for the pin goes through [atoi] and the
    number is written, followed by a newline, to the unexport file; it is
    not compared with anything.  When the file cannot be opened the
    program ends with exit code 1. *)
Theorem doUnexport_writes_pin e s a0 a1 p :
  let pin := atoi p in
  let out := doUnexport 3 [a0; a1; p] e s in
  (fopen_w_ok e unexport_path = true ->
   out.1 = Ret tt
   /\ files out.2 !! unexport_path = Some (fmt_d pin +:+ nl)
   /\ drop (length (trace s)) (trace out.2)
      = [FileOpen unexport_path; FileWrite unexport_path (fmt_d pin +:+ nl);
         FileClose unexport_path])
  /\ (fopen_w_ok e unexport_path = false ->
      out = (Exit 1,
             set_trace (trace s ++
               [Stderr (a0 +:+ ": Unable to open GPIO export interface" +:+ nl)]) s)).
Proof.
  intros pin out. subst out. unfold unexport_path. split.
  - intros Hopen.
    change (wp (doUnexport 3 [a0; a1; p]) e s (fun r1 s1 =>
      r1 = Ret tt
      /\ files s1 !! "/sys/class/gpio/unexport" = Some (fmt_d pin +:+ nl)
      /\ drop (length (trace s)) (trace s1)
         = [FileOpen "/sys/class/gpio/unexport";
            FileWrite "/sys/class/gpio/unexport" (fmt_d pin +:+ nl);
            FileClose "/sys/class/gpio/unexport"])).
    unfold doUnexport. change (atoi (arg [a0; a1; p] 2)) with pin.
    wp_run; [| congruence].
    state_simpl. trace_norm. rewrite added_app, !lookup_insert_eq.
    repeat split; reflexivity.
  - intros Hopen. apply wp_is_eq. unfold doUnexport.
    wp_run; [congruence |]. split; reflexivity.
Qed.

End Modules.

(** [gpio load spi] and [gpio unload spi] with the device tree enabled. *)
Lemma devtree_blocks_module_commands_witness :
  (doLoad 3 ["gpio"; "load"; "spi"] devtree_env boot).1 = Exit 1
  /\ (doUnLoad 3 ["gpio"; "unload"; "spi"] devtree_env boot).1 = Exit 1
  /\ List.filter is_system
       (trace (doUnLoad 3 ["gpio"; "unload"; "spi"] devtree_env boot).2) = [].
Proof.
  destruct (devtree_blocks_module_commands devtree_env boot 3
              ["gpio"; "load"; "spi"] eq_refl) as [Hload _].
  destruct (devtree_blocks_module_commands devtree_env boot 3
              ["gpio"; "unload"; "spi"] eq_refl) as [_ Hunload].
  rewrite Hload, Hunload. repeat split.
Defined.

(** [gpio load spi 4096] on the sample board. *)
Lemma doLoad_spi_takes_no_argument_witness :
  (doLoad 4 ["gpio"; "load"; "spi"; "4096"] pi_env boot).1 = Exit 1
  /\ (doLoad 5 ["gpio"; "load"; "SPI"; "4096"; "x"] pi_env boot).1 = Exit 1.
Proof.
  destruct (doLoad_spi_takes_no_argument pi_env boot 4
              ["gpio"; "load"; "spi"; "4096"] eq_refl eq_refl) as [Hfour _].
  destruct (doLoad_spi_takes_no_argument pi_env boot 5
              ["gpio"; "load"; "SPI"; "4096"; "x"] eq_refl eq_refl) as [_ Hfive].
  rewrite (Hfour eq_refl), (Hfive ltac:(lia)). split; reflexivity.
Defined.

(** [gpio load spi] on the sample board, where both modules are listed. *)
Lemma doLoad_success_means_loaded_witness :
  exists lines,
    modules (doLoad 3 ["gpio"; "load"; "spi"] pi_env boot).2 = Some lines
    /\ module_listed "spi_bcm2708" lines = true.
Proof.
  destruct (doLoad_success_means_loaded pi_env boot 3 ["gpio"; "load"; "spi"]
              (doLoad 3 ["gpio"; "load"; "spi"] pi_env boot).2
              ltac:(vm_compute; reflexivity))
    as (word & m2 & f1 & f2 & lines & before & rest & Hin & Hword & Hm & Hl & _).
  exists lines. split; [exact Hm |].
  apply elem_of_cons in Hin as [Hin|Hin].
  - injection Hin as _ -> _ _. exact Hl.
  - apply elem_of_cons in Hin as [Hin|Hin]; [| by apply elem_of_nil in Hin].
    injection Hin as -> _ _ _. discriminate Hword.
Defined.

(** [gpio unload SPI] on the sample board: both modules are listed and no
    [rmmod] is found. *)
Lemma doUnLoad_removes_listed_witness :
  trace (doUnLoad 3 ["gpio"; "unload"; "SPI"] pi_env boot).2
  = [System "(null) spidev"; System "(null) spi_bcm2708"].
Proof.
  pose proof (doUnLoad_removes_listed pi_env boot "gpio" "unload" "SPI"
                "spi" "spidev" "spi_bcm2708" None
                ["spidev 20480 0" +:+ nl; "spi_bcm2708 16384 0" +:+ nl]
                eq_refl
                ltac:(apply list_elem_of_here) eq_refl eq_refl eq_refl) as [_ Hrun].
  destruct (Hrun ["spidev 20480 0" +:+ nl; "spi_bcm2708 16384 0" +:+ nl]
              eq_refl eq_refl) as [_ Hnew].
  exact Hnew.
Defined.

(** [gpio i2cdetect] with the program in [/usr/sbin] and the modules
    loaded: the layout of the sample board is 2, the bus is 1. *)
Lemma doI2Cdetect_picks_bus_witness :
  trace (doI2Cdetect 2 ["gpio"; "i2cdetect"] i2c_env boot_i2c).2
  = [Call "piGpioLayout" []; System "/usr/sbin/i2cdetect -y 1"].
Proof.
  destruct (doI2Cdetect_picks_bus i2c_env boot_i2c 2 ["gpio"; "i2cdetect"]
              "/usr/sbin/i2cdetect"
              ["i2c_bcm2708 16384 0" +:+ nl; "i2c_dev 20480 0" +:+ nl]
              eq_refl eq_refl eq_refl) as [_ Hnew].
  exact Hnew.
Defined.

(** [gpio i2cdetect] on the sample board, where the program is missing,
    and with the program but without the module. *)
Lemma doI2Cdetect_gives_up_quietly_witness :
  (doI2Cdetect 2 ["gpio"; "i2cdetect"] pi_env boot).1 = Ret tt
  /\ (doI2Cdetect 2 ["gpio"; "i2cdetect"] i2c_env boot).1 = Ret tt
  /\ List.filter is_system
       (trace (doI2Cdetect 2 ["gpio"; "i2cdetect"] i2c_env boot).2) = [].
Proof.
  destruct (doI2Cdetect_gives_up_quietly pi_env boot 2 ["gpio"; "i2cdetect"])
    as [Hmissing _].
  destruct (doI2Cdetect_gives_up_quietly i2c_env boot 2 ["gpio"; "i2cdetect"])
    as [_ Hunloaded].
  rewrite (Hmissing eq_refl).
  rewrite (Hunloaded "/usr/sbin/i2cdetect"
             ["spidev 20480 0" +:+ nl; "spi_bcm2708 16384 0" +:+ nl]
             eq_refl eq_refl eq_refl).
  repeat split.
Defined.

(** [gpio unexport 4] and [gpio unexport four] on the sample board. *)
Lemma doUnexport_writes_pin_witness :
  files (doUnexport 3 ["gpio"; "unexport"; "4"] pi_env boot).2 !! unexport_path
  = Some ("4" +:+ nl)
  /\ files (doUnexport 3 ["gpio"; "unexport"; "four"] pi_env boot).2 !! unexport_path
     = Some ("0" +:+ nl)
  /\ (doUnexport 3 ["gpio"; "unexport"; "4"] readonly_env boot).1 = Exit 1.
Proof.
  destruct (doUnexport_writes_pin pi_env boot "gpio" "unexport" "4") as [Hfour _].
  destruct (doUnexport_writes_pin pi_env boot "gpio" "unexport" "four") as [Hword _].
  destruct (doUnexport_writes_pin readonly_env boot "gpio" "unexport" "4")
    as [_ Hclosed].
  destruct (Hfour eq_refl) as (_ & Hfile4 & _).
  destruct (Hword eq_refl) as (_ & Hfile0 & _).
  split; [exact Hfile4 | split; [exact Hfile0 |]].
  rewrite (Hclosed eq_refl). reflexivity.
Defined.
(** * main: who may run what *)

Section Entry.

Context {hdr : wiringPi_h}.
Implicit Types (e : Env) (s : State) (argv : list string).

(** X23.  Without root, every word but the help words, [-v] and [-warranty]
    ends at the privilege check: exit code 1 and one line on standard
    error.  No file is opened, no command run and no call made into the
    wiringPi library, whatever the word is. *)
Theorem main_requires_root e s fuel argc argv :
  argc <> 1 -> geteuid e <> 0 ->
  is_help (arg argv 1) = false -> streq (arg argv 1) "-v" = false ->
  strcaseeq (arg argv 1) "-warranty" = false ->
  let out := main fuel argc argv e s in
  out.1 = Exit 1
  /\ trace out.2
     = (trace s ++ debug_note e ++
        [Stderr (arg argv 0 +:+
           ": Must be root to run. Program should be suid root. This is an error."
           +:+ nl)])%list
  /\ files out.2 = files s /\ modules out.2 = modules s /\ wpMode out.2 = wpMode s.
Proof.
  intros Hargc Heuid Hhelp Hv Hw out. subst out.
  apply Z.eqb_neq in Hargc, Heuid.
  change (wp (main fuel argc argv) e s (fun r s' =>
    r = Exit 1
    /\ trace s'
       = (trace s ++ debug_note e ++
          [Stderr (arg argv 0 +:+
             ": Must be root to run. Program should be suid root. This is an error."
             +:+ nl)])%list
    /\ files s' = files s /\ modules s' = modules s /\ wpMode s' = wpMode s)).
  unfold debug_note.
  wp_run; state_simpl; trace_norm;
    match goal with H : getenv_WIRINGPI_DEBUG e = _ |- _ => rewrite H end;
    repeat split; reflexivity.
Qed.

(** [gpio] without a word ends with exit code 1 and a hint on standard
    error, for root as for everyone else. *)
Lemma main_without_a_word e s fuel argv :
  let out := main fuel 1 argv e s in
  out.1 = Exit 1
  /\ trace out.2
     = (trace s ++ debug_note e ++
        [Stderr (basename (arg argv 0) +:+ ":" +:+ nl +:+
           "  Format: gpio -h for full details and" +:+ nl +:+
           "          gpio readall for a quick printout of your connector details"
           +:+ nl)])%list.
Proof.
  intros out. subst out.
  change (wp (main fuel 1 argv) e s (fun r s' =>
    r = Exit 1
    /\ trace s'
       = (trace s ++ debug_note e ++
          [Stderr (basename (arg argv 0) +:+ ":" +:+ nl +:+
             "  Format: gpio -h for full details and" +:+ nl +:+
             "          gpio readall for a quick printout of your connector details"
             +:+ nl)])%list)).
  unfold debug_note.
  wp_run; state_simpl; trace_norm;
    match goal with H : getenv_WIRINGPI_DEBUG e = _ |- _ => rewrite H end;
    split; reflexivity.
Qed.

(** X24.  [gpio -warranty], in any case of the letters, prints the version of
    version.h and the licence note, sixteen lines on standard output, and
    ends with exit code 0 before the privilege check. *)
Theorem main_warranty_needs_no_root e s fuel argc argv :
  argc <> 1 -> casefold (arg argv 1) = "-warranty" ->
  let out := main fuel argc argv e s in
  let new := drop (length (trace s ++ debug_note e)) (trace out.2) in
  out.1 = Exit 0
  /\ head new = Some (Stdout ("gpio version: " +:+ VERSION +:+ nl))
  /\ length new = 16%nat
  /\ Forall (fun ev => exists text, ev = Stdout text) new.
Proof.
  intros Hargc Hw out new. subst new out.
  apply Z.eqb_neq in Hargc.
  change (wp (main fuel argc argv) e s (fun r s' =>
    r = Exit 0
    /\ head (drop (length (trace s ++ debug_note e)) (trace s'))
       = Some (Stdout ("gpio version: " +:+ VERSION +:+ nl))
    /\ length (drop (length (trace s ++ debug_note e)) (trace s')) = 16%nat
    /\ Forall (fun ev => exists text, ev = Stdout text)
         (drop (length (trace s ++ debug_note e)) (trace s')))).
  assert (is_help (arg argv 1) = false) as Hhelp.
  { unfold is_help. rewrite !(strcaseeq_folded _ _ _ Hw). reflexivity. }
  assert (streq (arg argv 1) "-v" = false) as Hv.
  { apply not_true_is_false. intros E%streq_true.
    assert (casefold (arg argv 1) = casefold "-v") as F
      by (unfold casefold; by rewrite E).
    rewrite Hw in F. discriminate F. }
  unfold debug_note.
  wp_run; wp_unfold @warranty; wp_run; state_simpl;
    match goal with H : getenv_WIRINGPI_DEBUG e = _ |- _ => rewrite H end;
    rewrite ?app_nil_r;
    match goal with
    | |- context [drop (length ?t) _] =>
        rewrite <- !(app_assoc t); rewrite (added_app t)
    end;
    cbn [app head length];
    (split; [reflexivity | split; [reflexivity | split; [reflexivity |]]]);
    repeat (constructor; [by eexists |]); constructor.
Qed.

(** X25.  The numbering scheme by flag.  [-w] sets up wiringPi numbering and
    [-z] stores the uninitialised mode without any call into the library.
    [-b] sets up GPIO numbering and, as its branch ends the first chain of
    tests, the default branch of the second chain sets it up once more.
    Any other word leaves the words where they are and gets GPIO
    numbering. *)
Theorem numbering_scheme_of_flag e s argc a0 flag rest :
  let argv := a0 :: flag :: rest in
  let argv' := shift_down 1 argc argv in
  (casefold flag = "-w" ->
   numbering argc argv e s
   = (Ret (argc - 1, argv'),
      set_wpMode WPI_MODE_PINS
        (set_trace (trace s ++ [Call "wiringPiSetup" []; Assign_wpMode WPI_MODE_PINS]) s)))
  /\ (casefold flag = "-z" ->
      numbering argc argv e s
      = (Ret (argc - 1, argv'),
         set_wpMode WPI_MODE_UNINITIALISED
           (set_trace (trace s ++ [Assign_wpMode WPI_MODE_UNINITIALISED]) s)))
  /\ (casefold flag = "-b" ->
      strcaseeq (arg argv' 1) "-w" = false -> strcaseeq (arg argv' 1) "-z" = false ->
      numbering argc argv e s
      = (Ret (argc - 1, argv'),
         set_wpMode WPI_MODE_GPIO
           (set_trace (trace s ++
              [Call "wiringPiSetupGpio" []; Assign_wpMode WPI_MODE_GPIO;
               Call "wiringPiSetupGpio" []; Assign_wpMode WPI_MODE_GPIO]) s)))
  /\ (casefold flag ∉ ["-b"; "-p"; "-w"; "-z"] ->
      numbering argc argv e s
      = (Ret (argc, argv),
         set_wpMode WPI_MODE_GPIO
           (set_trace (trace s ++
              [Call "wiringPiSetupGpio" []; Assign_wpMode WPI_MODE_GPIO]) s))).
Proof.
  intros argv argv'. subst argv' argv.
  split; [| split; [| split]].
  - intros F. change (casefold (arg (a0 :: flag :: rest) 1) = "-w") in F.
    apply wp_is_eq. wp_unfold @numbering.
    wp_run. state_simpl. trace_norm. split; reflexivity.
  - intros F. change (casefold (arg (a0 :: flag :: rest) 1) = "-z") in F.
    apply wp_is_eq. wp_unfold @numbering.
    wp_run. state_simpl. trace_norm. split; reflexivity.
  - intros F Hw Hz. change (casefold (arg (a0 :: flag :: rest) 1) = "-b") in F.
    apply wp_is_eq. wp_unfold @numbering.
    wp_run. state_simpl. trace_norm. split; reflexivity.
  - intros Hout.
    assert (forall w, w ∈ ["-b"; "-p"; "-w"; "-z"] ->
              strcaseeq (arg (a0 :: flag :: rest) 1) w = false) as Hno.
    { intros w Hin. change (arg (a0 :: flag :: rest) 1) with flag.
      rewrite strcaseeq_casefold. apply String.eqb_neq.
      intros E. apply Hout. rewrite E.
      repeat (apply elem_of_cons in Hin as [->|Hin]);
        try (by apply elem_of_nil in Hin);
        vm_compute;
        repeat first [ apply list_elem_of_here | apply list_elem_of_further ]. }
    pose proof (Hno "-b" ltac:(repeat first [ apply list_elem_of_here
                                            | apply list_elem_of_further ])) as Hb.
    pose proof (Hno "-p" ltac:(repeat first [ apply list_elem_of_here
                                            | apply list_elem_of_further ])) as Hp.
    pose proof (Hno "-w" ltac:(repeat first [ apply list_elem_of_here
                                            | apply list_elem_of_further ])) as Hw.
    pose proof (Hno "-z" ltac:(repeat first [ apply list_elem_of_here
                                            | apply list_elem_of_further ])) as Hz.
    clear Hno.
    apply wp_is_eq. wp_unfold @numbering.
    wp_run. state_simpl. trace_norm. split; reflexivity.
Qed.

End Entry.

(** [gpio read 4] as an ordinary user. *)
Lemma main_requires_root_witness :
  (main (hdr := pi_header) 0 3 ["gpio"; "read"; "4"] user_env boot).1 = Exit 1
  /\ trace (main (hdr := pi_header) 0 3 ["gpio"; "read"; "4"] user_env boot).2
     = [Stderr ("gpio: Must be root to run. Program should be suid root. "
                +:+ "This is an error." +:+ nl)].
Proof.
  destruct (main_requires_root (hdr := pi_header) user_env boot 0 3
              ["gpio"; "read"; "4"] ltac:(lia) ltac:(vm_compute; discriminate)
              eq_refl eq_refl eq_refl) as (Hexit & Htrace & _).
  split; [exact Hexit | exact Htrace].
Defined.

(** [gpio -WARRANTY] as an ordinary user. *)
Lemma main_warranty_needs_no_root_witness :
  (main (hdr := pi_header) 0 2 ["gpio"; "-WARRANTY"] user_env boot).1 = Exit 0
  /\ head (trace (main (hdr := pi_header) 0 2 ["gpio"; "-WARRANTY"] user_env boot).2)
     = Some (Stdout ("gpio version: 3.16" +:+ nl)).
Proof.
  destruct (main_warranty_needs_no_root (hdr := pi_header) user_env boot 0 2
              ["gpio"; "-WARRANTY"] ltac:(lia) eq_refl) as (Hexit & Hhead & _).
  split; [exact Hexit | exact Hhead].
Defined.

(** [gpio -z readall] and [gpio -b readall] on the sample board. *)
Lemma numbering_scheme_of_flag_witness :
  trace (numbering (hdr := pi_header) 3 ["gpio"; "-z"; "readall"] pi_env boot).2
  = [Assign_wpMode (-1)]
  /\ trace (numbering (hdr := pi_header) 3 ["gpio"; "-b"; "readall"] pi_env boot).2
     = [Call "wiringPiSetupGpio" []; Assign_wpMode 1;
        Call "wiringPiSetupGpio" []; Assign_wpMode 1].
Proof.
  pose proof (numbering_scheme_of_flag (hdr := pi_header) pi_env boot 3
                "gpio" "-z" ["readall"]) as (_ & Hz & _).
  pose proof (numbering_scheme_of_flag (hdr := pi_header) pi_env boot 3
                "gpio" "-b" ["readall"]) as (_ & _ & Hb & _).
  cbv zeta in Hz, Hb.
  rewrite (Hz eq_refl), (Hb eq_refl eq_refl eq_refl). split; reflexivity.
Defined.
(** * Extensions, flags without a command, gpio wfi and gpio -v *)

Section Flow.

Context {hdr : wiringPi_h}.
Implicit Types (e : Env) (s : State) (argv : list string).

(** The loop over [-x]: every round takes two words, so with as many
    rounds as there are words it comes to an end.  It is left with exit
    code 1, or at a word that is no [-x] with an even number of words
    taken. *)
Lemma wp_extensions e rounds : forall argc argv s,
  0 < argc -> argc <= Z.of_nat rounds ->
  wp (extensions rounds argc argv) e s (fun r _ =>
    match r with
    | Ret (argc', argv') =>
        strcaseeq (arg argv' 1) "-x" = false
        /\ 0 < argc' /\ exists k, 0 <= k /\ argc = argc' + 2 * k
    | Exit c => c = 1
    | _ => False
    end).
Proof.
  induction rounds as [|rounds IH]; intros argc argv s Hpos Hle; [lia |].
  cbn [extensions].
  destruct (strcaseeq (arg argv 1) "-x") eqn:Hx.
  - wp_run; try reflexivity.
    match goal with H : (argc <? 3) = false |- _ => apply Z.ltb_ge in H end.
    eapply wp_mono; [| apply IH; lia].
    intros [[argc' argv']|c| |] s'; try done.
    intros (Hstop & Hpos' & k & Hk & Hargc).
    split; [done | split; [done |]]. exists (k + 1). lia.
  - apply wp_ret. split; [done | split; [done |]]. exists 0. lia.
Qed.

(** X26.  The loop that loads the extensions of [-x] always ends.  When it goes
    on to the command, the word in the place of the command is no [-x],
    an even number of words has been taken and at least the program name
    is left; every other way out is exit code 1. *)
Theorem extensions_terminates e s argc argv :
  0 < argc ->
  match (extensions (Z.to_nat argc) argc argv e s).1 with
  | Ret (argc', argv') =>
      strcaseeq (arg argv' 1) "-x" = false
      /\ 0 < argc' /\ exists k, 0 <= k /\ argc = argc' + 2 * k
  | Exit c => c = 1
  | _ => False
  end.
Proof.
  intros Hpos.
  apply (wp_extensions e (Z.to_nat argc) argc argv s Hpos). lia.
Qed.

(** X27.  A numbering flag as the only word: the scheme is set up, and then the
    program ends with exit code 1 because no command is left. *)
Theorem main_flag_without_command e s fuel a0 flag :
  geteuid e = 0 ->
  casefold flag ∈ ["-b"; "-p"; "-w"; "-z"] ->
  let out := main fuel 2 [a0; flag] e s in
  out.1 = Exit 1
  /\ last (trace out.2)
     = Some (Stderr ("[FATAL] " +:+ basename a0 +:+ ": no command given" +:+ nl)).
Proof.
  intros Heuid Hflag out. subst out.
  apply Z.eqb_eq in Heuid.
  change (wp (main fuel 2 [a0; flag]) e s (fun r s' =>
    r = Exit 1
    /\ last (trace s')
       = Some (Stderr ("[FATAL] " +:+ basename a0 +:+ ": no command given" +:+ nl)))).
  assert (streq flag "-v" = false) as Hv.
  { apply not_true_is_false. intros E%streq_true.
    assert (casefold flag = casefold "-v") as F by (unfold casefold; by rewrite E).
    rewrite F in Hflag. revert Hflag. rewrite !elem_of_cons, elem_of_nil.
    vm_compute. intros H; repeat destruct H as [H|H];
      first [discriminate H | destruct H]. }
  repeat (apply elem_of_cons in Hflag as [Hflag|Hflag]);
    try (by apply elem_of_nil in Hflag);
    assert (is_help flag = false) as Hhelp
      by (unfold is_help; rewrite !(strcaseeq_folded _ _ _ Hflag); reflexivity);
    repeat first
      [ progress change (shift_down 1 2 [a0; flag]) with [a0; flag]
      | progress change (arg [a0; flag] 1) with flag
      | progress change (arg [a0; flag] 0) with a0
      | wp_head ];
    state_simpl; (split; [reflexivity | apply last_snoc]).
Qed.

(** The waiting loop of [gpio wfi], as in wp_wait_interrupts of the
    interrupt section. *)
Ltac wp_wfi :=
  wp_run;
  repeat (lazymatch goal with
          | |- wp (interrupts wfi) _ _ _ => apply wp_interrupts_wfi; intros ? ?
          | |- wp (wait_interrupts _ _) _ _ _ =>
              apply wp_wait_interrupts; intros ? ? ? ? ? ? ? ? ? ? ?
          end;
          wp_run).

Ltac wfi_facts :=
  repeat match goal with
         | H : context [nInts (Build_State _ _ _ _ _ _ _)] |- _ => revert H
         | H : context [irq_slot (Build_State _ _ _ _ _ _ _)] |- _ => revert H
         | H : context [trace (Build_State _ _ _ _ _ _ _)] |- _ => revert H
         end;
  state_simpl; intros.

(** X28.  [gpio wfi].  A mode word that is none of rising, falling and both ends
    the program with exit code 1 before the callback is registered; so
    does a failing [wiringPiISR], before any waiting.  Otherwise the
    counter is set to zero after the registration, so an edge that comes in
    between is not counted, and the command returns from the first poll
    that finds an edge counted; every round before it is one delay of
    100 ms. *)
Theorem doWfi_waits_for_one_edge e s fuel argv :
  let out := doWfi fuel 4 argv e s in
  let new := drop (length (trace s)) (trace out.2) in
  let since_reset k := delivered e (S (irq_slot s)) (S k) in
  (out.1 = Ret tt ->
   exists k, (k <= fuel)%nat /\
     nInts out.2 = since_reset k /\ 1 <= since_reset k /\
     (forall j, (j < k)%nat -> since_reset j < 1) /\
     List.filter is_delay new = repeat (DelayMs 100) k)
  /\ (casefold (arg argv 3) ∉ ["rising"; "falling"; "both"] ->
      out = (Exit 1,
             set_trace (trace s ++
               [Stderr (arg argv 1 +:+ ": wfi: Invalid mode: " +:+ arg argv 3
                        +:+ ". Should be rising, falling or both" +:+ nl)]) s))
  /\ (casefold (arg argv 3) ∈ ["rising"; "falling"; "both"] ->
      wiringPiISR_ret e < 0 ->
      out.1 = Exit 1 /\ List.filter is_delay new = []).
Proof.
  intros out new since_reset. subst new out. split; [| split].
  - change (wp (doWfi fuel 4 argv) e s (fun r s' =>
      r = Ret tt ->
      exists k, (k <= fuel)%nat /\
        nInts s' = since_reset k /\ 1 <= since_reset k /\
        (forall j, (j < k)%nat -> since_reset j < 1) /\
        List.filter is_delay (drop (length (trace s)) (trace s'))
        = repeat (DelayMs 100) k)).
    unfold doWfi.
    wp_run; try discriminate;
      wp_unfold @edge_mode; wp_wfi; try discriminate;
      intros ->; wfi_facts;
      match goal with
      | Hend : _ \/ _ |- _ => destruct Hend as [[_ Hn]|[? _]]; [| discriminate]
      end;
      match goal with
      | Hk : (?k <= _)%nat |- _ => exists k
      end;
      unfold since_reset; cbn [delivered] in *;
      (split; [lia | split; [lia | split; [lia | split]]]);
      first
      [ intros j Hj;
        match goal with
        | Hbelow : forall j, (j < _)%nat -> _ |- _ => specialize (Hbelow j Hj); lia
        end
      | match goal with
        | Htrace : trace _ = _ |- _ => rewrite Htrace
        end;
        trace_norm; rewrite added_app;
        repeat first
          [ progress cbn [List.filter is_delay app]
          | rewrite List.filter_app
          | match goal with
            | Hq : List.filter is_delay _ = _ |- _ => rewrite Hq
            end ];
        reflexivity ].
  - intros Hout.
    assert (forall w, w ∈ ["rising"; "falling"; "both"] ->
              strcaseeq (arg argv 3) w = false) as Hno.
    { intros w Hin. rewrite strcaseeq_casefold. apply String.eqb_neq.
      intros E. apply Hout. rewrite E.
      repeat (apply elem_of_cons in Hin as [->|Hin]);
        try (by apply elem_of_nil in Hin);
        vm_compute;
        repeat first [ apply list_elem_of_here | apply list_elem_of_further ]. }
    pose proof (Hno "rising" ltac:(repeat first [ apply list_elem_of_here
                                                | apply list_elem_of_further ])) as H1.
    pose proof (Hno "falling" ltac:(repeat first [ apply list_elem_of_here
                                                 | apply list_elem_of_further ])) as H2.
    pose proof (Hno "both" ltac:(repeat first [ apply list_elem_of_here
                                              | apply list_elem_of_further ])) as H3.
    clear Hno.
    apply wp_is_eq. unfold doWfi. wp_run. wp_unfold @edge_mode. wp_run.
    split; reflexivity.
  - intros Hmode Hisr. apply Z.ltb_lt in Hisr.
    change (wp (doWfi fuel 4 argv) e s (fun r s' =>
      r = Exit 1
      /\ List.filter is_delay (drop (length (trace s)) (trace s')) = [])).
    unfold doWfi.
    repeat (apply elem_of_cons in Hmode as [Hmode|Hmode]);
      try (by apply elem_of_nil in Hmode);
      wp_run; wp_unfold @edge_mode; wp_run;
      state_simpl; trace_norm; rewrite added_app; split; reflexivity.
Qed.

(** X29.  [gpio -v] only reports.  doVersion always returns; it asks the library
    for its version and for the board, and all else it does is print on
    standard output.  The state is as before but for the trace. *)
Theorem doVersion_only_reports e s argv :
  exists new,
    doVersion argv e s = (Ret tt, set_trace (trace s ++ new) s)
    /\ List.filter (fun ev => negb (is_stdout ev)) new
       = [Call "wiringPiVersion" []; Call "piBoardId" []].
Proof.
  enough (wp (doVersion argv) e s (fun r s' =>
            exists new, (r, s') = (Ret tt, set_trace (trace s ++ new) s)
              /\ List.filter (fun ev => negb (is_stdout ev)) new
                 = [Call "wiringPiVersion" []; Call "piBoardId" []])) as Hwp.
  { unfold wp in Hwp. destruct Hwp as (new & Hrun & Hnew).
    exists new. split; [| exact Hnew]. rewrite <- Hrun. apply run_eta. }
  unfold doVersion.
  wp_run; state_simpl; trace_norm; eexists; (split; [reflexivity |]); reflexivity.
Qed.

End Flow.

(** [gpio -x mcp23017:100:0x20 read 100]: one round, five words become
    three. *)
Lemma extensions_terminates_witness :
  match (extensions 5 5 ["gpio"; "-x"; "mcp23017:100:0x20"; "read"; "100"]
           pi_env boot).1 with
  | Ret (argc', argv') =>
      strcaseeq (arg argv' 1) "-x" = false
      /\ 0 < argc' /\ exists k, 0 <= k /\ 5 = argc' + 2 * k
  | Exit c => c = 1
  | _ => False
  end.
Proof.
  apply (extensions_terminates pi_env boot 5
           ["gpio"; "-x"; "mcp23017:100:0x20"; "read"; "100"]).
  lia.
Defined.

Example extensions_one_round :
  (extensions 5 5 ["gpio"; "-x"; "mcp23017:100:0x20"; "read"; "100"]
     pi_env boot).1
  = Ret (3, ["gpio"; "read"; "100"; "read"; "100"]).
Proof. reflexivity. Qed.

(** [gpio -b] as root on the sample board. *)
Lemma main_flag_without_command_witness :
  (main (hdr := pi_header) 0 2 ["gpio"; "-b"] pi_env boot).1 = Exit 1
  /\ trace (main (hdr := pi_header) 0 2 ["gpio"; "-b"] pi_env boot).2
     = [Call "wiringPiSetupGpio" []; Assign_wpMode 1;
        Call "wiringPiSetupGpio" []; Assign_wpMode 1;
        Stderr ("[FATAL] gpio: no command given" +:+ nl)].
Proof.
  destruct (main_flag_without_command (hdr := pi_header) pi_env boot 0 "gpio" "-b"
              eq_refl ltac:(apply list_elem_of_here)) as [Hexit _].
  split; [exact Hexit | reflexivity].
Defined.

(** [gpio wfi 17 rising] on the sample board, where the first edge comes
    in the fourth slot, and with a mode word that is none. *)
Lemma doWfi_waits_for_one_edge_witness :
  (exists k, (k <= 10)%nat /\
     nInts (doWfi (hdr := pi_header) 10 4 ["gpio"; "wfi"; "17"; "rising"]
              pi_env boot).2 = delivered pi_env 1 (S k))
  /\ (doWfi (hdr := pi_header) 10 4 ["gpio"; "wfi"; "17"; "sideways"] pi_env boot).1
     = Exit 1.
Proof.
  pose proof (doWfi_waits_for_one_edge (hdr := pi_header) pi_env boot 10
                ["gpio"; "wfi"; "17"; "rising"]) as (Hsound & _).
  pose proof (doWfi_waits_for_one_edge (hdr := pi_header) pi_env boot 10
                ["gpio"; "wfi"; "17"; "sideways"]) as (_ & Hbad & _).
  cbv zeta in Hsound, Hbad. split.
  - destruct (Hsound ltac:(vm_compute; reflexivity)) as (k & Hk & Hn & _).
    exists k. split; [exact Hk | exact Hn].
  - rewrite Hbad; [reflexivity |].
    rewrite !elem_of_cons, elem_of_nil.
    vm_compute. intros H; repeat destruct H as [H|H];
      first [discriminate H | destruct H].
Defined.
(** * The exit status *)

Section Status.

Context {hdr : wiringPi_h}.
Implicit Types (e : Env) (s : State) (argv : list string).

Lemma exits_with_1_wp {A} (m : M A) :
  (forall e s, wp m e s (fun r _ => match r with Exit c => c = 1 | _ => True end)) ->
  exits_with_1 m.
Proof. intros Hwp e s. apply Hwp. Qed.

(** A step that can leave only with exit code 1 may be passed over when
    what follows holds in every state. *)
Lemma wp_exits_with_1 {A} (m : M A) e s (Q : Result A -> State -> Prop) :
  exits_with_1 m ->
  (forall a s', Q (Ret a) s') -> (forall s', Q (Exit 1) s') ->
  (forall s', Q Running s') -> (forall s', Q Fault s') ->
  wp m e s Q.
Proof.
  intros Hm Hret Hexit Hrun Hfault. unfold wp. specialize (Hm e s).
  destruct (m e s) as [[a|c| |] s']; cbn in *; auto. by subst c.
Qed.

Lemma for_each_exits_with_1 {S} (body : Z -> S -> M S) (l : list Z) :
  (forall i st, exits_with_1 (body i st)) ->
  forall st, exits_with_1 (for_each l body st).
Proof.
  intros Hbody. induction l as [|i l IH]; intros st e s; [done |].
  cbn [for_each]. unfold mbind, M_bind.
  pose proof (Hbody i st e s) as Hi.
  destruct (body i st e s) as [[st'|c| |] s']; cbn in *; try done.
  apply IH.
Qed.

Lemma extensions_exits_with_1 rounds : forall argc argv,
  exits_with_1 (extensions rounds argc argv).
Proof.
  induction rounds as [|rounds IH]; intros argc argv; apply exits_with_1_wp;
    intros e s; cbn [extensions].
  - wp_run; exact I.
  - wp_run; try reflexivity; try exact I.
    apply wp_exits_with_1; [apply IH | done ..].
Qed.

Ltac status_step :=
  lazymatch goal with
  | |- wp (findExecutable _) _ _ _ => apply wp_findExecutable; intros ? ?
  | |- wp (match ?r with Some _ => _ | None => _ end) _ _ _ => destruct r
  | |- wp (open_read _ _) _ _ _ => apply wp_open_read
  | |- wp (interrupts wfi) _ _ _ => apply wp_interrupts_wfi; intros ? ?
  | |- wp (wait_interrupts _ _) _ _ _ =>
      let Hend := fresh "Hend" in
      apply wp_wait_interrupts; intros ? ? ? ? ? ? ? ? ? ? Hend;
      destruct Hend as [[-> ?]|(-> & ? & ?)]
  | |- wp (forever _ _) _ _ _ => apply wp_forever_blink; intros ? ? ?
  | |- wp (edge_mode _) _ _ _ => wp_unfold @edge_mode
  end.

Ltac status_run := wp_run; repeat (status_step; wp_run).

Ltac status_done := first [exact I | reflexivity].

Ltac by_running h :=
  apply exits_with_1_wp; intros ? ?; unfold h; status_run; status_done.

Lemma doExports_exits argc argv : exits_with_1 (doExports argc argv).
Proof.
  apply exits_with_1_wp. intros e s. unfold doExports. wp_run.
  apply wp_exits_with_1; [| intros; wp_run; exact I | done ..].
  apply for_each_exits_with_1. intros i [first buf].
  by_running doExports_pin.
Qed.

Lemma doUnexportall_exits progName : exits_with_1 (doUnexportall progName).
Proof.
  unfold doUnexportall. apply for_each_exits_with_1. intros pin [].
  apply exits_with_1_wp. intros e s. status_run; status_done.
Qed.

Lemma doExport_exits argc argv : exits_with_1 (doExport argc argv).
Proof. by_running doExport. Qed.

Lemma doEdge_exits argc argv : exits_with_1 (doEdge argc argv).
Proof. by_running doEdge. Qed.

Lemma doUnexport_exits argc argv : exits_with_1 (doUnexport argc argv).
Proof. by_running doUnexport. Qed.

Lemma doLoad_exits argc argv : exits_with_1 (doLoad argc argv).
Proof. by_running doLoad. Qed.

Lemma doUnLoad_exits argc argv : exits_with_1 (doUnLoad argc argv).
Proof. by_running doUnLoad. Qed.

Lemma doUsbP_exits argc argv : exits_with_1 (doUsbP argc argv).
Proof. by_running @doUsbP. Qed.

Lemma doI2Cdetect_exits argc argv : exits_with_1 (doI2Cdetect argc argv).
Proof. by_running doI2Cdetect. Qed.

Lemma doReset_exits progName : exits_with_1 (doReset progName).
Proof. by_running doReset. Qed.

Lemma doMode_exits argc argv : exits_with_1 (doMode argc argv).
Proof. by_running @doMode. Qed.

Lemma doPadDrive_exits argc argv : exits_with_1 (doPadDrive argc argv).
Proof. by_running doPadDrive. Qed.

Lemma doWrite_exits argc argv : exits_with_1 (doWrite argc argv).
Proof. by_running @doWrite. Qed.

Lemma doAwrite_exits argc argv : exits_with_1 (doAwrite argc argv).
Proof. by_running doAwrite. Qed.

Lemma doWriteByte_exits argc argv : exits_with_1 (doWriteByte argc argv).
Proof. by_running doWriteByte. Qed.

Lemma doReadByte_exits argc argv printHex :
  exits_with_1 (doReadByte argc argv printHex).
Proof. by_running doReadByte. Qed.

Lemma doRead_exits argc argv : exits_with_1 (doRead argc argv).
Proof. by_running doRead. Qed.

Lemma doBank_exits argc argv : exits_with_1 (doBank argc argv).
Proof. by_running doBank. Qed.

Lemma doAread_exits argc argv : exits_with_1 (doAread argc argv).
Proof. by_running doAread. Qed.

Lemma doToggle_exits argc argv : exits_with_1 (doToggle argc argv).
Proof. by_running doToggle. Qed.

Lemma doBlink_exits fuel argc argv : exits_with_1 (doBlink fuel argc argv).
Proof. by_running @doBlink. Qed.

Lemma doPwmTone_exits argc argv : exits_with_1 (doPwmTone argc argv).
Proof. by_running doPwmTone. Qed.

Lemma doClock_exits argc argv : exits_with_1 (doClock argc argv).
Proof. by_running doClock. Qed.

Lemma doPwm_exits argc argv : exits_with_1 (doPwm argc argv).
Proof. by_running doPwm. Qed.

Lemma doPwmMode_exits mode : exits_with_1 (doPwmMode mode).
Proof. by_running doPwmMode. Qed.

Lemma doPwmRange_exits argc argv : exits_with_1 (doPwmRange argc argv).
Proof. by_running doPwmRange. Qed.

Lemma doPwmClock_exits argc argv : exits_with_1 (doPwmClock argc argv).
Proof. by_running doPwmClock. Qed.

Lemma doWfi_exits fuel argc argv : exits_with_1 (doWfi fuel argc argv).
Proof. by_running @doWfi. Qed.

Lemma doMWfi_exits fuel argc argv : exits_with_1 (doMWfi fuel argc argv).
Proof. by_running @doMWfi. Qed.

Lemma doVersion_exits argv : exits_with_1 (doVersion argv).
Proof. by_running doVersion. Qed.

Lemma numbering_exits argc argv : exits_with_1 (numbering argc argv).
Proof. by_running @numbering. Qed.

Create HintDb handlers discriminated.

#[local] Hint Resolve doExports_exits doUnexportall_exits doExport_exits
  doEdge_exits doUnexport_exits doLoad_exits doUnLoad_exits doUsbP_exits
  doI2Cdetect_exits doReset_exits doMode_exits doPadDrive_exits doWrite_exits
  doAwrite_exits doWriteByte_exits doReadByte_exits doRead_exits doBank_exits
  doAread_exits doToggle_exits doBlink_exits doPwmTone_exits doClock_exits
  doPwm_exits doPwmMode_exits doPwmRange_exits doPwmClock_exits doWfi_exits
  doMWfi_exits doVersion_exits numbering_exits extensions_exits_with_1 : handlers.

(** A call of a handler inside a longer run. *)
Ltac pass_handler :=
  lazymatch goal with
  | |- wp _ _ _ _ =>
      apply wp_exits_with_1; [solve [auto with handlers] | intros .. ]
  end.

(** X30.  The exit status of gpio is 0 or 1, whatever the words, the user
    and the answers of the system are.  When [main] returns, it returns 0;
    when the process is ended by [exit], in [main] or in any handler, the
    code is 0, after the help text, the version and the licence note, or
    1. *)
Theorem main_exit_status e s fuel argc argv :
  match (main fuel argc argv e s).1 with
  | Ret status => status = 0
  | Exit code => code = 0 \/ code = 1
  | Running | Fault => True
  end.
Proof.
  change (wp (main fuel argc argv) e s (fun r _ =>
            match r with
            | Ret status => status = 0
            | Exit code => code = 0 \/ code = 1
            | Running | Fault => True
            end)).
  unfold main.
  repeat (wp_run;
          try first [ lazymatch goal with
                      | |- wp warranty _ _ _ => wp_unfold @warranty
                      end
                    | pass_handler ]);
    first [ exact I | reflexivity | left; reflexivity | right; reflexivity ].
Qed.

End Status.
